(** * obsidian-brain: the task archiver of [src/main.ts]

    A shallow embedding of the plugin's two commands, Complete Task and
    Progress Task, and the properties of its location and merge algorithm.

    Conventions of the embedding.
    - A JavaScript string is a [string]; a character is a code unit below 256.
    - A line number is a [nat].  Where the source uses [-1] for "not found"
      the embedding uses [None].
    - The document is the list of its lines, as the host buffer stores it.
    - [new Date()] is an argument [now] of the command. *)

From Stdlib Require Import Ascii String DecimalString DecimalNat.
From stdpp Require Import base tactics option numbers list strings.

Local Open Scope nat_scope.
#[local] Arguments String.append !_ _ / : simpl nomatch.

(** ** JavaScript string primitives used by the source *)

Module Js.

Definition tab : ascii := "009"%char.
Definition lf : ascii := "010"%char.

(** The characters matched by [\s] and removed by [trim()]: WhiteSpace and
    LineTerminator of ECMAScript, restricted to code units below 256. *)
Definition isWhiteSpace (c : ascii) : bool :=
  match c with
  | "009" | "010" | "011" | "012" | "013" | " " | "160" => true
  | _ => false
  end%char.

(** [s.startsWith(p)] *)
Fixpoint startsWith (s p : string) : bool :=
  match p, s with
  | EmptyString, _ => true
  | String a p', String b s' => if Ascii.eqb a b then startsWith s' p' else false
  | String _ _, EmptyString => false
  end.

(** [s.slice(n)] for [0 <= n] *)
Fixpoint slice (n : nat) (s : string) : string :=
  match n, s with
  | 0, _ => s
  | S n', String _ s' => slice n' s'
  | S _, EmptyString => EmptyString
  end.

(** [s.slice(0, n)] for [0 <= n] *)
Fixpoint sliceTo (n : nat) (s : string) : string :=
  match n, s with
  | 0, _ => EmptyString
  | S n', String c s' => String c (sliceTo n' s')
  | S _, EmptyString => EmptyString
  end.

(** [s.contains(sub)], Obsidian's alias of [s.includes(sub)] *)
Fixpoint contains (s sub : string) : bool :=
  startsWith s sub ||
  match s with
  | EmptyString => false
  | String _ s' => contains s' sub
  end.

Fixpoint trimStart (s : string) : string :=
  match s with
  | String c s' => if isWhiteSpace c then trimStart s' else s
  | EmptyString => EmptyString
  end.

Fixpoint trimEnd (s : string) : string :=
  match s with
  | EmptyString => EmptyString
  | String c s' =>
      match trimEnd s' with
      | EmptyString => if isWhiteSpace c then EmptyString else String c EmptyString
      | r => String c r
      end
  end.

(** [s.trim()] *)
Definition trim (s : string) : string := trimEnd (trimStart s).

(** The longest run of white space a string starts with: what the group of
    the anchored pattern captures. *)
Fixpoint leadingSpace (s : string) : string :=
  match s with
  | String c s' => if isWhiteSpace c then String c (leadingSpace s') else EmptyString
  | EmptyString => EmptyString
  end.

(** [s.match(/^\t*/)[0].length]: the pattern matches every string. *)
Fixpoint leadingTabs (s : string) : nat :=
  match s with
  | String c s' => if Ascii.eqb c tab then S (leadingTabs s') else 0
  | EmptyString => 0
  end.

(** [ss.join(sep)] *)
Fixpoint join (sep : string) (ss : list string) : string :=
  match ss with
  | [] => EmptyString
  | [s] => s
  | s :: rest => s +:+ sep +:+ join sep rest
  end.

(** [String(n)] for a natural number [n] *)
Definition ofNat (n : nat) : string := NilEmpty.string_of_uint (Nat.to_uint n).

(** [s.padStart(2, '0')] *)
Definition padStart2 (s : string) : string :=
  match String.length s with
  | 0 => "00"
  | 1 => "0" +:+ s
  | _ => s
  end.

End Js.

(** ** class Task *)

Record Task := mkTask {
  parents : list string;
  task : string;
  children : list string
}.

(** [s.replace(bulletTaskRegex, "$1" + repl)]: the pattern is anchored at the
    start, its group takes white space greedily, and giving white space back
    cannot help since a dash is not white space; so it matches exactly when
    the text after the leading white space starts with the unchecked marker,
    and the string is returned unchanged otherwise. *)
Definition replaceBulletTask (repl : string) (s : string) : string :=
  let indent := Js.leadingSpace s in
  let rest := Js.slice (String.length indent) s in
  if Js.startsWith rest "- [ ]" then indent +:+ repl +:+ Js.slice 5 rest else s.

(** [new Task(parents, task, children)] *)
Definition newTask (ps : list string) (t : string) (cs : list string) : Task :=
  {| parents := map (replaceBulletTask "-") ps; task := t; children := cs |}.

Definition markAsCompleted (t : Task) : Task :=
  {| parents := parents t; task := replaceBulletTask "- [x]" (task t); children := children t |}.

Definition markAsInProgress (t : Task) : Task :=
  {| parents := parents t; task := replaceBulletTask "- [/]" (task t); children := children t |}.

(** [task.toString(includeParentIndex)] *)
Definition toString (t : Task) (includeParentIndex : nat) : string :=
  match drop includeParentIndex (parents t) with
  | [] => task t
  | includedParents => Js.join (String Js.lf "") includedParents +:+ String Js.lf "" +:+ task t
  end.

(** ** The host editor

    The editor of Obsidian is not part of the repository; the plugin consumes
    it through [getLine], [lineCount], [lastLine], [getCursor], [setCursor]
    and [transaction]. *)

Record EditorPosition := mkPos { line : nat; ch : nat }.

Record EditorChange := mkChange {
  text : string;
  from : EditorPosition;
  to : option EditorPosition
}.

(** A simulated buffer: the lines of the document, the cursor, the log of
    the transactions applied so far, oldest first, and the rule by which
    the buffer places the cursor when a transaction is applied.  The host
    moves the cursor along with the edits; how it does so is not part of
    the repository, so the rule is a field of the buffer: from the document
    and the cursor before the transaction and the changes it gives the
    cursor after it.  A statement about an editor [e] holds for every such
    rule. *)
Record Editor := hostEditor {
  lines : list string;
  cursor : EditorPosition;
  applied : list (list EditorChange);
  cursorAfter : list string -> EditorPosition -> list EditorChange -> EditorPosition
}.

(** A buffer whose transactions leave the cursor at the same line and
    column numbers. *)
Definition mkEditor (doc : list string) (pos : EditorPosition)
    (log : list (list EditorChange)) : Editor :=
  hostEditor doc pos log (fun _ pos _ => pos).

Module Host.

(** Modelled from the spec: [getLine(lineNumber) -> string] of the host
    buffer.  A line number past the last line reads as the empty string,
    which is what the source relies on when it measures the end of the line
    at [editor.lineCount()]. *)
Definition getLine (doc : list string) (lineNumber : nat) : string :=
  default EmptyString (doc !! lineNumber).

Definition lineCount (doc : list string) : nat := length doc.

Definition lastLine (doc : list string) : nat := length doc - 1.

(** Text of an edit, cut at line feeds. *)
Fixpoint splitLines (s : string) : list string :=
  match s with
  | EmptyString => [EmptyString]
  | String c s' =>
      if Ascii.eqb c Js.lf then EmptyString :: splitLines s'
      else match splitLines s' with
           | l :: ls => String c l :: ls
           | [] => [String c EmptyString]
           end
  end.

(** Modelled from the spec: a position outside the document denotes the
    nearest position inside it; a line past the last one denotes the end of
    the document. *)
Definition clip (doc : list string) (p : EditorPosition) : EditorPosition :=
  if line p <? lineCount doc
  then mkPos (line p) (ch p `min` String.length (getLine doc (line p)))
  else mkPos (lastLine doc) (String.length (getLine doc (lastLine doc))).

Definition posLe (p q : EditorPosition) : bool :=
  (line p <? line q) || ((line p =? line q) && (ch p <=? ch q)).

(** One edit with its range resolved in the document it refers to. *)
Record Resolved := mkResolved {
  rfrom : EditorPosition;
  rto : EditorPosition;
  rtext : string
}.

Definition resolve (doc : list string) (c : EditorChange) : Resolved :=
  let f := clip doc (from c) in
  mkResolved f (match to c with Some t => clip doc t | None => f end) (text c).

(** Replace the text between two positions of [doc]. *)
Definition replaceRange (doc : list string) (r : Resolved) : list string :=
  take (line (rfrom r)) doc
  ++ splitLines (Js.sliceTo (ch (rfrom r)) (getLine doc (line (rfrom r)))
                 +:+ rtext r
                 +:+ Js.slice (ch (rto r)) (getLine doc (line (rto r))))
  ++ drop (S (line (rto r))) doc.

(** Stable insertion by start position. *)
Fixpoint insertByFrom (r : Resolved) (rs : list Resolved) : list Resolved :=
  match rs with
  | [] => [r]
  | x :: rs' => if posLe (rfrom r) (rfrom x) then r :: x :: rs' else x :: insertByFrom r rs'
  end.

Definition sortByFrom (rs : list Resolved) : list Resolved :=
  foldr insertByFrom [] rs.

(** Modelled from the spec: [applyTransaction(edits)] of the host buffer.
    Every edit replaces its range [from, to) (or inserts at [from] when
    [to] is absent) with its text; all positions refer to the document
    before the transaction, so the edits are carried out from the bottom of
    the document upwards, and edits that start at the same position keep
    the order in which they were given. *)
Definition applyTransaction (doc : list string) (changes : list EditorChange) : list string :=
  foldr (fun r d => replaceRange d r) doc (sortByFrom (map (resolve doc) changes)).

(** [editor.transaction({ changes })]: the document changes, the cursor goes
    where the buffer's rule puts it, and the transaction is logged. *)
Definition transaction (e : Editor) (changes : list EditorChange) : Editor :=
  {| lines := applyTransaction (lines e) changes;
     cursor := cursorAfter e (lines e) (cursor e) changes;
     applied := applied e ++ [changes];
     cursorAfter := cursorAfter e |}.

(** [editor.setCursor(pos)] *)
Definition setCursor (e : Editor) (pos : EditorPosition) : Editor :=
  {| lines := lines e; cursor := pos; applied := applied e; cursorAfter := cursorAfter e |}.

End Host.

(** ** class Markdown

    The methods read the editor's document; [changes] is threaded explicitly
    by the caller, every [push] appending at the end. *)

Section Markdown.

Variable doc : list string.

Definition isBullet (lineNumber : nat) : bool :=
  (lineNumber <=? Host.lastLine doc) && Js.contains (Host.getLine doc lineNumber) "- ".

Definition isBulletTask (lineNumber : nat) : bool :=
  (lineNumber <=? Host.lastLine doc) &&
  (Js.contains (Host.getLine doc lineNumber) "- [ ] " || Js.contains (Host.getLine doc lineNumber) "- [x] ").

Definition isArchiveTask (lineNumber : nat) : bool :=
  isBullet lineNumber || isBulletTask lineNumber.

Definition indentLevel (lineNumber : nat) : nat :=
  Js.leadingTabs (Host.getLine doc lineNumber).

(** The inner [while] of [getTask]:
    [while (parentLineNumber >= 0 && indentLevel(parentLineNumber) >= currentIndentLevel) parentLineNumber--].
    The argument [above] is [parentLineNumber + 1]; the result is [None]
    when the loop leaves [parentLineNumber] at [-1]. *)
Fixpoint skipDeeper (currentIndentLevel : nat) (above : nat) : option nat :=
  match above with
  | 0 => None
  | S parentLineNumber =>
      if currentIndentLevel <=? indentLevel parentLineNumber
      then skipDeeper currentIndentLevel parentLineNumber
      else Some parentLineNumber
  end.

(** The [for] loop of [getTask] over [parentIndentLevel], from
    [taskIndentLevel - 1] down to [0].  The argument [level] is
    [parentIndentLevel + 1], [above] is [parentLineNumber + 1], and [acc] is
    the array [parents], to which [unshift] adds at the front. *)
Fixpoint findParents (level above currentIndentLevel : nat) (acc : list string) : list string :=
  match level with
  | 0 => acc
  | S parentIndentLevel =>
      match skipDeeper currentIndentLevel above with
      | Some parentLineNumber =>
          if isBulletTask parentLineNumber && (indentLevel parentLineNumber =? parentIndentLevel)
          then findParents parentIndentLevel (S parentLineNumber) parentIndentLevel
                 (Host.getLine doc parentLineNumber :: acc)
          else acc
      | None => acc
      end
  end.

Definition getTask (lineNumber : nat) : option Task :=
  if negb (isBulletTask lineNumber) then None
  else
    let task := Host.getLine doc lineNumber in
    let taskIndentLevel := indentLevel lineNumber in
    let parents := findParents taskIndentLevel lineNumber taskIndentLevel [] in
    Some (newTask parents task []).

Definition lineStartPosition (lineNumber : nat) : EditorPosition :=
  mkPos lineNumber 0.

Definition lineEndPosition (lineNumber : nat) : EditorPosition :=
  mkPos lineNumber (String.length (Host.getLine doc lineNumber)).

Definition appendAfterLine (lineNumber : nat) (txt : string) : EditorChange :=
  mkChange (String Js.lf txt) (lineEndPosition lineNumber) None.

Definition appendToEnd (txt : string) : EditorChange :=
  appendAfterLine (Host.lastLine doc) txt.

Definition replaceLine (lineNumber : nat) (txt : string) : EditorChange :=
  mkChange txt (lineStartPosition lineNumber) (Some (lineEndPosition lineNumber)).

(** [deleteLine(fromLine, toLine?)]; [toLine] is [None] when it is left
    out of the call. *)
Definition deleteLine (fromLine : nat) (toLine : option nat) : EditorChange :=
  let startPosition :=
    if fromLine =? 0 then lineStartPosition 0 else lineEndPosition (fromLine - 1) in
  let endPosition :=
    match toLine with
    | None => lineEndPosition fromLine
    | Some toLine => lineEndPosition toLine
    end in
  mkChange EmptyString startPosition (Some endPosition).

End Markdown.

(** ** Free functions of [main.ts] *)

(** The fields of [new Date()] that [getLocalDateString] reads. *)
Record Date := mkDate {
  getFullYear : nat;
  getMonth : nat;
  getDate : nat
}.

Definition getLocalDateString (now : Date) : string :=
  let year := Js.ofNat (getFullYear now) in
  let month := Js.padStart2 (Js.ofNat (getMonth now + 1)) in
  let day := Js.padStart2 (Js.ofNat (getDate now)) in
  year +:+ "-" +:+ month +:+ "-" +:+ day.

Definition patterns : list string := ["- [ ] "; "- [x] "; "- "].

(** The [for (const pattern of patterns)] loop of [stripTask]. *)
Fixpoint stripFirst (ps : list string) (task : string) : string :=
  match ps with
  | [] => task
  | pattern :: ps' =>
      if Js.startsWith task pattern then Js.slice (String.length pattern) task
      else stripFirst ps' task
  end.

Definition stripTask (task : string) : string :=
  stripFirst patterns (Js.trim task).

Definition isSameTask (task1 task2 : string) : bool :=
  String.eqb (stripTask task1) (stripTask task2).

(** [for (var i = start; i < editor.lineCount(); i++) if (editor.getLine(i) == target) ... break]:
    the first line at or after [start] that equals [target]. *)
Definition findLine (doc : list string) (start : nat) (target : string) : option nat :=
  (fun found => start + found.1) <$> list_find (fun l => l = target) (drop start doc).

(** [while (cond(n)) n++], run for at most [fuel] rounds. *)
Fixpoint advanceWhile (cond : nat -> bool) (fuel n : nat) : nat :=
  match fuel with
  | 0 => n
  | S fuel' => if cond n then advanceWhile cond fuel' (S n) else n
  end.

Section Locate.

Variable doc : list string.

(** The condition of the [while] inside the [for] over the parents: an
    archived line that is deeper than the parent looked for, or a sibling
    of it that does not match. *)
Definition notYetParent (parent : string) (currentParentLevel n : nat) : bool :=
  isArchiveTask doc n &&
  ((currentParentLevel <? indentLevel doc n) ||
   ((indentLevel doc n =? currentParentLevel) && negb (isSameTask (Host.getLine doc n) parent))).

(** The [for (; currentParentLevel < task.parents.length; currentParentLevel++)]
    loop of [archiveTask]; [ps] is what is left of [task.parents] from
    [currentParentLevel] on.  It returns [archiveTaskLineNumber] and
    [currentParentLevel] as the loop leaves them. *)
Fixpoint matchParents (ps : list string) (archiveTaskLineNumber currentParentLevel : nat) : nat * nat :=
  match ps with
  | [] => (archiveTaskLineNumber, currentParentLevel)
  | parent :: ps' =>
      let n := advanceWhile (notYetParent parent currentParentLevel)
                 (Host.lineCount doc) archiveTaskLineNumber in
      if negb (isArchiveTask doc n) || (indentLevel doc n <? currentParentLevel)
      then (n, currentParentLevel)
      else if (indentLevel doc n =? currentParentLevel) && isSameTask (Host.getLine doc n) parent
      then matchParents ps' (S n) (S currentParentLevel)
      else matchParents ps' n (S currentParentLevel)
  end.

Definition isTheTask (t : string) (currentParentLevel n : nat) : bool :=
  (indentLevel doc n =? currentParentLevel) && isSameTask (Host.getLine doc n) t.

(** The last [while] of [archiveTask], whose body leaves by [break] when it
    finds the task. *)
Definition endOfList (t : string) (currentParentLevel archiveTaskLineNumber : nat) : nat :=
  advanceWhile
    (fun n => isArchiveTask doc n && (currentParentLevel <=? indentLevel doc n)
              && negb (isTheTask t currentParentLevel n))
    (Host.lineCount doc) archiveTaskLineNumber.

(** The changes [archiveTask] pushes before it deletes the source line. *)
Definition archiveChanges (today : string) (taskLineNumber : nat) (t : Task) : list EditorChange :=
  let '(changes, historyLineNumber) :=
    match findLine doc (taskLineNumber + 1) "# History" with
    | Some i => ([], i)
    | None => ([appendToEnd doc "# History"], Host.lineCount doc)
    end in
  match findLine doc (historyLineNumber + 1) ("## " +:+ today) with
  | None =>
      let todayLineNumber := historyLineNumber in
      changes ++ [appendAfterLine doc historyLineNumber ("## " +:+ today)]
              ++ [appendAfterLine doc todayLineNumber (toString t 0)]
  | Some todayLineNumber =>
      let '(n, currentParentLevel) := matchParents (parents t) (todayLineNumber + 1) 0 in
      let archiveTaskLineNumber := endOfList (task t) currentParentLevel n in
      if isTheTask (task t) currentParentLevel archiveTaskLineNumber
      then changes ++ [replaceLine doc archiveTaskLineNumber (task t)]
      else changes ++ [appendAfterLine doc (archiveTaskLineNumber - 1) (toString t currentParentLevel)]
  end.

End Locate.

Definition archiveTask (now : Date) (editor : Editor) (completeTask : bool) : Editor :=
  let currentPosition := cursor editor in
  let taskLineNumber := line currentPosition in
  let doc := lines editor in
  if negb (isBulletTask doc taskLineNumber) then editor
  else
    match getTask doc taskLineNumber with
    | None => editor
    | Some taskResult =>
        let t := if completeTask then markAsCompleted taskResult else markAsInProgress taskResult in
        let changes := archiveChanges doc (getLocalDateString now) taskLineNumber t in
        let changes := if completeTask then changes ++ [deleteLine doc taskLineNumber None] else changes in
        Host.setCursor (Host.transaction editor changes) currentPosition
    end.

(** The two commands registered by [onload]. *)
Definition completeTaskCommand (now : Date) (editor : Editor) : Editor := archiveTask now editor true.
Definition progressTaskCommand (now : Date) (editor : Editor) : Editor := archiveTask now editor false.

(** ** Worked runs *)

Definition day : Date := mkDate 2024 4 7.

Definition editorOf (doc : list string) (l c : nat) : Editor := mkEditor doc (mkPos l c) [].

(** A buffer whose transactions throw the cursor to the start of the
    document. *)
Definition jumpyEditorOf (doc : list string) (l c : nat) : Editor :=
  hostEditor doc (mkPos l c) [] (fun _ _ _ => mkPos 0 0).

Definition T : string := String Js.tab "".

(** A task two levels down, below a deeper line that the scan skips. *)
Definition outline : list string :=
  ["- [ ] A"; T +:+ "- [ ] B"; T +:+ T +:+ T +:+ "- note"; T +:+ T +:+ "- [ ] C"].

(** * Vocabulary of the statements *)

(** Lines without a line feed. *)

Fixpoint singleLine (s : string) : bool :=
  match s with
  | EmptyString => true
  | String c s' => negb (Ascii.eqb c Js.lf) && singleLine s'
  end.

Definition linesOK (doc : list string) : bool := forallb singleLine doc.

(** [X] put after line [n]. *)
Definition insertAfter (n : nat) (X doc : list string) : list string :=
  take (S n) doc ++ X ++ drop (S n) doc.

(** What [deleteLine] leaves: the line is taken out together with the line
    break before it; line 0 has none, so it stays as an empty line. *)
Definition removeLine (t : nat) (doc : list string) : list string :=
  if t =? 0 then EmptyString :: drop 1 doc else take t doc ++ drop (S t) doc.

(** An insertion at the end of line [n], as [appendAfterLine] asks for it. *)
Definition atEnd (doc : list string) (n : nat) (txt : string) : Host.Resolved :=
  Host.mkResolved (lineEndPosition doc n) (lineEndPosition doc n) (String Js.lf txt).

(** The task as the command archives it. *)
Definition marked (completeTask : bool) (tk : Task) : Task :=
  if completeTask then markAsCompleted tk else markAsInProgress tk.

(** The changes of a run, with the deletion of the source line at the end
    when the task is completed. *)
Definition withDeletion (doc : list string) (t : nat) (del : bool)
    (changes : list EditorChange) : list EditorChange :=
  changes ++ (if del then [deleteLine doc t None] else []).

(** All the changes of one run. *)
Definition allChanges (now : Date) (doc : list string) (t : nat) (completeTask : bool) (tk : Task) : list EditorChange :=
  withDeletion doc t completeTask (archiveChanges doc (getLocalDateString now) t (marked completeTask tk)).

(** The lines a run appends when it finds no History heading below the task. *)
Definition freshArchive (now : Date) (tk : Task) : list string :=
  ["# History"; "## " +:+ getLocalDateString now] ++ parents tk ++ [task tk].

(** How many lines of the document are equal to [x]. *)
Definition countLines (x : string) (doc : list string) : nat :=
  length (filter (fun l => l = x) doc).

Section ChainSpec.

Variable doc : list string.

(** [p] is the first line above [c] that is indented less than [c]. *)
Definition nearestShallower (c p : nat) : Prop :=
  p < c /\ indentLevel doc p < indentLevel doc c /\
  forall i, p < i < c -> indentLevel doc c <= indentLevel doc i.

(** The upward scan from [c] cannot go on: [c] is at depth 0 already, or no
    line above is indented less, or the first such line is not a task line
    or is not exactly one level above. *)
Definition resolutionStops (c : nat) : Prop :=
  indentLevel doc c = 0 \/
  (forall i, i < c -> indentLevel doc c <= indentLevel doc i) \/
  exists p, nearestShallower c p /\
            (isBulletTask doc p = false \/ S (indentLevel doc p) <> indentLevel doc c).

(** [ancestors c js]: [js] are the line numbers of the chain resolved for the
    line [c], outermost first. *)
Inductive ancestors : nat -> list nat -> Prop :=
| ancestors_stop c :
    resolutionStops c -> ancestors c []
| ancestors_step c p js :
    nearestShallower c p ->
    isBulletTask doc p = true ->
    S (indentLevel doc p) = indentLevel doc c ->
    ancestors p js ->
    ancestors c (js ++ [p]).

End ChainSpec.

(** [r] is the first number from [s] on at which [cond] fails. *)
Definition firstFalse (cond : nat -> bool) (s r : nat) : Prop :=
  s <= r /\ (forall i, s <= i < r -> cond i = true) /\ cond r = false.

(** The condition of the last loop of the walk, the early exit included. *)
Definition listGoesOn (doc : list string) (t : string) (lvl n : nat) : bool :=
  isArchiveTask doc n && (lvl <=? indentLevel doc n) && negb (isTheTask doc t lvl n).

(** The parents found in a row, each at its own depth. *)
Definition wellIndented (ps : list string) (lvl : nat) : Prop :=
  forall k p, ps !! k = Some p -> Js.leadingTabs p = lvl + k /\ Js.contains p "- " = true.

(** Where the walk ends and at which depth, from the line of today's
    heading. *)
Definition locate (doc : list string) (todayLineNumber : nat) (tk : Task) : nat * nat :=
  let '(n, c) := matchParents doc (parents tk) (todayLineNumber + 1) 0 in
  (endOfList doc (task tk) c n, c).

(** Strings that end in white space, and strings of white space only. *)
Fixpoint endsWithSpace (s : string) : bool :=
  match s with
  | EmptyString => false
  | String c EmptyString => Js.isWhiteSpace c
  | String _ s' => endsWithSpace s'
  end.

Fixpoint allSpace (s : string) : bool :=
  match s with
  | EmptyString => true
  | String c s' => Js.isWhiteSpace c && allSpace s'
  end.

(** The document after the archive edits of Complete Task, with the source
    line still in place: the state in which an identical task line is
    completed once more. *)
Definition archivedOnly (now : Date) (doc : list string) (t : nat) (tk : Task) : list string :=
  Host.applyTransaction doc (archiveChanges doc (getLocalDateString now) t (markAsCompleted tk)).

(** The first run did not overwrite a line that lies above the depth of the
    task. *)
Definition placedAtOwnDepth (now : Date) (doc : list string) (t : nat) (tk : Task) : Prop :=
  forall h T L c,
    findLine doc (t + 1) "# History" = Some h ->
    findLine doc (h + 1) ("## " +:+ getLocalDateString now) = Some T ->
    locate doc T tk = (L, c) ->
    isTheTask doc (task tk) c L = true ->
    c = length (parents tk).

(** How far the lines below line [t] move up when a run ends: one line when
    the source line is deleted, except that line 0 is only emptied. *)
Definition moved (del : bool) (t : nat) : nat :=
  if del then (if t =? 0 then 0 else 1) else 0.

(** The run for [tk] from line [t] finds both headings and no line to
    overwrite. *)
Definition noOverwrite (now : Date) (doc : list string) (t : nat) (tk : Task) : Prop :=
  forall h T L c,
    findLine doc (t + 1) "# History" = Some h ->
    findLine doc (h + 1) ("## " +:+ getLocalDateString now) = Some T ->
    locate doc T tk = (L, c) ->
    isTheTask doc (task tk) c L = false.

(** Where the first line stands once the line above it has been deleted:
    line 0 stays as an empty line. *)
Definition kept (pre : list string) : list string :=
  match pre with
  | [] => [EmptyString]
  | _ => pre
  end.

(** * Lemmas *)

(** ** Strings: basic facts *)

Section StringFacts.

Lemma app_empty_r (s : string) : s +:+ "" = s.
Proof. induction s as [|c s IH]; simpl; [done | by rewrite IH]. Qed.

Lemma app_assoc_str (a b c : string) : (a +:+ b) +:+ c = a +:+ b +:+ c.
Proof. induction a as [|x a IH]; simpl; [done | by rewrite IH]. Qed.

Lemma length_app_str (a b : string) :
  String.length (a +:+ b) = String.length a + String.length b.
Proof. induction a as [|x a IH]; simpl; [done | by rewrite IH]. Qed.

Lemma slice_length_app (a b : string) : Js.slice (String.length a) (a +:+ b) = b.
Proof. induction a as [|x a IH]; simpl; [by destruct b | done]. Qed.

Lemma slice_length (a : string) : Js.slice (String.length a) a = "".
Proof. by rewrite <-(app_empty_r a) at 2; rewrite slice_length_app. Qed.

Lemma slice_0 (a : string) : Js.slice 0 a = a.
Proof. by destruct a. Qed.

Lemma sliceTo_0 (a : string) : Js.sliceTo 0 a = "".
Proof. by destruct a. Qed.

Lemma sliceTo_length (a : string) : Js.sliceTo (String.length a) a = a.
Proof. induction a as [|x a IH]; simpl; [done | by rewrite IH]. Qed.

Lemma startsWith_split (s p : string) :
  Js.startsWith s p = true -> s = p +:+ Js.slice (String.length p) s.
Proof.
  revert s. induction p as [|a p IH]; intros s H; simpl.
  - by rewrite ?slice_0.
  - destruct s as [|b s]; simpl in H; [done |].
    destruct (Ascii.eqb_spec a b) as [->|]; [| done].
    simpl. f_equal. by apply IH.
Qed.

Lemma startsWith_app (p r : string) : Js.startsWith (p +:+ r) p = true.
Proof.
  induction p as [|a p IH]; simpl; [by destruct r |].
  by rewrite Ascii.eqb_refl.
Qed.

Lemma startsWith_refl (p : string) : Js.startsWith p p = true.
Proof. by rewrite <-(app_empty_r p) at 1; apply startsWith_app. Qed.

Lemma startsWith_empty (s : string) : Js.startsWith s "" = true.
Proof. by destruct s. Qed.

(** A string that starts with [p +:+ q] starts with [p]. *)
Lemma startsWith_shorter (s p q : string) :
  Js.startsWith s (p +:+ q) = true -> Js.startsWith s p = true.
Proof.
  revert s. induction p as [|a p IH]; intros s H; simpl in *.
  - apply startsWith_empty.
  - destruct s as [|b s]; simpl in *; [done |].
    destruct (Ascii.eqb a b); [by apply IH | done].
Qed.

Lemma contains_cons (c : ascii) (s sub : string) :
  Js.contains (String c s) sub = Js.startsWith (String c s) sub || Js.contains s sub.
Proof. done. Qed.

Lemma contains_empty (sub : string) : Js.contains "" sub = Js.startsWith "" sub.
Proof. apply orb_false_r. Qed.

Lemma contains_shorter (s p q : string) :
  Js.contains s (p +:+ q) = true -> Js.contains s p = true.
Proof.
  induction s as [|c s IH]; intros H.
  - rewrite contains_empty in *. by eapply startsWith_shorter.
  - rewrite contains_cons in *.
    apply orb_true_iff in H as [H|H]; apply orb_true_iff.
    + left. by eapply startsWith_shorter.
    + right. by apply IH.
Qed.

Lemma contains_startsWith (s p : string) :
  Js.startsWith s p = true -> Js.contains s p = true.
Proof.
  intros H. destruct s; [by rewrite contains_empty | by rewrite contains_cons, H].
Qed.

Lemma startsWith_cons (a b : ascii) (s p : string) :
  Js.startsWith (String b s) (String a p) = if Ascii.eqb a b then Js.startsWith s p else false.
Proof. done. Qed.

Lemma startsWith_space_dash (c : ascii) (s p : string) :
  Js.isWhiteSpace c = true -> Js.startsWith (String c s) (String "-" p) = false.
Proof.
  intros Hc. rewrite startsWith_cons.
  destruct (Ascii.eqb_spec "-" c) as [<-|]; done.
Qed.

Lemma contains_app_r (a s p : string) :
  Js.contains s p = true -> Js.contains (a +:+ s) p = true.
Proof.
  induction a as [|c a IH]; [done |].
  intros H. change (String c a +:+ s) with (String c (a +:+ s)).
  rewrite contains_cons, (IH H). apply orb_true_r.
Qed.

End StringFacts.

Section SingleLine.

Lemma singleLine_app (a b : string) :
  singleLine (a +:+ b) = singleLine a && singleLine b.
Proof. induction a as [|c a IH]; simpl; [done | by rewrite IH, andb_assoc]. Qed.

Lemma singleLine_slice (n : nat) (s : string) :
  singleLine s = true -> singleLine (Js.slice n s) = true.
Proof.
  revert s. induction n as [|n IH]; intros [|c s] H; simpl in *; try done.
  apply IH. by apply andb_true_iff in H as [_ H].
Qed.

Lemma splitLines_single (s : string) :
  singleLine s = true -> Host.splitLines s = [s].
Proof.
  induction s as [|c s IH]; simpl; [done |].
  intros [Hc Hs]%andb_true_iff. apply negb_true_iff in Hc.
  by rewrite Hc, (IH Hs).
Qed.

Lemma splitLines_app_lf (a b : string) :
  singleLine a = true ->
  Host.splitLines (a +:+ String Js.lf b) = a :: Host.splitLines b.
Proof.
  induction a as [|c a IH]; simpl; [done |].
  intros [Hc Hs]%andb_true_iff. apply negb_true_iff in Hc.
  by rewrite Hc, (IH Hs).
Qed.

Lemma linesOK_lookup (doc : list string) (n : nat) (l : string) :
  linesOK doc = true -> doc !! n = Some l -> singleLine l = true.
Proof.
  unfold linesOK. rewrite forallb_forall. intros H Hl.
  apply H, list_elem_of_In. by eapply list_elem_of_lookup_2.
Qed.

Lemma linesOK_getLine (doc : list string) (n : nat) :
  linesOK doc = true -> singleLine (Host.getLine doc n) = true.
Proof.
  intros H. unfold Host.getLine.
  destruct (doc !! n) as [l|] eqn:Hl; simpl; [by eapply linesOK_lookup | done].
Qed.

Lemma linesOK_Forall (ls : list string) :
  linesOK ls = true <-> Forall (fun l => singleLine l = true) ls.
Proof. unfold linesOK. by rewrite forallb_forall, Forall_forall; setoid_rewrite list_elem_of_In. Qed.

Lemma linesOK_app (xs ys : list string) :
  linesOK (xs ++ ys) = linesOK xs && linesOK ys.
Proof. apply forallb_app. Qed.

(** Cutting a joined block at its line feeds gives the lines back. *)
Lemma splitLines_join (ls : list string) (last : string) :
  linesOK ls = true -> singleLine last = true ->
  Host.splitLines (Js.join (String Js.lf "") (ls ++ [last])) = ls ++ [last].
Proof.
  intros Hls Hlast. induction ls as [|l ls IH]; simpl.
  - by apply splitLines_single.
  - simpl in Hls. apply andb_true_iff in Hls as [Hl Hls].
    destruct (ls ++ [last]) as [|x xs] eqn:E; [by destruct ls |].
    simpl. rewrite splitLines_app_lf by done. f_equal. by apply IH.
Qed.

End SingleLine.

(** ** The marker rewriting of class Task *)

Section Rewriting.

Lemma replaceBulletTask_empty (r : string) : replaceBulletTask r "" = "".
Proof. done. Qed.

Lemma replaceBulletTask_space (r : string) (c : ascii) (s : string) :
  Js.isWhiteSpace c = true ->
  replaceBulletTask r (String c s) = String c (replaceBulletTask r s).
Proof.
  intros Hc. unfold replaceBulletTask. simpl Js.leadingSpace. rewrite Hc.
  simpl String.length. simpl Js.slice.
  by destruct (Js.startsWith _ _).
Qed.

Lemma replaceBulletTask_text (r : string) (c : ascii) (s : string) :
  Js.isWhiteSpace c = false ->
  replaceBulletTask r (String c s) =
    if Js.startsWith (String c s) "- [ ]" then r +:+ Js.slice 5 (String c s) else String c s.
Proof.
  intros Hc. unfold replaceBulletTask. simpl Js.leadingSpace. by rewrite Hc.
Qed.

(** White space first, then anything: the general shape of a line. *)
Lemma replaceBulletTask_indent (r ws rest : string) :
  Js.leadingSpace ws = ws ->
  Js.leadingSpace rest = "" ->
  replaceBulletTask r (ws +:+ rest) =
    if Js.startsWith rest "- [ ]" then ws +:+ r +:+ Js.slice 5 rest else ws +:+ rest.
Proof.
  intros Hws Hrest. induction ws as [|c ws IH].
  - simpl. destruct rest as [|c rest]; [done |].
    simpl in Hrest. destruct (Js.isWhiteSpace c) eqn:Hc; [done |].
    by apply replaceBulletTask_text.
  - simpl in Hws. destruct (Js.isWhiteSpace c) eqn:Hc; [| done].
    injection Hws as Hws. simpl. rewrite replaceBulletTask_space, (IH Hws) by done.
    by destruct (Js.startsWith rest _).
Qed.

Lemma tab_is_space (c : ascii) : Ascii.eqb c Js.tab = true -> Js.isWhiteSpace c = true.
Proof. by intros ->%Ascii.eqb_eq. Qed.

(** The rewriting keeps the indentation of the line. *)
Lemma leadingTabs_replaceBulletTask (r s : string) :
  Js.leadingTabs (replaceBulletTask (String "-" r) s) = Js.leadingTabs s.
Proof.
  induction s as [|c s IH]; [done |].
  destruct (Js.isWhiteSpace c) eqn:Hc.
  - rewrite replaceBulletTask_space by done. simpl. by rewrite IH.
  - rewrite replaceBulletTask_text by done.
    destruct (Js.startsWith _ _) eqn:Hm; [| done].
    simpl. destruct (Ascii.eqb c Js.tab) eqn:Ht; [| done].
    apply tab_is_space in Ht. congruence.
Qed.

Lemma singleLine_replaceBulletTask (r s : string) :
  singleLine r = true -> singleLine s = true ->
  singleLine (replaceBulletTask r s) = true.
Proof.
  intros Hr. induction s as [|c s IH]; [done |]. intros Hs.
  destruct (Js.isWhiteSpace c) eqn:Hc.
  - rewrite replaceBulletTask_space by done. simpl in *.
    apply andb_true_iff in Hs as [-> Hs]. by apply IH.
  - rewrite replaceBulletTask_text by done.
    destruct (Js.startsWith _ _); [| done].
    rewrite singleLine_app, Hr. by apply singleLine_slice.
Qed.

(** A rewritten task line still shows a bullet. *)
Lemma contains_bullet_replaced (r s : string) :
  Js.startsWith r "- " = true ->
  Js.contains s "- " = true ->
  Js.contains (replaceBulletTask r s) "- " = true.
Proof.
  intros Hr. induction s as [|c s IH]; [done |]. intros Hs.
  destruct (Js.isWhiteSpace c) eqn:Hc.
  - rewrite replaceBulletTask_space by done. rewrite contains_cons in *.
    rewrite startsWith_space_dash in * by done. simpl in *.
    by apply IH.
  - rewrite replaceBulletTask_text by done.
    destruct (Js.startsWith (String c s) _) eqn:Hm; [| done].
    apply startsWith_split in Hr. rewrite Hr, app_assoc_str.
    apply contains_startsWith, startsWith_app.
Qed.

(** Turning the marker of a task line into a bare bullet leaves a bullet. *)
Lemma contains_bullet_bare (s : string) :
  Js.contains s "- [ ] " || Js.contains s "- [x] " = true ->
  Js.contains (replaceBulletTask "-" s) "- " = true.
Proof.
  induction s as [|c s IH]; [done |]. intros Hs.
  destruct (Js.isWhiteSpace c) eqn:Hc.
  - rewrite replaceBulletTask_space by done. rewrite !contains_cons in *.
    rewrite !startsWith_space_dash in * by done. simpl in *.
    by apply IH.
  - rewrite replaceBulletTask_text by done.
    destruct (Js.startsWith (String c s) "- [ ]") eqn:Hm.
    + apply startsWith_split in Hm. rewrite Hm in Hs |- *.
      set (rest := Js.slice _ (String c s)) in *. clearbody rest. simpl.
      simpl in Hs. apply orb_true_iff.
      apply orb_true_iff in Hs as [Hs|Hs]; [apply orb_true_iff in Hs as [Hs|Hs] |].
      * by left.
      * right. by apply (contains_shorter rest "- " "[ ] ").
      * right. by apply (contains_shorter rest "- " "[x] ").
    + apply orb_true_iff in Hs as [Hs|Hs].
      * by apply (contains_shorter _ "- " "[ ] ").
      * by apply (contains_shorter _ "- " "[x] ").
Qed.

End Rewriting.

(** ** The date heading *)

Section Today.

Lemma singleLine_ofNat (n : nat) : singleLine (Js.ofNat n) = true.
Proof. unfold Js.ofNat. by induction (Nat.to_uint n). Qed.

Lemma singleLine_padStart2 (s : string) :
  singleLine s = true -> singleLine (Js.padStart2 s) = true.
Proof. intros H. unfold Js.padStart2. by destruct (String.length s) as [|[|n]]. Qed.

Lemma singleLine_today (now : Date) : singleLine (getLocalDateString now) = true.
Proof.
  unfold getLocalDateString.
  rewrite !singleLine_app, !singleLine_padStart2, singleLine_ofNat; auto using singleLine_ofNat.
Qed.

Lemma singleLine_heading (now : Date) : singleLine ("## " +:+ getLocalDateString now) = true.
Proof. by rewrite singleLine_app, singleLine_today. Qed.

End Today.

(** ** The host buffer: what the plugin's edits do to the lines *)

Section HostFacts.

Implicit Types (doc : list string) (l txt : string) (n t : nat).

Lemma getLine_lookup doc n l : doc !! n = Some l -> Host.getLine doc n = l.
Proof. unfold Host.getLine. by intros ->. Qed.

Lemma getLine_ge doc n : length doc <= n -> Host.getLine doc n = "".
Proof. unfold Host.getLine. intros H. by rewrite lookup_ge_None_2. Qed.

Lemma lookup_getLine doc n : n < length doc -> doc !! n = Some (Host.getLine doc n).
Proof.
  intros H. unfold Host.getLine.
  destruct (lookup_lt_is_Some_2 doc n H) as [l ->]. done.
Qed.

Lemma posLe_refl (p : EditorPosition) : Host.posLe p p = true.
Proof.
  unfold Host.posLe. rewrite Nat.eqb_refl.
  replace (ch p <=? ch p) with true by (symmetry; apply Nat.leb_le; lia).
  apply orb_true_r.
Qed.

Lemma clip_lineEnd doc n :
  n < length doc -> Host.clip doc (lineEndPosition doc n) = lineEndPosition doc n.
Proof.
  intros H. unfold Host.clip, Host.lineCount, lineEndPosition. simpl.
  apply Nat.ltb_lt in H as ->. f_equal. lia.
Qed.

Lemma clip_lineEnd_ge doc n :
  length doc <= n ->
  Host.clip doc (lineEndPosition doc n) = lineEndPosition doc (Host.lastLine doc).
Proof.
  intros H. unfold Host.clip, Host.lineCount, lineEndPosition. simpl.
  by apply Nat.ltb_ge in H as ->.
Qed.

Lemma clip_lineStart doc n :
  n < length doc -> Host.clip doc (lineStartPosition n) = lineStartPosition n.
Proof.
  intros H. unfold Host.clip, Host.lineCount, lineStartPosition. simpl.
  by apply Nat.ltb_lt in H as ->.
Qed.

Lemma resolve_appendAfterLine doc n txt :
  n < length doc -> Host.resolve doc (appendAfterLine doc n txt) = atEnd doc n txt.
Proof. intros H. unfold Host.resolve, appendAfterLine. simpl. by rewrite clip_lineEnd. Qed.

Lemma resolve_appendAfterLine_ge doc n txt :
  length doc <= n ->
  Host.resolve doc (appendAfterLine doc n txt) = atEnd doc (Host.lastLine doc) txt.
Proof. intros H. unfold Host.resolve, appendAfterLine. simpl. by rewrite clip_lineEnd_ge. Qed.

Lemma resolve_replaceLine doc n txt :
  n < length doc ->
  Host.resolve doc (replaceLine doc n txt) =
    Host.mkResolved (lineStartPosition n) (lineEndPosition doc n) txt.
Proof.
  intros H. unfold Host.resolve, replaceLine. simpl.
  by rewrite clip_lineEnd, clip_lineStart.
Qed.

Lemma resolve_deleteLine doc t :
  t < length doc ->
  Host.resolve doc (deleteLine doc t None) =
    Host.mkResolved
      (if t =? 0 then lineStartPosition 0 else lineEndPosition doc (t - 1))
      (lineEndPosition doc t) "".
Proof.
  intros H. unfold Host.resolve, deleteLine. simpl. rewrite clip_lineEnd by done.
  destruct (t =? 0) eqn:E.
  - by rewrite clip_lineStart by lia.
  - apply Nat.eqb_neq in E. by rewrite clip_lineEnd by lia.
Qed.

(** *** Single edits *)

Lemma replaceRange_atEnd doc doc' n txt :
  n < length doc -> singleLine (Host.getLine doc n) = true ->
  doc' !! n = doc !! n ->
  Host.replaceRange doc' (atEnd doc n txt) = insertAfter n (Host.splitLines txt) doc'.
Proof.
  intros Hn Hl E. unfold Host.replaceRange, atEnd, insertAfter. simpl.
  assert (doc' !! n = Some (Host.getLine doc n)) as E' by (by rewrite E; apply lookup_getLine).
  rewrite (getLine_lookup doc' n _ E'), sliceTo_length, slice_length, app_empty_r.
  rewrite splitLines_app_lf by done.
  rewrite (take_S_r doc' n _ E'). by rewrite <-app_assoc.
Qed.

Lemma replaceRange_line doc doc' n txt :
  n < length doc -> singleLine txt = true ->
  doc' !! n = doc !! n ->
  Host.replaceRange doc' (Host.mkResolved (lineStartPosition n) (lineEndPosition doc n) txt)
  = take n doc' ++ [txt] ++ drop (S n) doc'.
Proof.
  intros Hn Hl E. unfold Host.replaceRange. simpl.
  assert (doc' !! n = Some (Host.getLine doc n)) as E' by (by rewrite E; apply lookup_getLine).
  rewrite (getLine_lookup doc' n _ E'), ?sliceTo_0, slice_length, app_empty_r.
  simpl. by rewrite splitLines_single.
Qed.

Lemma replaceRange_delete doc doc' t :
  t < length doc -> linesOK doc = true ->
  (forall i, i <= t -> doc' !! i = doc !! i) ->
  Host.replaceRange doc'
    (Host.mkResolved (if t =? 0 then lineStartPosition 0 else lineEndPosition doc (t - 1))
                     (lineEndPosition doc t) "")
  = removeLine t doc'.
Proof.
  intros Ht Hok E. unfold Host.replaceRange, removeLine.
  assert (doc' !! t = Some (Host.getLine doc t)) as Et
    by (rewrite E by lia; by apply lookup_getLine).
  destruct (t =? 0) eqn:E0; simpl.
  - apply Nat.eqb_eq in E0 as ->.
    by rewrite (getLine_lookup doc' 0 _ Et), ?sliceTo_0, slice_length.
  - apply Nat.eqb_neq in E0.
    assert (doc' !! (t - 1) = Some (Host.getLine doc (t - 1))) as Ep
      by (rewrite E by lia; apply lookup_getLine; lia).
    rewrite (getLine_lookup doc' _ _ Ep), (getLine_lookup doc' _ _ Et).
    rewrite sliceTo_length, slice_length. simpl. rewrite app_empty_r.
    rewrite splitLines_single by (by apply linesOK_getLine).
    pose proof (take_S_r doc' (t - 1) _ Ep) as Htake.
    replace (S (t - 1)) with t in Htake by lia.
    rewrite Htake. by rewrite <-app_assoc.
Qed.

End HostFacts.

Section Transactions.

Implicit Types (doc : list string) (l txt : string) (n t : nat).

#[local] Abbreviation run := (foldr (fun r d => Host.replaceRange d r)).

Lemma insertAfter_nil doc n : insertAfter n [] doc = doc.
Proof. unfold insertAfter. simpl. apply take_drop. Qed.

Lemma insertAfter_lookup doc n X i :
  i <= n -> n < length doc -> insertAfter n X doc !! i = doc !! i.
Proof.
  intros Hi Hn. unfold insertAfter.
  rewrite lookup_app_l by (rewrite length_take; lia).
  apply lookup_take_lt. lia.
Qed.

Lemma insertAfter_twice doc n X Y :
  n < length doc -> insertAfter n X (insertAfter n Y doc) = insertAfter n (X ++ Y) doc.
Proof.
  intros Hn. unfold insertAfter.
  assert (length (take (S n) doc) = S n) as E by (rewrite length_take; lia).
  rewrite take_app_length' by done. rewrite drop_app_length' by done.
  by rewrite <-app_assoc.
Qed.

Lemma length_insertAfter doc n X :
  length (insertAfter n X doc) = length doc + length X.
Proof.
  unfold insertAfter. rewrite !length_app, length_take, length_drop. lia.
Qed.

Lemma sortByFrom_atEnd doc n (texts : list string) :
  Host.sortByFrom (map (atEnd doc n) texts) = map (atEnd doc n) texts.
Proof.
  induction texts as [|x xs IH]; [done |].
  unfold Host.sortByFrom in *. simpl. rewrite IH.
  destruct xs as [|y ys]; [done |]. simpl. by rewrite posLe_refl.
Qed.

Lemma sortByFrom_snoc_first (rs : list Host.Resolved) (r : Host.Resolved) :
  Forall (fun x => Host.posLe (Host.rfrom x) (Host.rfrom r) = false) rs ->
  Host.sortByFrom (rs ++ [r]) = r :: Host.sortByFrom rs.
Proof.
  unfold Host.sortByFrom. induction 1 as [|x rs Hx _ IH]; [done |].
  simpl. by rewrite IH; simpl; rewrite Hx.
Qed.

Lemma run_atEnd doc n (texts : list string) :
  n < length doc -> singleLine (Host.getLine doc n) = true ->
  run doc (map (atEnd doc n) texts)
  = insertAfter n (concat (map Host.splitLines texts)) doc.
Proof.
  intros Hn Hl. induction texts as [|x xs IH]; simpl.
  - by rewrite insertAfter_nil.
  - rewrite IH, (replaceRange_atEnd doc) by (by rewrite ?insertAfter_lookup).
    by apply insertAfter_twice.
Qed.

(** Edits that all append after line [n]. *)
Lemma apply_inserts doc (changes : list EditorChange) n (texts : list string) :
  n < length doc -> linesOK doc = true ->
  map (Host.resolve doc) changes = map (atEnd doc n) texts ->
  Host.applyTransaction doc changes
  = insertAfter n (concat (map Host.splitLines texts)) doc.
Proof.
  intros Hn Hok E. unfold Host.applyTransaction.
  rewrite E, sortByFrom_atEnd. apply run_atEnd; [done |]. by apply linesOK_getLine.
Qed.

Lemma atEnd_after_delete doc n t (x : string) :
  t <= n -> Host.getLine doc t <> "" ->
  Host.posLe (Host.rfrom (atEnd doc n x))
    (if t =? 0 then lineStartPosition 0 else lineEndPosition doc (t - 1)) = false.
Proof.
  intros Htn Hne. unfold Host.posLe. simpl.
  destruct (t =? 0) eqn:E0; simpl.
  - apply Nat.eqb_eq in E0 as ->. destruct n as [|n]; [| done]. simpl.
    destruct (Host.getLine doc 0); done.
  - apply Nat.eqb_neq in E0.
    replace (n <? t - 1) with false by (symmetry; apply Nat.ltb_ge; lia).
    replace (n =? t - 1) with false by (symmetry; apply Nat.eqb_neq; lia). done.
Qed.

(** Edits that all append after line [n], followed by the deletion of a
    line [t] at or above [n]. *)
Lemma apply_inserts_delete doc (changes : list EditorChange) n t (texts : list string) :
  t <= n -> n < length doc -> linesOK doc = true -> Host.getLine doc t <> "" ->
  map (Host.resolve doc) changes = map (atEnd doc n) texts ->
  Host.applyTransaction doc (changes ++ [deleteLine doc t None])
  = removeLine t (insertAfter n (concat (map Host.splitLines texts)) doc).
Proof.
  intros Htn Hn Hok Hne E. unfold Host.applyTransaction.
  rewrite map_app, E. simpl. rewrite resolve_deleteLine by lia.
  rewrite sortByFrom_snoc_first, sortByFrom_atEnd.
  - simpl. rewrite run_atEnd by (by rewrite ?linesOK_getLine).
    apply replaceRange_delete; [lia | done |].
    intros i Hi. apply insertAfter_lookup; lia.
  - apply Forall_forall. intros x [y [-> _]]%list_elem_of_fmap.
    by apply atEnd_after_delete.
Qed.

Lemma apply_replace doc n txt :
  n < length doc -> singleLine txt = true ->
  Host.applyTransaction doc [replaceLine doc n txt] = <[n:=txt]> doc.
Proof.
  intros Hn Hl. unfold Host.applyTransaction. simpl.
  rewrite resolve_replaceLine by done. unfold Host.sortByFrom. simpl.
  rewrite (replaceRange_line doc) by done. symmetry. by apply insert_take_drop.
Qed.

Lemma apply_replace_delete doc n t txt :
  t < n -> n < length doc -> linesOK doc = true -> singleLine txt = true ->
  Host.applyTransaction doc [replaceLine doc n txt; deleteLine doc t None]
  = removeLine t (<[n:=txt]> doc).
Proof.
  intros Htn Hn Hok Hl. unfold Host.applyTransaction. cbn [map].
  rewrite resolve_replaceLine, resolve_deleteLine by lia.
  unfold Host.sortByFrom. cbn [foldr Host.insertByFrom Host.rfrom].
  assert (Host.posLe (lineStartPosition n)
            (if t =? 0 then lineStartPosition 0 else lineEndPosition doc (t - 1)) = false) as ->.
  { unfold Host.posLe. destruct (t =? 0) eqn:E0; simpl.
    - destruct n; [lia | done].
    - apply Nat.eqb_neq in E0.
      replace (n <? t - 1) with false by (symmetry; apply Nat.ltb_ge; lia).
      replace (n =? t - 1) with false by (symmetry; apply Nat.eqb_neq; lia). done. }
  cbn [foldr]. rewrite (replaceRange_line doc) by done.
  change (take n doc ++ [txt] ++ drop (S n) doc) with (take n doc ++ txt :: drop (S n) doc).
  rewrite <-insert_take_drop by done.
  apply replaceRange_delete; [lia | done |].
  intros i Hi. apply list_lookup_insert_ne. lia.
Qed.

End Transactions.

(** ** Rendering a task *)

Section Rendering.

Lemma join_snoc (ls : list string) (l last : string) :
  Js.join (String Js.lf "") (l :: ls) +:+ String Js.lf "" +:+ last
  = Js.join (String Js.lf "") ((l :: ls) ++ [last]).
Proof.
  revert l. induction ls as [|x xs IH]; intros l; [done |].
  change (Js.join (String Js.lf "") (l :: x :: xs))
    with (l +:+ String Js.lf "" +:+ Js.join (String Js.lf "") (x :: xs)).
  change (Js.join (String Js.lf "") ((l :: x :: xs) ++ [last]))
    with (l +:+ String Js.lf "" +:+ Js.join (String Js.lf "") ((x :: xs) ++ [last])).
  by rewrite <-IH, !app_assoc_str.
Qed.

(** The lines of [task.toString(k)]: the parents from [k] on, then the task. *)
Lemma splitLines_toString (t : Task) (k : nat) :
  linesOK (parents t) = true -> singleLine (task t) = true ->
  Host.splitLines (toString t k) = drop k (parents t) ++ [task t].
Proof.
  intros Hps Ht. unfold toString.
  assert (linesOK (drop k (parents t)) = true) as Hd.
  { apply linesOK_Forall, Forall_drop. by apply linesOK_Forall. }
  destruct (drop k (parents t)) as [|p ps]; [by apply splitLines_single |].
  rewrite join_snoc. by apply splitLines_join.
Qed.

Lemma findParents_Forall (P : string -> Prop) (doc : list string) :
  (forall n, isBulletTask doc n = true -> P (Host.getLine doc n)) ->
  forall level above cur acc, Forall P acc -> Forall P (findParents doc level above cur acc).
Proof.
  intros HP. induction level as [|level IH]; intros above cur acc Hacc; simpl; [done |].
  destruct (skipDeeper doc cur above) as [p|]; [| done].
  destruct (isBulletTask doc p) eqn:Hp; [| done].
  destruct (_ =? _); [| done].
  apply IH. constructor; [by apply HP | done].
Qed.

Lemma getTask_Some (doc : list string) (t : nat) :
  isBulletTask doc t = true ->
  getTask doc t =
    Some (newTask (findParents doc (indentLevel doc t) t (indentLevel doc t) [])
            (Host.getLine doc t) []).
Proof. intros H. unfold getTask. by rewrite H. Qed.

Lemma linesOK_parents (doc : list string) (t : nat) (tk : Task) :
  linesOK doc = true -> getTask doc t = Some tk -> linesOK (parents tk) = true.
Proof.
  intros Hok. unfold getTask. destruct (negb _); [done |]. intros [= <-]. simpl.
  apply linesOK_Forall, Forall_fmap.
  eapply Forall_impl.
  - apply (findParents_Forall (fun l => singleLine l = true)); [| done].
    intros n _. by apply linesOK_getLine.
  - intros l Hl. simpl. by apply singleLine_replaceBulletTask.
Qed.

Lemma task_getTask (doc : list string) (t : nat) (tk : Task) :
  getTask doc t = Some tk -> task tk = Host.getLine doc t.
Proof. unfold getTask. destruct (negb _); [done |]. by intros [= <-]. Qed.

Lemma parents_marked (b : bool) (tk : Task) : parents (marked b tk) = parents tk.
Proof. by destruct b. Qed.

Lemma singleLine_marked (b : bool) (tk : Task) :
  singleLine (task tk) = true -> singleLine (task (marked b tk)) = true.
Proof. intros H. destruct b; simpl; by apply singleLine_replaceBulletTask. Qed.

Lemma isBulletTask_lt (doc : list string) (t : nat) :
  isBulletTask doc t = true -> t < length doc.
Proof.
  unfold isBulletTask. intros [Hle Hc]%andb_true_iff.
  destruct (decide (t < length doc)) as [|Hge]; [done |].
  rewrite getLine_ge in Hc by lia. done.
Qed.

Lemma isBulletTask_nonempty (doc : list string) (t : nat) :
  isBulletTask doc t = true -> Host.getLine doc t <> "".
Proof.
  unfold isBulletTask. intros [_ Hc]%andb_true_iff E. by rewrite E in Hc.
Qed.

End Rendering.

(** ** Searching for a heading *)

Section FindLine.

Implicit Types (doc : list string) (x : string).

Lemma findLine_Some doc start x i :
  findLine doc start x = Some i <->
  start <= i /\ doc !! i = Some x /\ forall j, start <= j < i -> doc !! j <> Some x.
Proof.
  unfold findLine. split.
  - intros H. apply fmap_Some in H as [[k y] [Hf ->]]. simpl.
    apply list_find_Some in Hf as (Hk & -> & Hmin).
    rewrite lookup_drop in Hk. split; [lia |]. split; [done |].
    intros j Hj Hx. apply (Hmin (j - start) x); [| lia | done].
    rewrite lookup_drop. by replace (start + (j - start)) with j by lia.
  - intros (Hs & Hi & Hmin). apply fmap_Some. exists (i - start, x). split.
    + apply list_find_Some. rewrite lookup_drop.
      replace (start + (i - start)) with i by lia. split; [done |]. split; [done |].
      intros j y Hy Hj ->. rewrite lookup_drop in Hy. apply (Hmin (start + j)); [lia | done].
    + simpl. lia.
Qed.

Lemma findLine_None doc start x :
  findLine doc start x = None <-> forall j, start <= j -> doc !! j <> Some x.
Proof.
  unfold findLine. rewrite fmap_None, list_find_None, Forall_forall. split.
  - intros H j Hj Hx. apply (H x); [| done].
    apply list_elem_of_lookup. exists (j - start). rewrite lookup_drop.
    by replace (start + (j - start)) with j by lia.
  - intros H y [k Hk]%list_elem_of_lookup ->. rewrite lookup_drop in Hk.
    apply (H (start + k)); [lia | done].
Qed.

Lemma findLine_past_end doc start x : length doc <= start -> findLine doc start x = None.
Proof.
  intros H. apply findLine_None. intros j Hj Hx.
  apply lookup_lt_Some in Hx. lia.
Qed.

(** A search sees only the lines from [start] on. *)
Lemma findLine_ext doc doc' start x :
  (forall j, start <= j -> doc !! j = doc' !! j) ->
  findLine doc start x = findLine doc' start x.
Proof.
  intros E. destruct (findLine doc' start x) as [i|] eqn:H.
  - apply findLine_Some in H as (Hs & Hi & Hmin). apply findLine_Some.
    split; [done |]. split; [by rewrite E |].
    intros j Hj. rewrite E by lia. by apply Hmin.
  - apply findLine_None. intros j Hj. rewrite E by done.
    revert j Hj. by apply findLine_None.
Qed.

End FindLine.

(** ** The command as one transaction *)

Section Command.

Variable now : Date.

Let today := getLocalDateString now.

Lemma archiveTask_run (e : Editor) (b : bool) :
  isBulletTask (lines e) (line (cursor e)) = true ->
  exists tk,
    getTask (lines e) (line (cursor e)) = Some tk /\
    archiveTask now e b =
      Host.setCursor (Host.transaction e (allChanges now (lines e) (line (cursor e)) b tk)) (cursor e).
Proof.
  intros H. rewrite (getTask_Some _ _ H). eexists. split; [done |].
  unfold archiveTask, allChanges, withDeletion. rewrite H, (getTask_Some _ _ H). simpl.
  destruct b; simpl; [done |]. by rewrite app_nil_r.
Qed.

Lemma archiveTask_lines (e : Editor) (b : bool) (tk : Task) :
  isBulletTask (lines e) (line (cursor e)) = true ->
  getTask (lines e) (line (cursor e)) = Some tk ->
  lines (archiveTask now e b) =
    Host.applyTransaction (lines e) (allChanges now (lines e) (line (cursor e)) b tk).
Proof.
  intros H Htk. destruct (archiveTask_run e b H) as (tk' & Htk' & ->).
  rewrite Htk in Htk'. by injection Htk' as <-.
Qed.

End Command.

(** ** A run that has to create the History section *)

Section NewSection.

Variable now : Date.

Let today := getLocalDateString now.

Implicit Types (doc : list string) (t : nat) (tk : Task).

Lemma insertAfter_last doc X :
  doc <> [] -> insertAfter (Host.lastLine doc) X doc = doc ++ X.
Proof.
  intros Hne. unfold insertAfter, Host.lastLine.
  assert (0 < length doc) by (destruct doc; [done | simpl; lia]).
  rewrite take_ge, drop_ge by lia. by rewrite app_nil_r.
Qed.

Lemma removeLine_app doc X t :
  t < length doc -> removeLine t (doc ++ X) = removeLine t doc ++ X.
Proof.
  intros Ht. unfold removeLine. destruct (t =? 0).
  - rewrite drop_app_le by lia. done.
  - rewrite take_app_le, drop_app_le by lia. by rewrite <-app_assoc.
Qed.

Lemma archiveChanges_new_section doc t tk :
  findLine doc (t + 1) "# History" = None ->
  archiveChanges doc today t tk =
    [appendToEnd doc "# History";
     appendAfterLine doc (Host.lineCount doc) ("## " +:+ today);
     appendAfterLine doc (Host.lineCount doc) (toString tk 0)].
Proof.
  intros Hh. unfold archiveChanges. rewrite Hh.
  by rewrite findLine_past_end by (unfold Host.lineCount; lia).
Qed.

Lemma edits_new_section doc t (del : bool) tk :
  linesOK doc = true ->
  isBulletTask doc t = true ->
  linesOK (parents tk) = true -> singleLine (task tk) = true ->
  findLine doc (t + 1) "# History" = None ->
  Host.applyTransaction doc (withDeletion doc t del (archiveChanges doc today t tk))
  = (if del then removeLine t else id) (doc ++ freshArchive now tk).
Proof.
  intros Hok Ht Hps Htask Hh. unfold withDeletion.
  rewrite archiveChanges_new_section by done.
  pose proof (isBulletTask_lt _ _ Ht) as Hlt.
  assert (doc <> []) as Hne by (intros ->; simpl in Hlt; lia).
  set (n := Host.lastLine doc).
  assert (n < length doc) as Hn by (unfold n, Host.lastLine; lia).
  set (texts := ["# History"; "## " +:+ today; toString tk 0]).
  assert (map (Host.resolve doc)
            [appendToEnd doc "# History";
             appendAfterLine doc (Host.lineCount doc) ("## " +:+ today);
             appendAfterLine doc (Host.lineCount doc) (toString tk 0)]
          = map (atEnd doc n) texts) as E.
  { cbn [map]. unfold appendToEnd.
    by rewrite resolve_appendAfterLine, !resolve_appendAfterLine_ge by (by unfold Host.lineCount). }
  assert (concat (map Host.splitLines texts) = freshArchive now tk) as EX.
  { unfold texts, freshArchive. cbn [map concat].
    rewrite (splitLines_single "# History") by done.
    rewrite (splitLines_single ("## " +:+ today)) by apply singleLine_heading.
    rewrite splitLines_toString by done. by rewrite app_nil_r. }
  destruct del.
  - rewrite (apply_inserts_delete doc _ n t texts); try done.
    + rewrite EX. unfold n. by rewrite insertAfter_last.
    + unfold n, Host.lastLine. lia.
    + by apply isBulletTask_nonempty.
  - rewrite app_nil_r, (apply_inserts doc _ n texts) by done.
    rewrite EX. unfold n. by rewrite insertAfter_last.
Qed.

Lemma marked_ok doc t b tk :
  linesOK doc = true -> getTask doc t = Some tk ->
  linesOK (parents (marked b tk)) = true /\ singleLine (task (marked b tk)) = true.
Proof.
  intros Hok Htk. split.
  - rewrite parents_marked. by eapply linesOK_parents.
  - apply singleLine_marked. rewrite (task_getTask _ _ _ Htk). by apply linesOK_getLine.
Qed.

Lemma run_new_section doc t b tk :
  linesOK doc = true ->
  isBulletTask doc t = true ->
  getTask doc t = Some tk ->
  findLine doc (t + 1) "# History" = None ->
  Host.applyTransaction doc (allChanges now doc t b tk)
  = (if b then removeLine t doc else doc) ++ freshArchive now (marked b tk).
Proof.
  intros Hok Ht Htk Hh. destruct (marked_ok doc t b tk Hok Htk) as [H1 H2].
  unfold allChanges. fold today.
  rewrite (edits_new_section doc t b (marked b tk)) by done.
  destruct b; [| done]. apply removeLine_app. by apply isBulletTask_lt.
Qed.

End NewSection.

(** ** Counting headings *)

Section Counting.

Implicit Types (doc : list string) (x : string).

Lemma countLines_app x doc doc' :
  countLines x (doc ++ doc') = countLines x doc + countLines x doc'.
Proof. unfold countLines. by rewrite filter_app, length_app. Qed.

Lemma countLines_cons x l doc :
  countLines x (l :: doc) = (if decide (l = x) then 1 else 0) + countLines x doc.
Proof. unfold countLines. rewrite filter_cons. by destruct (decide (l = x)). Qed.

Lemma countLines_none x doc : (forall j, doc !! j <> Some x) -> countLines x doc = 0.
Proof.
  induction doc as [|l doc IH]; intros H; [done |].
  rewrite countLines_cons, IH.
  - destruct (decide (l = x)) as [->|]; [| done]. by destruct (H 0).
  - intros j. apply (H (S j)).
Qed.

Lemma countLines_unique x doc h :
  doc !! h = Some x -> (forall j, doc !! j = Some x -> j = h) -> countLines x doc = 1.
Proof.
  revert h. induction doc as [|l doc IH]; intros h Hh Hu; [done |].
  rewrite countLines_cons. destruct h as [|h]; simpl in Hh.
  - injection Hh as ->. rewrite decide_True by done.
    rewrite countLines_none; [done |]. intros j Hj. by specialize (Hu (S j) Hj).
  - rewrite decide_False by (intros ->; by specialize (Hu 0 eq_refl)).
    apply (IH h Hh). intros j Hj. specialize (Hu (S j) Hj). lia.
Qed.

Lemma countLines_absent x (ls : list string) :
  Forall (fun l => l <> x) ls -> countLines x ls = 0.
Proof.
  induction 1 as [|l ls Hl _ IH]; [done |].
  by rewrite countLines_cons, IH, decide_False.
Qed.

End Counting.

Section ArchivedLines.

Implicit Types (doc : list string) (t : nat) (tk : Task).

Lemma parents_show_bullet doc t tk :
  getTask doc t = Some tk -> Forall (fun p => Js.contains p "- " = true) (parents tk).
Proof.
  unfold getTask. destruct (negb _); [done |]. intros [= <-]. simpl.
  apply Forall_fmap. eapply Forall_impl.
  - apply (findParents_Forall
             (fun l => Js.contains l "- [ ] " || Js.contains l "- [x] " = true)); [| done].
    intros n Hn. unfold isBulletTask in Hn. by apply andb_true_iff in Hn as [_ Hn].
  - intros l Hl. by apply contains_bullet_bare.
Qed.

Lemma task_line_shows_bullet doc t :
  isBulletTask doc t = true -> Js.contains (Host.getLine doc t) "- " = true.
Proof.
  unfold isBulletTask. intros [_ [H|H]%orb_true_iff]%andb_true_iff.
  - by apply (contains_shorter _ "- " "[ ] ").
  - by apply (contains_shorter _ "- " "[x] ").
Qed.

Lemma marked_shows_bullet doc t tk b :
  isBulletTask doc t = true -> getTask doc t = Some tk ->
  Js.contains (task (marked b tk)) "- " = true.
Proof.
  intros Ht Htk. pose proof (task_line_shows_bullet _ _ Ht) as H.
  rewrite <-(task_getTask _ _ _ Htk) in H.
  destruct b; simpl; by apply contains_bullet_replaced.
Qed.

End ArchivedLines.

(** ** The ancestor chain, in the words of the spec *)

Section Ancestors.

Variable doc : list string.

Lemma skipDeeper_Some cur above p :
  skipDeeper doc cur above = Some p ->
  p < above /\ indentLevel doc p < cur /\ forall i, p < i < above -> cur <= indentLevel doc i.
Proof.
  induction above as [|n IH]; simpl; [done |].
  destruct (cur <=? indentLevel doc n) eqn:E.
  - apply Nat.leb_le in E. intros H. destruct (IH H) as (H1 & H2 & H3).
    split; [lia |]. split; [done |]. intros i Hi.
    destruct (decide (i = n)) as [->|]; [done | apply H3; lia].
  - apply Nat.leb_gt in E. intros [= <-]. split; [lia |]. split; [done |]. lia.
Qed.

Lemma skipDeeper_None cur above :
  skipDeeper doc cur above = None -> forall i, i < above -> cur <= indentLevel doc i.
Proof.
  induction above as [|n IH]; simpl; [lia |].
  destruct (cur <=? indentLevel doc n) eqn:E; [| done].
  apply Nat.leb_le in E. intros H i Hi.
  destruct (decide (i = n)) as [->|]; [done | apply IH; [done | lia]].
Qed.

Lemma skipDeeper_S cur c :
  cur <= indentLevel doc c -> skipDeeper doc cur (S c) = skipDeeper doc cur c.
Proof. intros H. simpl. by apply Nat.leb_le in H as ->. Qed.

Lemma findParents_S level c cur acc :
  cur <= indentLevel doc c ->
  findParents doc level (S c) cur acc = findParents doc level c cur acc.
Proof. intros H. destruct level; [done |]. cbn [findParents]. by rewrite skipDeeper_S. Qed.

Lemma findParents_ancestors level :
  forall c acc,
    indentLevel doc c = level ->
    exists js,
      findParents doc level c level acc = map (Host.getLine doc) js ++ acc /\
      ancestors doc c js.
Proof.
  induction level as [|level IH]; intros c acc Hc.
  - exists []. split; [done |]. apply ancestors_stop. by left.
  - cbn [findParents].
    destruct (skipDeeper doc (S level) c) as [p|] eqn:Hs.
    + apply skipDeeper_Some in Hs as (H1 & H2 & H3).
      assert (nearestShallower doc c p) as Hnear by (unfold nearestShallower; by rewrite Hc).
      destruct (isBulletTask doc p) eqn:Hp; simpl.
      * destruct (indentLevel doc p =? level) eqn:El.
        -- apply Nat.eqb_eq in El.
           destruct (IH p (Host.getLine doc p :: acc) El) as (js & Hjs & Hanc).
           exists (js ++ [p]). split.
           ++ rewrite findParents_S by lia. rewrite Hjs, map_app. simpl.
              by rewrite <-app_assoc.
           ++ apply ancestors_step; try done. lia.
        -- apply Nat.eqb_neq in El. exists []. split; [done |].
           apply ancestors_stop. right. right. exists p. split; [done |]. right. lia.
      * exists []. split; [done |].
        apply ancestors_stop. right. right. exists p. split; [done |]. by left.
    + exists []. split; [done |]. apply ancestors_stop. right. left.
      intros i Hi. rewrite Hc. by eapply skipDeeper_None.
Qed.

(** What the chain looks like, read from the outermost ancestor inwards. *)
Lemma ancestors_shape c js :
  ancestors doc c js ->
  (forall i j, js !! i = Some j ->
     j < c /\ isBulletTask doc j = true /\
     indentLevel doc j + (length js - i) = indentLevel doc c /\
     nearestShallower doc (default c (js !! S i)) j) /\
  (forall i i' j j', i < i' -> js !! i = Some j -> js !! i' = Some j' -> j < j').
Proof.
  induction 1 as [c Hstop | c p js Hnear Hp Hind Hanc [IH1 IH2]].
  - split; [intros i j Hi | intros i i' j j' _ Hi]; by rewrite lookup_nil in Hi.
  - assert (p < c) as Hpc by apply Hnear.
    split.
    + intros i j Hi. rewrite length_app. simpl.
      destruct (decide (i < length js)) as [Hlt|Hge].
      * rewrite lookup_app_l in Hi by done.
        destruct (IH1 i j Hi) as (H1 & H2 & H3 & H4).
        split; [lia |]. split; [done |]. split; [lia |].
        destruct (decide (S i < length js)) as [Hs|Hs].
        -- rewrite lookup_app_l by done.
           destruct (lookup_lt_is_Some_2 js (S i) Hs) as [x Hx]. by rewrite Hx in *.
        -- rewrite lookup_app_r by lia. replace (S i - length js) with 0 by lia. simpl.
           by rewrite lookup_ge_None_2 in H4 by lia.
      * rewrite lookup_app_r in Hi by lia.
        destruct (i - length js) as [|k] eqn:Ek; simpl in Hi; [| by rewrite lookup_nil in Hi].
        injection Hi as <-. split; [done |]. split; [done |]. split; [lia |].
        rewrite lookup_ge_None_2 by (rewrite length_app; simpl; lia). done.
    + intros i i' j j' Hii Hi Hi'.
      destruct (decide (i' < length js)) as [Hlt|Hge].
      * rewrite lookup_app_l in Hi by lia. rewrite lookup_app_l in Hi' by lia.
        exact (IH2 i i' j j' Hii Hi Hi').
      * rewrite lookup_app_r in Hi' by lia.
        destruct (i' - length js) as [|k] eqn:Ek; simpl in Hi'; [| by rewrite lookup_nil in Hi'].
        injection Hi' as <-.
        rewrite lookup_app_l in Hi by lia. by destruct (IH1 i j Hi) as (H1 & _).
Qed.

(** A chain shorter than the task's depth ends where the scan stopped. *)
Lemma ancestors_truncated c js :
  ancestors doc c js ->
  length js < indentLevel doc c ->
  resolutionStops doc (default c (head js)) /\ 0 < indentLevel doc (default c (head js)).
Proof.
  induction 1 as [c Hstop | c p js Hnear Hp Hind Hanc IH]; intros Hshort.
  - simpl in *. split; [done | lia].
  - rewrite length_app in Hshort. simpl in Hshort.
    destruct js as [|j js'].
    + simpl in *. inversion Hanc as [c' Hstop' | c' p' js' _ _ _ _ E]; [| by destruct js'].
      split; [done | lia].
    + simpl in *. apply IH. lia.
Qed.

End Ancestors.

(** ** The loops of the archive walk *)

Section Loops.

Lemma firstFalse_unique cond s r r' :
  firstFalse cond s r -> firstFalse cond s r' -> r = r'.
Proof.
  intros (H1 & H2 & H3) (H1' & H2' & H3').
  destruct (Nat.lt_trichotomy r r') as [Hlt|[->|Hgt]]; [| done |].
  - rewrite H2' in H3 by lia. done.
  - rewrite H2 in H3' by lia. done.
Qed.

(** With fuel for every number below [bound], and [cond] false from [bound]
    on, the loop stops at the first failure: it does not run out of fuel. *)
Lemma advanceWhile_firstFalse cond bound fuel s :
  (forall i, cond i = true -> i < bound) ->
  bound <= s + fuel ->
  firstFalse cond s (advanceWhile cond fuel s).
Proof.
  intros Hb. revert s. induction fuel as [|fuel IH]; intros s Hf; simpl.
  - split; [done |]. split; [lia |].
    destruct (cond s) eqn:E; [| done]. apply Hb in E. lia.
  - destruct (cond s) eqn:E.
    + destruct (IH (S s)) as (H1 & H2 & H3); [lia |].
      split; [lia |]. split; [| done].
      intros i Hi. destruct (decide (i = s)) as [->|]; [done | apply H2; lia].
    + split; [done |]. split; [lia | done].
Qed.

Lemma advanceWhile_eq cond bound fuel s r :
  (forall i, cond i = true -> i < bound) ->
  bound <= s + fuel ->
  firstFalse cond s r ->
  advanceWhile cond fuel s = r.
Proof.
  intros Hb Hf Hr. eapply firstFalse_unique; [| done].
  by eapply advanceWhile_firstFalse.
Qed.

Lemma firstFalse_ext cond cond' s r :
  (forall i, s <= i <= r -> cond' i = cond i) ->
  firstFalse cond s r -> firstFalse cond' s r.
Proof.
  intros E (H1 & H2 & H3). split; [done |]. split.
  - intros i Hi. rewrite E by lia. by apply H2.
  - by rewrite E by lia.
Qed.

End Loops.

Section WalkFacts.

Variable doc : list string.

Lemma isArchiveTask_lt n : isArchiveTask doc n = true -> n < length doc.
Proof.
  unfold isArchiveTask, isBullet. intros [[_ H]%andb_true_iff | H]%orb_true_iff.
  - destruct (decide (n < length doc)); [done |]. by rewrite getLine_ge in H by lia.
  - by apply isBulletTask_lt.
Qed.

Lemma isArchiveTask_bullet n l :
  doc !! n = Some l -> Js.contains l "- " = true -> isArchiveTask doc n = true.
Proof.
  intros Hn Hl. unfold isArchiveTask, isBullet.
  rewrite (getLine_lookup _ _ _ Hn), Hl.
  apply lookup_lt_Some in Hn. unfold Host.lastLine.
  replace (n <=? length doc - 1) with true by (symmetry; apply Nat.leb_le; lia). done.
Qed.

Lemma notYetParent_lt parent lvl n : notYetParent doc parent lvl n = true -> n < length doc.
Proof. unfold notYetParent. intros [H _]%andb_true_iff. by apply isArchiveTask_lt. Qed.

(** The number the loop over the siblings of a parent stops at. *)
Lemma parentLoop_firstFalse parent lvl s :
  firstFalse (notYetParent doc parent lvl) s
    (advanceWhile (notYetParent doc parent lvl) (Host.lineCount doc) s).
Proof.
  apply (advanceWhile_firstFalse _ (length doc)).
  - intros i. apply notYetParent_lt.
  - unfold Host.lineCount. lia.
Qed.

Lemma endOfList_firstFalse t lvl s :
  firstFalse (listGoesOn doc t lvl) s (endOfList doc t lvl s).
Proof.
  apply (advanceWhile_firstFalse _ (length doc)).
  - intros i. unfold listGoesOn. intros [[H _]%andb_true_iff _]%andb_true_iff.
    by apply isArchiveTask_lt.
  - unfold Host.lineCount. lia.
Qed.

End WalkFacts.

Section MatchParents.

Variable doc : list string.

(** One round of the loop over the parents: it either gives up at the line
    the sibling loop stopped at, or has found the parent there and goes on
    below it, one level deeper.  The third branch of the source, going on
    without having matched, is never taken. *)
Lemma matchParents_cons p ps s lvl :
  let n1 := advanceWhile (notYetParent doc p lvl) (Host.lineCount doc) s in
  firstFalse (notYetParent doc p lvl) s n1 /\
  (((isArchiveTask doc n1 = false \/ indentLevel doc n1 < lvl) /\
    matchParents doc (p :: ps) s lvl = (n1, lvl))
   \/
   (isArchiveTask doc n1 = true /\ indentLevel doc n1 = lvl /\
    isSameTask (Host.getLine doc n1) p = true /\
    matchParents doc (p :: ps) s lvl = matchParents doc ps (S n1) (S lvl))).
Proof.
  intros n1. pose proof (parentLoop_firstFalse doc p lvl s) as Hff. fold n1 in Hff.
  split; [done |]. destruct Hff as (_ & _ & Hstop).
  cbn [matchParents]. fold n1. unfold notYetParent in Hstop.
  destruct (isArchiveTask doc n1) eqn:Ha; simpl in *.
  - destruct (indentLevel doc n1 <? lvl) eqn:Hlt.
    + left. apply Nat.ltb_lt in Hlt. by split; [right |].
    + right. apply Nat.ltb_ge in Hlt.
      destruct (lvl <? indentLevel doc n1) eqn:Hgt; simpl in Hstop; [done |].
      apply Nat.ltb_ge in Hgt.
      assert (indentLevel doc n1 = lvl) as E by lia.
      rewrite E, Nat.eqb_refl in *. simpl in *.
      apply negb_false_iff in Hstop. by rewrite Hstop.
  - left. by split; [left |].
Qed.

Lemma matchParents_bounds ps :
  forall s lvl n c,
    matchParents doc ps s lvl = (n, c) ->
    s <= length doc ->
    lvl <= c <= lvl + length ps /\ s <= n <= length doc.
Proof.
  induction ps as [|p ps IH]; intros s lvl n c H Hs.
  - injection H as <- <-. simpl. lia.
  - destruct (matchParents_cons p ps s lvl) as [(Hs1 & Hrun & _) [[_ E]|(Ha & _ & _ & E)]];
      rewrite E in H.
    + injection H as <- <-. simpl. split; [lia |]. split; [done |].
      set (n1 := advanceWhile _ _ _) in *.
      destruct (decide (n1 = s)) as [->|]; [done |].
      assert (notYetParent doc p lvl (n1 - 1) = true) as Hc by (apply Hrun; lia).
      apply notYetParent_lt in Hc. lia.
    + apply isArchiveTask_lt in Ha.
      apply IH in H as (H1 & H2); [| lia]. simpl. lia.
Qed.

Lemma wellIndented_tail p ps lvl : wellIndented (p :: ps) lvl -> wellIndented ps (S lvl).
Proof.
  intros H k q Hq. destruct (H (S k) q Hq) as [H1 H2]. split; [lia | done].
Qed.

(** The walk goes straight through a block that holds exactly the parents. *)
Lemma matchParents_block ps :
  forall s lvl,
    (forall k p, ps !! k = Some p -> doc !! (s + k) = Some p) ->
    wellIndented ps lvl ->
    matchParents doc ps s lvl = (s + length ps, lvl + length ps).
Proof.
  induction ps as [|p ps IH]; intros s lvl Hblock Hwi.
  - simpl. f_equal; lia.
  - assert (doc !! s = Some p) as Hs
      by (specialize (Hblock 0 p eq_refl); by rewrite Nat.add_0_r in Hblock).
    destruct (Hwi 0 p eq_refl) as [Hind Hb]. rewrite Nat.add_0_r in Hind.
    assert (notYetParent doc p lvl s = false) as Hstop.
    { unfold notYetParent, indentLevel. rewrite (getLine_lookup _ _ _ Hs), Hind.
      rewrite Nat.ltb_irrefl, Nat.eqb_refl. unfold isSameTask.
      rewrite String.eqb_refl. simpl. apply andb_false_r. }
    destruct (matchParents_cons p ps s lvl) as [Hff Hcases].
    assert (advanceWhile (notYetParent doc p lvl) (Host.lineCount doc) s = s) as En.
    { eapply firstFalse_unique; [done |]. split; [done |]. split; [lia | done]. }
    rewrite En in Hcases.
    assert (isArchiveTask doc s = true) as Ha by (by eapply isArchiveTask_bullet).
    destruct Hcases as [[[Hna|Hlt] _]|(_ & _ & _ & E)].
    + congruence.
    + unfold indentLevel in Hlt. rewrite (getLine_lookup _ _ _ Hs) in Hlt. lia.
    + rewrite E, IH.
      * simpl. f_equal; lia.
      * intros k q Hq. specialize (Hblock (S k) q Hq).
        by replace (S s + k) with (s + S k) by lia.
      * by eapply wellIndented_tail.
Qed.

(** Where the walk stands when the loop over the parents ends: below the last
    parent it matched, past archived lines of the depth reached or deeper;
    and when a parent was not found, at the end of that list. *)
Lemma matchParents_run ps :
  forall s0 lvl n c,
    matchParents doc ps s0 lvl = (n, c) ->
    exists s,
      s0 <= s <= n /\
      ((c = lvl /\ s = s0) \/
       (lvl < c /\ s0 < s /\ isArchiveTask doc (s - 1) = true /\
        indentLevel doc (s - 1) = c - 1 /\
        exists p, ps !! (c - 1 - lvl) = Some p /\ isSameTask (Host.getLine doc (s - 1)) p = true)) /\
      (forall i, s <= i < n -> isArchiveTask doc i = true /\ c <= indentLevel doc i) /\
      (c < lvl + length ps -> ~ (isArchiveTask doc n = true /\ c <= indentLevel doc n)).
Proof.
  induction ps as [|p ps IH]; intros s0 lvl n c H.
  - injection H as <- <-. exists s0. split; [lia |]. split; [by left |].
    split; [lia | simpl; lia].
  - destruct (matchParents_cons p ps s0 lvl)
      as [(Hs1 & Hrun & Hstop) [[Hbreak E]|(Ha & Hind & Hsame & E)]]; rewrite E in H.
    + injection H as <- <-. set (n1 := advanceWhile _ _ _) in *.
      exists s0. split; [lia |]. split; [by left |]. split.
      * intros i Hi. specialize (Hrun i Hi). unfold notYetParent in Hrun.
        apply andb_true_iff in Hrun as [Hai Hrest]. split; [done |].
        apply orb_true_iff in Hrest as [Hlt|[Heq _]%andb_true_iff].
        -- apply Nat.ltb_lt in Hlt. lia.
        -- apply Nat.eqb_eq in Heq. lia.
      * intros _ [Ha Hle]. destruct Hbreak as [Hna|Hlt]; [congruence | lia].
    + set (n1 := advanceWhile _ _ _) in *.
      destruct (IH _ _ _ _ H) as (s & Hs & Hcase & Hlist & Hend).
      exists s. split; [lia |]. split; [| split; [done |]].
      * right. destruct Hcase as [[-> ->]|(Hlt & Hss & Has & His & q & Hq & Hsq)].
        -- split; [lia |]. split; [lia |]. replace (S n1 - 1) with n1 by lia.
           split; [done |]. split; [lia |]. exists p.
           replace (S lvl - 1 - lvl) with 0 by lia. done.
        -- split; [lia |]. split; [lia |]. split; [done |]. split; [done |].
           exists q. replace (c - 1 - lvl) with (S (c - 1 - S lvl)) by lia. done.
      * intros Hc. apply Hend. simpl in Hc. lia.
Qed.

End MatchParents.

(** ** A run that finds today's subsection *)

Section Found.

Variable doc : list string.

Implicit Types (t h T L c : nat) (tk : Task).

Lemma archiveChanges_found today t tk h T L c :
  findLine doc (t + 1) "# History" = Some h ->
  findLine doc (h + 1) ("## " +:+ today) = Some T ->
  locate doc T tk = (L, c) ->
  archiveChanges doc today t tk =
    if isTheTask doc (task tk) c L
    then [replaceLine doc L (task tk)]
    else [appendAfterLine doc (L - 1) (toString tk c)].
Proof.
  intros Hh HT Hloc. unfold archiveChanges. rewrite Hh, HT.
  unfold locate in Hloc. destruct (matchParents _ _ _ _) as [n c'].
  injection Hloc as <- <-. by destruct (isTheTask _ _ _ _).
Qed.

(** The walk never leaves the document and ends below today's heading. *)
Lemma locate_bounds T tk L c :
  T < length doc -> locate doc T tk = (L, c) ->
  T < L <= length doc /\ c <= length (parents tk).
Proof.
  intros HT Hloc. unfold locate in Hloc.
  destruct (matchParents _ _ _ _) as [n c'] eqn:Hm. injection Hloc as <- <-.
  apply matchParents_bounds in Hm as (H1 & H2); [| lia].
  destruct (endOfList_firstFalse doc (task tk) c' n) as (H3 & H4 & _).
  set (L := endOfList _ _ _ _) in *. split; [| lia]. split; [lia |].
  destruct (decide (L = n)) as [->|]; [lia |].
  assert (listGoesOn doc (task tk) c' (L - 1) = true) as Hc by (apply H4; lia).
  unfold listGoesOn in Hc. apply andb_true_iff in Hc as [[Hc _]%andb_true_iff _].
  apply isArchiveTask_lt in Hc. lia.
Qed.

(** The list the new entry is appended to: from below the last matched
    parent (or today's heading) to the line the walk ends at, every line is
    an archived line at least as deep as the depth reached, and the line the
    walk ends at is not. *)
Lemma locate_run T tk L c :
  locate doc T tk = (L, c) ->
  isTheTask doc (task tk) c L = false ->
  exists s,
    T < s <= L /\
    ((c = 0 /\ s = T + 1) \/
     (0 < c /\ isArchiveTask doc (s - 1) = true /\ indentLevel doc (s - 1) = c - 1 /\
      exists p, parents tk !! (c - 1) = Some p /\
                isSameTask (Host.getLine doc (s - 1)) p = true)) /\
    (forall i, s <= i < L -> isArchiveTask doc i = true /\ c <= indentLevel doc i) /\
    ~ (isArchiveTask doc L = true /\ c <= indentLevel doc L).
Proof.
  intros Hloc Hnot. unfold locate in Hloc.
  destruct (matchParents _ _ _ _) as [n c'] eqn:Hm. injection Hloc as HL <-.
  destruct (matchParents_run doc _ _ _ _ _ Hm) as (s & Hs & Hcase & Hlist & _).
  destruct (endOfList_firstFalse doc (task tk) c' n) as (H3 & H4 & H5).
  rewrite HL in *. exists s. split; [lia |]. split; [| split].
  - destruct Hcase as [[-> ->]|(Hlt & Hss & Ha & Hi & p & Hp & Hsame)]; [by left | right].
    split; [done |]. split; [done |]. split; [done |]. exists p.
    by rewrite Nat.sub_0_r in Hp.
  - intros i Hi. destruct (decide (i < n)) as [Hin|Hin]; [apply Hlist; lia |].
    assert (listGoesOn doc (task tk) c' i = true) as Hc by (apply H4; lia).
    unfold listGoesOn in Hc. apply andb_true_iff in Hc as [[Hc Hle]%andb_true_iff _].
    split; [done |]. by apply Nat.leb_le.
  - intros [Ha Hle]. unfold listGoesOn in H5.
    apply Nat.leb_le in Hle. by rewrite Ha, Hle, Hnot in H5.
Qed.

End Found.

(** ** Reading the same lines from two documents *)

Section Agreement.

Variables doc doc' : list string.

(** Line [n] of the one document is line [n'] of the other. *)
Lemma getLine_at n n' : doc !! n = doc' !! n' -> Host.getLine doc n = Host.getLine doc' n'.
Proof. unfold Host.getLine. by intros ->. Qed.

Lemma indentLevel_at n n' : doc !! n = doc' !! n' -> indentLevel doc n = indentLevel doc' n'.
Proof. unfold indentLevel. by intros ->%getLine_at. Qed.

Lemma inRange_at n n' :
  doc !! n = doc' !! n' ->
  Host.getLine doc n <> "" ->
  (n <=? Host.lastLine doc) = (n' <=? Host.lastLine doc').
Proof.
  intros E Hne. destruct (doc !! n) as [l|] eqn:Hl.
  - symmetry in E. apply lookup_lt_Some in Hl, E. unfold Host.lastLine.
    replace (n <=? length doc - 1) with true by (symmetry; apply Nat.leb_le; lia).
    symmetry. apply Nat.leb_le. lia.
  - unfold Host.getLine in Hne. by rewrite Hl in Hne.
Qed.

Lemma isBullet_at n n' : doc !! n = doc' !! n' -> isBullet doc n = isBullet doc' n'.
Proof.
  intros E. unfold isBullet. rewrite <-(getLine_at n n' E).
  destruct (decide (Host.getLine doc n = "")) as [->|Hne].
  - by rewrite !andb_false_r.
  - by rewrite (inRange_at n n' E Hne).
Qed.

Lemma isBulletTask_at n n' : doc !! n = doc' !! n' -> isBulletTask doc n = isBulletTask doc' n'.
Proof.
  intros E. unfold isBulletTask. rewrite <-(getLine_at n n' E).
  destruct (decide (Host.getLine doc n = "")) as [->|Hne].
  - by rewrite !andb_false_r.
  - by rewrite (inRange_at n n' E Hne).
Qed.

Lemma isArchiveTask_at n n' :
  doc !! n = doc' !! n' -> isArchiveTask doc n = isArchiveTask doc' n'.
Proof.
  intros E. unfold isArchiveTask. by rewrite (isBullet_at n n' E), (isBulletTask_at n n' E).
Qed.

Lemma isTheTask_at t c n n' :
  doc !! n = doc' !! n' -> isTheTask doc t c n = isTheTask doc' t c n'.
Proof. intros E. unfold isTheTask. by rewrite (indentLevel_at n n' E), (getLine_at n n' E). Qed.

Lemma notYetParent_at p c n n' :
  doc !! n = doc' !! n' -> notYetParent doc p c n = notYetParent doc' p c n'.
Proof.
  intros E. unfold notYetParent.
  by rewrite (isArchiveTask_at n n' E), (indentLevel_at n n' E), (getLine_at n n' E).
Qed.

Lemma listGoesOn_at t c n n' :
  doc !! n = doc' !! n' -> listGoesOn doc t c n = listGoesOn doc' t c n'.
Proof.
  intros E. unfold listGoesOn.
  by rewrite (isArchiveTask_at n n' E), (indentLevel_at n n' E), (isTheTask_at t c n n' E).
Qed.

Lemma getLine_ext n : doc !! n = doc' !! n -> Host.getLine doc n = Host.getLine doc' n.
Proof. apply getLine_at. Qed.

Lemma indentLevel_ext n : doc !! n = doc' !! n -> indentLevel doc n = indentLevel doc' n.
Proof. apply indentLevel_at. Qed.

Lemma isBulletTask_ext n : doc !! n = doc' !! n -> isBulletTask doc n = isBulletTask doc' n.
Proof. apply isBulletTask_at. Qed.

Lemma isArchiveTask_ext n : doc !! n = doc' !! n -> isArchiveTask doc n = isArchiveTask doc' n.
Proof. apply isArchiveTask_at. Qed.

Lemma notYetParent_ext p c n :
  doc !! n = doc' !! n -> notYetParent doc p c n = notYetParent doc' p c n.
Proof. apply notYetParent_at. Qed.

Lemma listGoesOn_ext t c n :
  doc !! n = doc' !! n -> listGoesOn doc t c n = listGoesOn doc' t c n.
Proof. apply listGoesOn_at. Qed.

Lemma skipDeeper_ext cur above :
  (forall i, i < above -> doc !! i = doc' !! i) ->
  skipDeeper doc cur above = skipDeeper doc' cur above.
Proof.
  induction above as [|n IH]; intros E; simpl; [done |].
  rewrite (indentLevel_ext n) by (apply E; lia).
  rewrite IH; [done |]. intros i Hi. apply E. lia.
Qed.

(** The parents of a line depend on the lines above it only. *)
Lemma findParents_ext level :
  forall above cur acc,
    (forall i, i < above -> doc !! i = doc' !! i) ->
    findParents doc level above cur acc = findParents doc' level above cur acc.
Proof.
  induction level as [|level IH]; intros above cur acc E; [done |].
  cbn [findParents]. rewrite (skipDeeper_ext cur above E).
  destruct (skipDeeper doc' cur above) as [p|] eqn:Hs; [| done].
  apply skipDeeper_Some in Hs as (Hp & _).
  rewrite (isBulletTask_ext p), (indentLevel_ext p), (getLine_ext p) by (apply E; lia).
  destruct (_ && _); [| done].
  apply IH. intros i Hi. apply E. lia.
Qed.

Lemma getTask_ext t :
  (forall i, i <= t -> doc !! i = doc' !! i) -> getTask doc t = getTask doc' t.
Proof.
  intros E. unfold getTask.
  rewrite (isBulletTask_ext t), (indentLevel_ext t), (getLine_ext t) by (apply E; lia).
  destruct (negb _); [done |].
  rewrite (findParents_ext _ t); [done |]. intros i Hi. apply E. lia.
Qed.

End Agreement.

(** ** What normalization leaves of a bullet *)

Section Trimmed.

Lemma trimEnd_allSpace (s : string) : Js.trimEnd s = "" -> allSpace s = true.
Proof.
  induction s as [|c s IH]; [done |]. simpl.
  destruct (Js.trimEnd s) as [|d r]; [| done].
  destruct (Js.isWhiteSpace c); [| done]. intros _. by rewrite IH.
Qed.

Lemma trimEnd_no_space (s : string) : endsWithSpace (Js.trimEnd s) = false.
Proof.
  induction s as [|c s IH]; [done |]. simpl.
  destruct (Js.trimEnd s) as [|d r].
  - by destruct (Js.isWhiteSpace c) eqn:E.
  - done.
Qed.

Lemma trimStart_allSpace (s : string) : allSpace (Js.trimStart s) = true -> allSpace s = true.
Proof.
  induction s as [|c s IH]; [done |]. simpl.
  destruct (Js.isWhiteSpace c) eqn:E; simpl; [done |]. by rewrite E.
Qed.

Lemma allSpace_no_bullet (s : string) : allSpace s = true -> Js.contains s "- " = false.
Proof.
  induction s as [|c s IH]; [done |]. simpl allSpace.
  intros [Hc Hs]%andb_true_iff. rewrite contains_cons, (IH Hs).
  by rewrite startsWith_space_dash.
Qed.

Lemma trim_bullet_nonempty (s : string) : Js.contains s "- " = true -> Js.trim s <> "".
Proof.
  intros H E. unfold Js.trim in E.
  apply trimEnd_allSpace, trimStart_allSpace, allSpace_no_bullet in E. congruence.
Qed.

(** A line that shows a bullet never normalizes to the empty text. *)
Lemma stripTask_nonempty (s : string) : Js.contains s "- " = true -> stripTask s <> "".
Proof.
  intros H E. pose proof (trim_bullet_nonempty s H) as Hne.
  pose proof (trimEnd_no_space (Js.trimStart s)) as Hend. fold (Js.trim s) in Hend.
  unfold stripTask, patterns, stripFirst in E.
  destruct (Js.startsWith (Js.trim s) "- [ ] ") eqn:E1.
  { apply startsWith_split in E1. rewrite E, app_empty_r in E1. by rewrite E1 in Hend. }
  destruct (Js.startsWith (Js.trim s) "- [x] ") eqn:E2.
  { apply startsWith_split in E2. rewrite E, app_empty_r in E2. by rewrite E2 in Hend. }
  destruct (Js.startsWith (Js.trim s) "- ") eqn:E3.
  { apply startsWith_split in E3. rewrite E, app_empty_r in E3. by rewrite E3 in Hend. }
  done.
Qed.

Lemma not_same_as_empty (s : string) :
  Js.contains s "- " = true -> isSameTask "" s = false.
Proof.
  intros H. unfold isSameTask. apply String.eqb_neq. intros E.
  by apply (stripTask_nonempty s H).
Qed.

End Trimmed.

Section RunFound.

Variable now : Date.

Let today := getLocalDateString now.

Implicit Types (doc : list string) (t h T L c : nat) (tk : Task).

Lemma found_order doc t h T :
  findLine doc (t + 1) "# History" = Some h ->
  findLine doc (h + 1) ("## " +:+ today) = Some T ->
  t < h /\ h < T /\ T < length doc.
Proof.
  intros (H1 & _)%findLine_Some (H2 & H3 & _)%findLine_Some.
  apply lookup_lt_Some in H3. lia.
Qed.

(** The run appends: the lines of the rendered task go in above line [L]. *)
Lemma edits_insert doc t (del : bool) tk h T L c :
  linesOK doc = true ->
  isBulletTask doc t = true ->
  linesOK (parents tk) = true -> singleLine (task tk) = true ->
  findLine doc (t + 1) "# History" = Some h ->
  findLine doc (h + 1) ("## " +:+ today) = Some T ->
  locate doc T tk = (L, c) ->
  isTheTask doc (task tk) c L = false ->
  Host.applyTransaction doc (withDeletion doc t del (archiveChanges doc today t tk))
  = (if del then removeLine t else id)
      (insertAfter (L - 1) (drop c (parents tk) ++ [task tk]) doc).
Proof.
  intros Hok Ht Hps Htask Hh HT Hloc Hnot.
  destruct (found_order _ _ _ _ Hh HT) as (H1 & H2 & H3).
  destruct (locate_bounds _ _ _ _ _ H3 Hloc) as [[H4 H5] _].
  unfold withDeletion.
  rewrite (archiveChanges_found doc today t _ h T L c Hh HT Hloc), Hnot.
  set (texts := [toString tk c]).
  assert (map (Host.resolve doc) [appendAfterLine doc (L - 1) (toString tk c)]
          = map (atEnd doc (L - 1)) texts) as E
    by (cbn [map]; by rewrite resolve_appendAfterLine by lia).
  assert (concat (map Host.splitLines texts) = drop c (parents tk) ++ [task tk]) as EX.
  { unfold texts. cbn [map concat]. by rewrite app_nil_r, splitLines_toString. }
  destruct del.
  - rewrite (apply_inserts_delete doc _ (L - 1) t texts); try done; try lia.
    + by rewrite EX.
    + by apply isBulletTask_nonempty.
  - rewrite app_nil_r, (apply_inserts doc _ (L - 1) texts) by (done || lia).
    by rewrite EX.
Qed.

(** A line that matches the task lies inside the document. *)
Lemma isTheTask_lt doc x c L :
  Js.contains x "- " = true -> isTheTask doc x c L = true -> L < length doc.
Proof.
  intros Hx [_ H]%andb_true_iff. destruct (decide (L < length doc)); [done |].
  rewrite getLine_ge, not_same_as_empty in H by (done || lia). done.
Qed.

(** The run overwrites line [L]. *)
Lemma edits_replace doc t (del : bool) tk h T L c :
  linesOK doc = true ->
  isBulletTask doc t = true ->
  singleLine (task tk) = true -> Js.contains (task tk) "- " = true ->
  findLine doc (t + 1) "# History" = Some h ->
  findLine doc (h + 1) ("## " +:+ today) = Some T ->
  locate doc T tk = (L, c) ->
  isTheTask doc (task tk) c L = true ->
  L < length doc /\ t < L /\
  withDeletion doc t del (archiveChanges doc today t tk)
  = withDeletion doc t del [replaceLine doc L (task tk)] /\
  Host.applyTransaction doc (withDeletion doc t del (archiveChanges doc today t tk))
  = (if del then removeLine t else id) (<[L:=task tk]> doc).
Proof.
  intros Hok Ht Htask Hb Hh HT Hloc Hfound.
  destruct (found_order _ _ _ _ Hh HT) as (H1 & H2 & H3).
  destruct (locate_bounds _ _ _ _ _ H3 Hloc) as [[H4 H5] _].
  assert (L < length doc) as HL by (by eapply isTheTask_lt).
  split; [done |]. split; [lia |].
  rewrite (archiveChanges_found doc today t _ h T L c Hh HT Hloc), Hfound.
  split; [done |]. unfold withDeletion.
  destruct del; simpl.
  - apply apply_replace_delete; try done; lia.
  - by apply apply_replace.
Qed.

End RunFound.

(** ** Chains resolved up to depth 0 *)

Section FullChain.

Lemma getTask_parents_indent (doc : list string) (t : nat) (tk : Task) :
  getTask doc t = Some tk ->
  forall i p, parents tk !! i = Some p ->
    Js.leadingTabs p + (length (parents tk) - i) = indentLevel doc t.
Proof.
  unfold getTask. destruct (negb _); [done |]. intros [= <-] i p Hp.
  destruct (findParents_ancestors doc (indentLevel doc t) t [] eq_refl) as (js & Hjs & Hanc).
  rewrite app_nil_r in Hjs. simpl in *. rewrite Hjs in *.
  rewrite !length_map. rewrite !list_lookup_fmap in Hp.
  destruct (js !! i) as [j|] eqn:Hj; [| done]. injection Hp as <-.
  rewrite leadingTabs_replaceBulletTask.
  by destruct (proj1 (ancestors_shape doc t js Hanc) i j Hj) as (_ & _ & H & _).
Qed.

(** When as many parents were resolved as the task is deep, the parents
    stand at the depths 0, 1, 2, ... *)
Lemma fullChain_wellIndented (doc : list string) (t : nat) (tk : Task) :
  getTask doc t = Some tk ->
  length (parents tk) = indentLevel doc t ->
  wellIndented (parents tk) 0.
Proof.
  intros Htk Hfull k p Hp. split.
  - pose proof (getTask_parents_indent doc t tk Htk k p Hp) as H.
    apply lookup_lt_Some in Hp. lia.
  - pose proof (parents_show_bullet doc t tk Htk) as H.
    rewrite Forall_forall in H. apply H. by eapply list_elem_of_lookup_2.
Qed.

Lemma indent_marked (b : bool) (tk : Task) :
  Js.leadingTabs (task (marked b tk)) = Js.leadingTabs (task tk).
Proof. destruct b; apply leadingTabs_replaceBulletTask. Qed.

End FullChain.

(** ** Walking again over a document that already holds the entry *)

Section Replay.

Variables doc doc' : list string.
Variable L : nat.

(** Above line [L] the two documents are the same. *)
Hypothesis Hagree : forall i, i < L -> doc' !! i = doc !! i.

Lemma parent_stops_here p lvl n :
  doc' !! n = Some p -> Js.leadingTabs p = lvl ->
  notYetParent doc' p lvl n = false.
Proof.
  intros Hn Hind. unfold notYetParent, indentLevel.
  rewrite (getLine_lookup _ _ _ Hn), Hind, Nat.ltb_irrefl, Nat.eqb_refl.
  unfold isSameTask. rewrite String.eqb_refl. simpl. apply andb_false_r.
Qed.

Lemma matchParents_replay ps :
  forall s lvl n c,
    matchParents doc ps s lvl = (n, c) ->
    s <= length doc -> n <= L ->
    (c < lvl + length ps -> n = L) ->
    (forall k p, drop (c - lvl) ps !! k = Some p -> doc' !! (L + k) = Some p) ->
    wellIndented ps lvl ->
    (c < lvl + length ps /\
     matchParents doc' ps s lvl = (L + (lvl + length ps - c), lvl + length ps))
    \/ (c = lvl + length ps /\ matchParents doc' ps s lvl = (n, c)).
Proof.
  induction ps as [|p ps IH]; intros s lvl n c Hm Hs HnL Hbreak Hblock Hwi.
  - injection Hm as <- <-. right. simpl. split; [lia | done].
  - destruct (Hwi 0 p eq_refl) as [Hind Hb]. rewrite Nat.add_0_r in Hind.
    destruct (matchParents_cons doc p ps s lvl)
      as [Hff [[Hbr E]|(Ha & Hi & Hsame & E)]]; rewrite E in Hm.
    + (* the first run gave up here *)
      injection Hm as Hn <-. rewrite Hn in *. left. simpl length.
      split; [lia |].
      assert (n = L) as -> by (apply Hbreak; simpl; lia).
      assert (doc' !! L = Some p) as HL.
      { specialize (Hblock 0 p). rewrite Nat.sub_diag, Nat.add_0_r in Hblock.
        by apply Hblock. }
      assert (firstFalse (notYetParent doc' p lvl) s L) as Hff'.
      { destruct Hff as (H1 & H2 & _). split; [done |]. split.
        - intros i Hi. rewrite <-(notYetParent_ext doc doc') by (symmetry; apply Hagree; lia).
          by apply H2.
        - by apply parent_stops_here. }
      destruct (matchParents_cons doc' p ps s lvl) as [Hff2 Hcases].
      rewrite (firstFalse_unique _ _ _ _ Hff2 Hff') in Hcases.
      assert (isArchiveTask doc' L = true) as Ha' by (by eapply isArchiveTask_bullet).
      destruct Hcases as [[[Hna|Hlt] _]|(_ & _ & _ & E')].
      * congruence.
      * unfold indentLevel in Hlt. rewrite (getLine_lookup _ _ _ HL) in Hlt. lia.
      * rewrite E', (matchParents_block doc' ps (S L) (S lvl)).
        -- f_equal; lia.
        -- intros k q Hq. specialize (Hblock (S k) q).
           rewrite Nat.sub_diag in Hblock. simpl in Hblock.
           replace (S L + k) with (L + S k) by lia. by apply Hblock.
        -- by eapply wellIndented_tail.
    + (* the first run matched the parent and went on *)
      set (n1 := advanceWhile _ _ _) in *.
      pose proof (isArchiveTask_lt _ _ Ha) as Hn1.
      destruct (matchParents_bounds doc ps _ _ _ _ Hm) as [Hc Hn]; [lia |].
      assert (doc' !! n1 = doc !! n1) as E1 by (apply Hagree; lia).
      assert (firstFalse (notYetParent doc' p lvl) s n1) as Hff'.
      { eapply firstFalse_ext; [| exact Hff].
        intros i Hrange. symmetry. apply notYetParent_ext. symmetry. apply Hagree. lia. }
      destruct (matchParents_cons doc' p ps s lvl) as [Hff2 Hcases].
      rewrite (firstFalse_unique _ _ _ _ Hff2 Hff') in Hcases.
      rewrite <-(isArchiveTask_ext doc doc' n1), <-(indentLevel_ext doc doc' n1),
        <-(getLine_ext doc doc' n1) in Hcases by done.
      destruct Hcases as [[[Hna|Hlt] _]|(_ & _ & _ & E')]; [congruence | lia |].
      rewrite E'. simpl length.
      replace (lvl + S (length ps)) with (S lvl + length ps) by lia.
      apply IH; try done; try lia.
      * intros Hlt. apply Hbreak. simpl. lia.
      * intros k q Hq. apply Hblock.
        replace (c - lvl) with (S (c - S lvl)) by lia. done.
      * by eapply wellIndented_tail.
Qed.

(** The second walk ends on the entry: [d - c] lines below [L] when the
    first walk appended the parents from depth [c] on, at [L] itself when
    all the parents were there. *)
Lemma locate_replay T tk c :
  locate doc T tk = (L, c) ->
  T < length doc ->
  (forall k p, (drop c (parents tk) ++ [task tk]) !! k = Some p -> doc' !! (L + k) = Some p) ->
  wellIndented (parents tk) 0 ->
  Js.leadingTabs (task tk) = length (parents tk) ->
  locate doc' T tk = (L + (length (parents tk) - c), length (parents tk)) /\
  doc' !! (L + (length (parents tk) - c)) = Some (task tk).
Proof.
  intros Hloc HT Hblock Hwi Hind. unfold locate in *.
  destruct (matchParents doc _ _ _) as [n c'] eqn:Hm. injection Hloc as HL <-.
  destruct (matchParents_bounds doc _ _ _ _ _ Hm) as [Hc Hn]; [lia |].
  destruct (matchParents_run doc _ _ _ _ _ Hm) as (_ & _ & _ & _ & Hend).
  destruct (endOfList_firstFalse doc (task tk) c' n) as (H1 & H2 & H3). rewrite HL in *.
  remember (length (parents tk)) as d eqn:Hd.
  assert (doc' !! (L + (d - c')) = Some (task tk)) as Hentry.
  { apply Hblock. rewrite lookup_app_r; rewrite length_drop; [| lia].
    by replace (d - c' - (length (parents tk) - c')) with 0 by lia. }
  assert (isTheTask doc' (task tk) d (L + (d - c')) = true) as Hthe.
  { unfold isTheTask, indentLevel, isSameTask.
    rewrite (getLine_lookup _ _ _ Hentry), Hind, Nat.eqb_refl, String.eqb_refl. done. }
  split; [| done].
  assert (c' < d -> n = L) as Hbreak.
  { intros Hlt. destruct (decide (n = L)) as [|Hne]; [done |].
    assert (listGoesOn doc (task tk) c' n = true) as Hgo by (apply H2; lia).
    unfold listGoesOn in Hgo. apply andb_true_iff in Hgo as [[Ha Hle]%andb_true_iff _].
    apply Nat.leb_le in Hle. destruct Hend; [simpl; lia | done]. }
  destruct (matchParents_replay (parents tk) (T + 1) 0 n c' Hm) as [[Hlt ->]|[Heq ->]];
    try done; try lia.
  - intros k p Hp. apply Hblock. rewrite Nat.sub_0_r in Hp.
    rewrite lookup_app_l; [done |]. by eapply lookup_lt_Some.
  - (* parents appended: the entry is the line right below them *)
    simpl. rewrite <-Hd. f_equal.
    eapply firstFalse_unique; [apply endOfList_firstFalse |].
    split; [done |]. split; [lia |]. unfold listGoesOn. rewrite Hthe. apply andb_false_r.
  - (* all parents matched: the second walk goes down the same list *)
    simpl in Heq. rewrite <-Hd in Heq. subst c'. f_equal.
    replace (L + (d - d)) with L in * by lia.
    eapply firstFalse_unique; [apply endOfList_firstFalse |].
    split; [done |]. split.
    + intros i Hi. rewrite <-(listGoesOn_ext doc doc') by (symmetry; apply Hagree; lia).
      by apply H2.
    + unfold listGoesOn. rewrite Hthe. apply andb_false_r.
Qed.

End Replay.

(** ** The walk over a document whose lines have moved up *)

Section Shift.

Variables doc1 doc2 : list string.
Variables k m : nat.

(** From line [m] on, [doc2] holds the lines of [doc1] moved up by [k]. *)
Hypothesis Hshift : forall i, m <= i -> doc2 !! i = doc1 !! (i + k).

Lemma firstFalse_shift (cond1 cond2 : nat -> bool) s r :
  (forall i, s <= i -> cond2 i = cond1 (i + k)) ->
  firstFalse cond1 (s + k) r ->
  k <= r /\ firstFalse cond2 s (r - k).
Proof.
  intros E (H1 & H2 & H3). split; [lia |]. split; [lia |]. split.
  - intros i Hi. rewrite E by lia. apply H2. lia.
  - rewrite E by lia. by replace (r - k + k) with r by lia.
Qed.

Lemma matchParents_shift ps :
  forall s lvl n c,
    m <= s ->
    matchParents doc1 ps (s + k) lvl = (n, c) ->
    k <= n /\ matchParents doc2 ps s lvl = (n - k, c).
Proof.
  induction ps as [|p ps IH]; intros s lvl n c Hs Hm.
  - injection Hm as <- <-. split; [lia |]. simpl. f_equal. lia.
  - destruct (matchParents_cons doc1 p ps (s + k) lvl) as [Hff1 Hcases1].
    set (n1 := advanceWhile _ _ _) in *.
    destruct (firstFalse_shift (notYetParent doc1 p lvl) (notYetParent doc2 p lvl) s n1)
      as [Hk Hff2]; [| done |].
    { intros i Hi. apply notYetParent_at, Hshift. lia. }
    destruct (matchParents_cons doc2 p ps s lvl) as [Hff2' Hcases2].
    rewrite (firstFalse_unique _ _ _ _ Hff2' Hff2) in Hcases2.
    assert (doc2 !! (n1 - k) = doc1 !! n1) as E.
    { rewrite Hshift by (destruct Hff2; lia). by replace (n1 - k + k) with n1 by lia. }
    rewrite (isArchiveTask_at doc2 doc1 _ _ E), (indentLevel_at doc2 doc1 _ _ E),
      (getLine_at doc2 doc1 _ _ E) in Hcases2.
    destruct Hcases1 as [[Hbr E1]|(Ha & Hi & Hsame & E1)]; rewrite E1 in Hm.
    + injection Hm as <- <-. split; [done |].
      destruct Hcases2 as [[_ E2]|(Ha & Hi & _ & _)]; [done |].
      destruct Hbr; [congruence | lia].
    + destruct Hcases2 as [[[Hna|Hlt] _]|(_ & _ & _ & E2)]; [congruence | lia |].
      rewrite E2. replace (S n1) with (S (n1 - k) + k) in Hm by lia.
      apply IH in Hm; [done |]. destruct Hff2. lia.
Qed.

Lemma endOfList_shift t lvl s :
  m <= s ->
  k <= endOfList doc1 t lvl (s + k) /\
  endOfList doc2 t lvl s = endOfList doc1 t lvl (s + k) - k.
Proof.
  intros Hs.
  destruct (firstFalse_shift (listGoesOn doc1 t lvl) (listGoesOn doc2 t lvl) s
              (endOfList doc1 t lvl (s + k))) as [Hk Hff]; [| apply endOfList_firstFalse |].
  { intros i Hi. apply listGoesOn_at, Hshift. lia. }
  split; [done |].
  eapply firstFalse_unique; [apply endOfList_firstFalse | done].
Qed.

Lemma locate_shift T0 tk L c :
  m <= T0 + 1 ->
  T0 + k < length doc1 ->
  locate doc1 (T0 + k) tk = (L, c) ->
  k <= L /\ locate doc2 T0 tk = (L - k, c).
Proof.
  intros HT Hlen Hloc. unfold locate in *.
  destruct (matchParents doc1 _ _ _) as [n c'] eqn:Hm. injection Hloc as <- <-.
  replace (T0 + k + 1) with (T0 + 1 + k) in Hm by lia.
  destruct (matchParents_bounds doc1 _ _ _ _ _ Hm) as [_ Hn]; [lia |].
  destruct (matchParents_shift _ _ _ _ _ HT Hm) as [Hk ->].
  destruct (endOfList_shift (task tk) c' (n - k)) as [HkL E]; [lia |].
  replace (n - k + k) with n in * by lia.
  split; [done |]. by rewrite E.
Qed.

Lemma findLine_shift s x i :
  m <= s ->
  findLine doc1 (s + k) x = Some i ->
  k <= i /\ findLine doc2 s x = Some (i - k).
Proof.
  intros Hs (H1 & H2 & H3)%findLine_Some. split; [lia |].
  apply findLine_Some. split; [lia |]. split.
  - rewrite Hshift by lia. by replace (i - k + k) with i by lia.
  - intros j Hj. rewrite Hshift by lia. apply H3. lia.
Qed.

End Shift.

(** ** The source line re-entered: Complete Task over its own archive *)

Section SecondRun.

Variable now : Date.

Let today := getLocalDateString now.

Implicit Types (doc : list string) (t h T L c : nat) (tk : Task).

(** A run that creates today's subsection below an existing History heading. *)
Lemma edits_new_today doc t (del : bool) tk h :
  linesOK doc = true ->
  isBulletTask doc t = true ->
  linesOK (parents tk) = true -> singleLine (task tk) = true ->
  findLine doc (t + 1) "# History" = Some h ->
  findLine doc (h + 1) ("## " +:+ today) = None ->
  Host.applyTransaction doc (withDeletion doc t del (archiveChanges doc today t tk))
  = (if del then removeLine t else id)
      (insertAfter h (["## " +:+ today] ++ parents tk ++ [task tk]) doc).
Proof.
  intros Hok Ht Hps Htask Hh HT.
  pose proof Hh as (H1 & H2 & _)%findLine_Some. apply lookup_lt_Some in H2.
  assert (archiveChanges doc today t tk
          = [appendAfterLine doc h ("## " +:+ today); appendAfterLine doc h (toString tk 0)])
    as -> by (unfold archiveChanges; by rewrite Hh, HT).
  unfold withDeletion.
  set (texts := ["## " +:+ today; toString tk 0]).
  assert (map (Host.resolve doc)
            [appendAfterLine doc h ("## " +:+ today); appendAfterLine doc h (toString tk 0)]
          = map (atEnd doc h) texts) as E
    by (cbn [map]; by rewrite !resolve_appendAfterLine by done).
  assert (concat (map Host.splitLines texts) = ["## " +:+ today] ++ parents tk ++ [task tk]) as EX.
  { unfold texts. cbn [map concat].
    rewrite (splitLines_single ("## " +:+ today)) by apply singleLine_heading.
    rewrite splitLines_toString by done. by rewrite app_nil_r. }
  destruct del.
  - rewrite (apply_inserts_delete doc _ h t texts); try done; try lia.
    + by rewrite EX.
    + by apply isBulletTask_nonempty.
  - rewrite app_nil_r, (apply_inserts doc _ h texts) by done. by rewrite EX.
Qed.

Lemma findLine_agree doc doc' start x i :
  (forall j, j <= i -> doc' !! j = doc !! j) ->
  findLine doc start x = Some i -> findLine doc' start x = Some i.
Proof.
  intros E (H1 & H2 & H3)%findLine_Some. apply findLine_Some.
  split; [done |]. split; [by rewrite E |].
  intros j Hj. rewrite E by lia. by apply H3.
Qed.

(** The walk over a block that holds the parents and then the task. *)
Lemma locate_block doc T tk :
  (forall k p, (parents tk ++ [task tk]) !! k = Some p -> doc !! (T + 1 + k) = Some p) ->
  wellIndented (parents tk) 0 ->
  Js.leadingTabs (task tk) = length (parents tk) ->
  locate doc T tk = (T + 1 + length (parents tk), length (parents tk)) /\
  doc !! (T + 1 + length (parents tk)) = Some (task tk).
Proof.
  intros Hblock Hwi Hind.
  assert (doc !! (T + 1 + length (parents tk)) = Some (task tk)) as Hentry.
  { apply Hblock. rewrite lookup_app_r by done. by rewrite Nat.sub_diag. }
  split; [| done]. unfold locate.
  rewrite (matchParents_block doc (parents tk) (T + 1) 0); [| | done].
  - simpl. f_equal.
    eapply firstFalse_unique; [apply endOfList_firstFalse |].
    split; [done |]. split; [lia |].
    unfold listGoesOn, isTheTask, indentLevel, isSameTask.
    rewrite (getLine_lookup _ _ _ Hentry), Hind, Nat.eqb_refl, String.eqb_refl.
    apply andb_false_r.
  - intros k p Hp. apply Hblock. rewrite lookup_app_l; [done |]. by eapply lookup_lt_Some.
Qed.

(** Complete Task on a document whose archive holds the entry where the walk
    ends: the entry is overwritten with the same text, and only the source
    line goes. *)
Lemma second_run doc t tk h T L :
  linesOK doc = true ->
  isBulletTask doc t = true ->
  singleLine (task tk) = true -> Js.contains (task tk) "- " = true ->
  findLine doc (t + 1) "# History" = Some h ->
  findLine doc (h + 1) ("## " +:+ today) = Some T ->
  locate doc T tk = (L, length (parents tk)) ->
  doc !! L = Some (task tk) ->
  Js.leadingTabs (task tk) = length (parents tk) ->
  t < L /\
  withDeletion doc t true (archiveChanges doc today t tk)
  = [replaceLine doc L (task tk); deleteLine doc t None] /\
  Host.applyTransaction doc (withDeletion doc t true (archiveChanges doc today t tk))
  = removeLine t doc.
Proof.
  intros Hok Ht Htask Hb Hh HT Hloc Hentry Hind.
  assert (isTheTask doc (task tk) (length (parents tk)) L = true) as Hthe.
  { unfold isTheTask, indentLevel, isSameTask.
    by rewrite (getLine_lookup _ _ _ Hentry), Hind, Nat.eqb_refl, String.eqb_refl. }
  destruct (edits_replace now doc t true tk h T L _ Hok Ht Htask Hb Hh HT Hloc Hthe)
    as (H1 & H2 & H3 & H4).
  split; [done |]. split; [done |].
  fold today in H4. rewrite H4. by rewrite list_insert_id.
Qed.

End SecondRun.

Section CompleteTwice.

Variable now : Date.

Let today := getLocalDateString now.

Implicit Types (doc : list string) (t h T L c : nat) (tk : Task).

Lemma withDeletion_false doc t (cs : list EditorChange) : withDeletion doc t false cs = cs.
Proof. unfold withDeletion. apply app_nil_r. Qed.

Lemma linesOK_insertAfter doc n (X : list string) :
  linesOK doc = true -> linesOK X = true -> linesOK (insertAfter n X doc) = true.
Proof.
  intros Hd HX. unfold insertAfter. rewrite !linesOK_app, HX.
  assert (linesOK (take (S n) doc) = true) as ->
    by (apply linesOK_Forall, Forall_take; by apply linesOK_Forall).
  assert (linesOK (drop (S n) doc) = true) as ->
    by (apply linesOK_Forall, Forall_drop; by apply linesOK_Forall).
  done.
Qed.

Lemma linesOK_insert doc n x :
  linesOK doc = true -> singleLine x = true -> linesOK (<[n:=x]> doc) = true.
Proof.
  intros Hd Hx. apply linesOK_Forall, Forall_insert; [by apply linesOK_Forall | done].
Qed.

Lemma insertAfter_block doc n (X : list string) k p :
  n < length doc -> X !! k = Some p -> insertAfter n X doc !! (S n + k) = Some p.
Proof.
  intros Hn Hk. unfold insertAfter.
  rewrite lookup_app_r; rewrite length_take; [| lia].
  replace (S n + k - S n `min` length doc) with k by lia.
  rewrite lookup_app_l; [done |]. by eapply lookup_lt_Some.
Qed.

(** What the archive edits of Complete Task leave, and where Complete Task
    run again finds the entry.  [tk] is the completed task. *)
Lemma archived_state doc t tk :
  linesOK doc = true ->
  isBulletTask doc t = true ->
  linesOK (parents tk) = true -> singleLine (task tk) = true ->
  Js.contains (task tk) "- " = true ->
  wellIndented (parents tk) 0 ->
  Js.leadingTabs (task tk) = length (parents tk) ->
  placedAtOwnDepth now doc t tk ->
  let doc' :=
    Host.applyTransaction doc (withDeletion doc t false (archiveChanges doc today t tk)) in
  Host.applyTransaction doc (withDeletion doc t true (archiveChanges doc today t tk))
    = removeLine t doc' /\
  (forall i, i <= t -> doc' !! i = doc !! i) /\
  linesOK doc' = true /\
  exists h T L,
    findLine doc' (t + 1) "# History" = Some h /\
    findLine doc' (h + 1) ("## " +:+ today) = Some T /\
    locate doc' T tk = (L, length (parents tk)) /\
    doc' !! L = Some (task tk).
Proof.
  intros Hok Ht Hps Htask Hb Hwi Hind Hplaced doc'. unfold today in *.
  pose proof (isBulletTask_lt _ _ Ht) as Hlt.
  assert (linesOK (parents tk ++ [task tk]) = true) as Hblock
    by (rewrite linesOK_app, Hps; simpl; by rewrite Htask).
  unfold doc'.
  destruct (findLine doc (t + 1) "# History") as [h|] eqn:Hh.
  - pose proof Hh as (Hh1 & Hh2 & Hh3)%findLine_Some.
    pose proof (lookup_lt_Some _ _ _ Hh2) as Hhlt.
    destruct (findLine doc (h + 1) ("## " +:+ today)) as [T|] eqn:HT.
    + (* both headings are there *)
      destruct (found_order now _ _ _ _ Hh HT) as (H1 & H2 & H3).
      destruct (locate doc T tk) as [L c] eqn:Hloc.
      destruct (locate_bounds _ _ _ _ _ H3 Hloc) as [[H4 H5] H6].
      destruct (isTheTask doc (task tk) c L) eqn:Hthe.
      * (* the entry was there: overwritten *)
        assert (c = length (parents tk)) as -> by (by eapply Hplaced).
        destruct (edits_replace now doc t true tk h T L _ Hok Ht Htask Hb Hh HT Hloc Hthe)
          as (HL & _ & _ & E1).
        destruct (edits_replace now doc t false tk h T L _ Hok Ht Htask Hb Hh HT Hloc Hthe)
          as (_ & _ & _ & E0).
        rewrite E1, E0. cbn [id].
        assert (forall i, i < L -> <[L:=task tk]> doc !! i = doc !! i) as Hagree
          by (intros i Hi; apply list_lookup_insert_ne; lia).
        split; [done |]. split; [intros i Hi; apply Hagree; lia |].
        split; [by apply linesOK_insert |].
        exists h, T, L.
        split; [eapply findLine_agree; [| done]; intros j Hj; apply Hagree; lia |].
        split; [eapply findLine_agree; [| done]; intros j Hj; apply Hagree; lia |].
        destruct (locate_replay doc (<[L:=task tk]> doc) L Hagree T tk _ Hloc H3) as [E Hentry];
          try done.
        -- intros k p. rewrite drop_all. simpl. destruct k as [|k]; [| done].
           intros [= <-]. rewrite Nat.add_0_r. by apply list_lookup_insert_eq.
        -- rewrite Nat.sub_diag, Nat.add_0_r in E, Hentry. done.
      * (* the entry was appended *)
        rewrite (edits_insert now doc t true tk h T L c), (edits_insert now doc t false tk h T L c)
          by done.
        cbn [id]. set (X := drop c (parents tk) ++ [task tk]).
        assert (forall i, i < L -> insertAfter (L - 1) X doc !! i = doc !! i) as Hagree
          by (intros i Hi; apply insertAfter_lookup; lia).
        split; [done |]. split; [intros i Hi; apply Hagree; lia |].
        split.
        { apply linesOK_insertAfter; [done |]. unfold X. rewrite linesOK_app. simpl.
          rewrite Htask, andb_true_r. apply linesOK_Forall, Forall_drop. by apply linesOK_Forall. }
        exists h, T, (L + (length (parents tk) - c)).
        split; [eapply findLine_agree; [| done]; intros j Hj; apply Hagree; lia |].
        split; [eapply findLine_agree; [| done]; intros j Hj; apply Hagree; lia |].
        apply (locate_replay doc _ L Hagree T tk c Hloc H3); try done.
        intros k p Hp. replace (L + k) with (S (L - 1) + k) by lia.
        apply insertAfter_block; [lia | done].
    + (* today's subsection is created below the heading *)
      rewrite (edits_new_today now doc t true tk h), (edits_new_today now doc t false tk h)
        by done.
      cbn [id]. set (X := ["## " +:+ getLocalDateString now] ++ parents tk ++ [task tk]).
      assert (forall i, i <= h -> insertAfter h X doc !! i = doc !! i) as Hagree
        by (intros i Hi; apply insertAfter_lookup; lia).
      split; [done |]. split; [intros i Hi; apply Hagree; lia |].
      split.
      { apply linesOK_insertAfter; [done |]. unfold X. rewrite linesOK_app, Hblock.
        unfold linesOK. cbn [forallb]. by rewrite singleLine_heading. }
      exists h, (S h), (S h + 1 + length (parents tk)).
      split; [eapply findLine_agree; [| done]; intros j Hj; by apply Hagree |].
      split.
      { apply findLine_Some. split; [lia |]. split; [| lia].
        replace (S h) with (S h + 0) by lia. by apply insertAfter_block. }
      apply locate_block; [| done | done].
      intros k p Hp. replace (S h + 1 + k) with (S h + S k) by lia.
      by apply insertAfter_block.
  - (* the History section is created at the end *)
    rewrite (edits_new_section now doc t true tk), (edits_new_section now doc t false tk)
      by done.
    cbn [id]. unfold freshArchive.
    set (X := ["# History"; "## " +:+ getLocalDateString now] ++ parents tk ++ [task tk]).
    assert (forall i, i < length doc -> (doc ++ X) !! i = doc !! i) as Hagree
      by (intros i Hi; by apply lookup_app_l).
    split; [done |]. split; [intros i Hi; apply Hagree; lia |].
    split.
    { rewrite linesOK_app, Hok. unfold X. rewrite linesOK_app, Hblock.
      unfold linesOK. cbn [forallb]. by rewrite singleLine_heading. }
    exists (length doc), (S (length doc)), (S (length doc) + 1 + length (parents tk)).
    assert (forall k p, X !! k = Some p -> (doc ++ X) !! (length doc + k) = Some p) as HX.
    { intros k p Hp. rewrite lookup_app_r by lia.
      by replace (length doc + k - length doc) with k by lia. }
    split.
    { apply findLine_Some. split; [lia |]. split.
      - replace (length doc) with (length doc + 0) at 1 by lia. by apply HX.
      - intros j Hj. rewrite Hagree by lia.
        apply (proj1 (findLine_None _ _ _) Hh). lia. }
    split.
    { apply findLine_Some. split; [lia |]. split; [| lia].
      replace (S (length doc)) with (length doc + 1) by lia. by apply HX. }
    apply locate_block; [| done | done].
    intros k p Hp. replace (S (length doc) + 1 + k) with (length doc + S (S k)) by lia.
    by apply HX.
Qed.

End CompleteTwice.

(** ** The document a run leaves behind *)

Section AfterRun.

Variable now : Date.

Implicit Types (doc : list string) (t h T L c : nat) (tk : Task).

Lemma linesOK_removeLine doc t : linesOK doc = true -> linesOK (removeLine t doc) = true.
Proof.
  intros H. unfold removeLine. destruct (t =? 0).
  - change (linesOK ("" :: drop 1 doc)) with (singleLine "" && linesOK (drop 1 doc)).
    simpl. apply linesOK_Forall, Forall_drop. by apply linesOK_Forall.
  - rewrite linesOK_app.
    assert (linesOK (take t doc) = true) as ->
      by (apply linesOK_Forall, Forall_take; by apply linesOK_Forall).
    apply linesOK_Forall, Forall_drop. by apply linesOK_Forall.
Qed.

(** Below the source line the lines of the document move up as one. *)
Lemma removeLine_shift doc t i :
  t < length doc ->
  (if t =? 0 then 1 else t) <= i ->
  removeLine t doc !! i = doc !! (i + moved true t).
Proof.
  intros Ht Hi. unfold removeLine, moved. destruct (t =? 0) eqn:E.
  - destruct i as [|i]; [lia |]. simpl. rewrite lookup_drop. f_equal. lia.
  - apply Nat.eqb_neq in E. rewrite lookup_app_r; rewrite length_take; [| lia].
    rewrite lookup_drop. f_equal. lia.
Qed.

(** After the first run: the headings, the parents matched down to the
    task's depth, and the entry in the list below the innermost parent.
    [tk] is the task as the run archived it. *)
Lemma after_run doc t (del : bool) tk :
  linesOK doc = true ->
  isBulletTask doc t = true ->
  linesOK (parents tk) = true -> singleLine (task tk) = true ->
  Js.contains (task tk) "- " = true ->
  wellIndented (parents tk) 0 ->
  Js.leadingTabs (task tk) = length (parents tk) ->
  placedAtOwnDepth now doc t tk ->
  let doc1 :=
    Host.applyTransaction doc
      (withDeletion doc t del (archiveChanges doc (getLocalDateString now) t tk)) in
  linesOK doc1 = true /\
  exists h T n pos,
    findLine doc1 (t + 1 - moved del t) "# History" = Some h /\
    findLine doc1 (h + 1) ("## " +:+ getLocalDateString now) = Some T /\
    matchParents doc1 (parents tk) (T + 1) 0 = (n, length (parents tk)) /\
    n <= pos /\
    doc1 !! pos = Some (task tk) /\
    (forall i, n <= i <= pos ->
       isArchiveTask doc1 i = true /\ length (parents tk) <= indentLevel doc1 i).
Proof.
  intros Hok Ht Hps Htask Hb Hwi Hind Hplaced doc1.
  destruct (archived_state now doc t tk Hok Ht Hps Htask Hb Hwi Hind Hplaced)
    as (E1 & Hagree & Hok' & h & T0 & L & Hh & HT & Hloc & Hentry).
  set (doc' := Host.applyTransaction doc
                 (withDeletion doc t false (archiveChanges doc (getLocalDateString now) t tk))) in *.
  destruct (found_order now _ _ _ _ Hh HT) as (Hth & HhT & HTlen).
  (* the walk over the document with the source line in place *)
  pose proof Hloc as Hloc'. unfold locate in Hloc'.
  destruct (matchParents doc' _ _ _) as [n c'] eqn:Hm. injection Hloc' as HL Hc'. subst c'.
  destruct (endOfList_firstFalse doc' (task tk) (length (parents tk)) n) as (Hn & Hgo & _).
  rewrite HL in *.
  assert (forall i, n <= i <= L ->
            isArchiveTask doc' i = true /\ length (parents tk) <= indentLevel doc' i) as Hlist.
  { intros i Hi. destruct (decide (i = L)) as [->|Hne].
    - split; [by eapply isArchiveTask_bullet |].
      unfold indentLevel. rewrite (getLine_lookup _ _ _ Hentry). lia.
    - assert (listGoesOn doc' (task tk) (length (parents tk)) i = true) as Hc
        by (apply Hgo; lia).
      unfold listGoesOn in Hc. apply andb_true_iff in Hc as [[Ha Hle]%andb_true_iff _].
      split; [done |]. by apply Nat.leb_le. }
  destruct (matchParents_bounds doc' _ _ _ _ _ Hm) as [_ HnT]; [lia |].
  (* the same, seen from the document the run leaves *)
  assert (doc1 = (if del then removeLine t else id) doc') as Edoc1
    by (unfold doc1; destruct del; [exact E1 | done]).
  set (k := moved del t).
  set (m := if del then (if t =? 0 then 1 else t) else 0).
  assert (forall i, m <= i -> doc1 !! i = doc' !! (i + k)) as Hshift.
  { intros i Hi. rewrite Edoc1. unfold m, k in *. destruct del.
    - apply removeLine_shift; [| done]. apply lookup_lt_Some in Hentry. lia.
    - simpl. by rewrite Nat.add_0_r. }
  assert (k <= 1 /\ m <= t + 1 - k /\ t + 1 - k + k = t + 1 /\ m <= t + 1) as (Hk1 & Hm1 & Hm2 & Hm3).
  { unfold k, m, moved. destruct del; [| lia]. destruct (t =? 0) eqn:E; [| lia].
    apply Nat.eqb_eq in E. lia. }
  split.
  { rewrite Edoc1. destruct del; [by apply linesOK_removeLine | done]. }
  destruct (findLine_shift doc' doc1 k m Hshift (t + 1 - k) "# History" h) as [Hkh Hh1];
    [done | by rewrite Hm2 |].
  destruct (findLine_shift doc' doc1 k m Hshift (h - k + 1) ("## " +:+ getLocalDateString now) T0)
    as [HkT HT1]; [lia | by replace (h - k + 1 + k) with (h + 1) by lia |].
  destruct (matchParents_shift doc' doc1 k m Hshift (parents tk) (T0 - k + 1) 0 n
              (length (parents tk))) as [Hkn Hm1']; [lia | by replace (T0 - k + 1 + k) with (T0 + 1) by lia |].
  exists (h - k), (T0 - k), (n - k), (L - k).
  split; [done |]. split; [done |]. split; [done |]. split; [lia |].
  split.
  { rewrite Hshift by lia. by replace (L - k + k) with L by lia. }
  intros i Hi.
  assert (doc1 !! i = doc' !! (i + k)) as E by (apply Hshift; lia).
  rewrite (isArchiveTask_at doc1 doc' _ _ E), (indentLevel_at doc1 doc' _ _ E).
  apply Hlist. lia.
Qed.

End AfterRun.

(** ** Appending to today's list *)

Section Appending.

Variable now : Date.

Let today := getLocalDateString now.

Implicit Types (doc pre post : list string) (t h T L c : nat) (tk : Task).

(** A run that finds both headings and no line to overwrite appends the
    rendered task at the end of the list below the last parent it matched. *)
Lemma insertion_point (e : Editor) (b : bool) tk h T L c :
  linesOK (lines e) = true ->
  isBulletTask (lines e) (line (cursor e)) = true ->
  getTask (lines e) (line (cursor e)) = Some tk ->
  findLine (lines e) (line (cursor e) + 1) "# History" = Some h ->
  findLine (lines e) (h + 1) ("## " +:+ today) = Some T ->
  locate (lines e) T (marked b tk) = (L, c) ->
  isTheTask (lines e) (task (marked b tk)) c L = false ->
  (exists s,
     T < s <= L /\
     ((c = 0 /\ s = T + 1) \/
      (0 < c /\ isArchiveTask (lines e) (s - 1) = true /\
       indentLevel (lines e) (s - 1) = c - 1 /\
       exists p, parents tk !! (c - 1) = Some p /\
                 isSameTask (Host.getLine (lines e) (s - 1)) p = true)) /\
     (forall i, s <= i < L ->
        isArchiveTask (lines e) i = true /\ c <= indentLevel (lines e) i) /\
     ~ (isArchiveTask (lines e) L = true /\ c <= indentLevel (lines e) L)) /\
  lines (archiveTask now e b)
  = (if b then removeLine (line (cursor e)) else id)
      (insertAfter (L - 1) (drop c (parents tk) ++ [task (marked b tk)]) (lines e)).
Proof.
  intros Hok Ht Htk Hh HT Hloc Hnot. split.
  - destruct (locate_run _ _ _ _ _ Hloc Hnot) as (s & H1 & H2 & H3 & H4).
    exists s. rewrite parents_marked in H2. done.
  - rewrite (archiveTask_lines now e b tk Ht Htk). unfold allChanges.
    destruct (marked_ok _ _ b _ Hok Htk) as [Hps Htask].
    rewrite (edits_insert now (lines e) _ b (marked b tk) h T L c) by done.
    by rewrite parents_marked.
Qed.

(** A run that has to create today's subsection does not search: the
    rendered task, with all its parents, goes right below the new heading. *)
Lemma created_section_placement (e : Editor) (b : bool) tk :
  linesOK (lines e) = true ->
  isBulletTask (lines e) (line (cursor e)) = true ->
  getTask (lines e) (line (cursor e)) = Some tk ->
  (findLine (lines e) (line (cursor e) + 1) "# History" = None ->
   lines (archiveTask now e b)
   = (if b then removeLine (line (cursor e)) (lines e) else lines e)
       ++ ["# History"; "## " +:+ today] ++ parents tk ++ [task (marked b tk)]) /\
  (forall h,
     findLine (lines e) (line (cursor e) + 1) "# History" = Some h ->
     findLine (lines e) (h + 1) ("## " +:+ today) = None ->
     lines (archiveTask now e b)
     = (if b then removeLine (line (cursor e)) else id)
         (insertAfter h (["## " +:+ today] ++ parents tk ++ [task (marked b tk)]) (lines e))).
Proof.
  intros Hok Ht Htk. destruct (marked_ok _ _ b _ Hok Htk) as [Hps Htask]. split.
  - intros Hh. rewrite (archiveTask_lines now e b tk Ht Htk).
    rewrite (run_new_section now _ _ b tk Hok Ht Htk Hh).
    unfold freshArchive. by rewrite parents_marked.
  - intros h Hh HT. rewrite (archiveTask_lines now e b tk Ht Htk). unfold allChanges.
    rewrite (edits_new_today now _ _ b (marked b tk) h Hok Ht Hps Htask Hh HT).
    by rewrite parents_marked.
Qed.

End Appending.

(** ** Two siblings, archived one after the other *)

Section SharedBlock.

Variable now : Date.

(** The second of two siblings goes into the block of the first: the walk
    matches all the parents, passes the entry of the first sibling, and the
    run appends the task line alone at the end of that list. *)
Lemma siblings_share_block (e : Editor) (bA : bool) (tkA : Task)
    (tB colB : nat) (logB : list (list EditorChange)) (bB : bool) (tkB : Task) :
  linesOK (lines e) = true ->
  isBulletTask (lines e) (line (cursor e)) = true ->
  getTask (lines e) (line (cursor e)) = Some tkA ->
  length (parents tkA) = indentLevel (lines e) (line (cursor e)) ->
  placedAtOwnDepth now (lines e) (line (cursor e)) (marked bA tkA) ->
  isBulletTask (lines (archiveTask now e bA)) tB = true ->
  getTask (lines (archiveTask now e bA)) tB = Some tkB ->
  parents tkB = parents tkA ->
  findLine (lines (archiveTask now e bA)) (tB + 1) "# History"
  = findLine (lines (archiveTask now e bA))
      (line (cursor e) + 1 - moved bA (line (cursor e))) "# History" ->
  noOverwrite now (lines (archiveTask now e bA)) tB (marked bB tkB) ->
  exists h T0 s posA L,
    findLine (lines (archiveTask now e bA)) (tB + 1) "# History" = Some h /\
    findLine (lines (archiveTask now e bA)) (h + 1) ("## " +:+ getLocalDateString now) = Some T0 /\
    T0 < s /\ s <= posA /\ posA < L /\
    ((length (parents tkA) = 0 /\ s = T0 + 1) \/
     (0 < length (parents tkA) /\
      isArchiveTask (lines (archiveTask now e bA)) (s - 1) = true /\
      indentLevel (lines (archiveTask now e bA)) (s - 1) = length (parents tkA) - 1 /\
      exists p, parents tkA !! (length (parents tkA) - 1) = Some p /\
                isSameTask (Host.getLine (lines (archiveTask now e bA)) (s - 1)) p = true)) /\
    lines (archiveTask now e bA) !! posA = Some (task (marked bA tkA)) /\
    (forall i, s <= i < L ->
       isArchiveTask (lines (archiveTask now e bA)) i = true /\
       length (parents tkA) <= indentLevel (lines (archiveTask now e bA)) i) /\
    lines (archiveTask now (mkEditor (lines (archiveTask now e bA)) (mkPos tB colB) logB) bB)
    = (if bB then removeLine tB else id)
        (insertAfter (L - 1) [task (marked bB tkB)] (lines (archiveTask now e bA))).
Proof.
  destruct e as [doc [tA colA] logA mvA]. simpl lines. simpl cursor. simpl line.
  intros Hok Ht Htk Hfull Hplaced.
  destruct (marked_ok doc tA bA tkA Hok Htk) as [Hps Htask].
  pose proof (marked_shows_bullet doc tA tkA bA Ht Htk) as Hb.
  pose proof (fullChain_wellIndented doc tA tkA Htk Hfull) as Hwi.
  assert (Js.leadingTabs (task (marked bA tkA)) = length (parents tkA)) as Hind.
  { rewrite (indent_marked bA tkA), (task_getTask _ _ _ Htk). by rewrite Hfull. }
  rewrite <-(parents_marked bA tkA) in Hwi, Hind.
  destruct (after_run now doc tA bA (marked bA tkA) Hok Ht Hps Htask Hb Hwi Hind Hplaced)
    as (Hok1 & h & T0 & n & posA & Hh & HT & Hm & Hnpos & Hentry & Hlist).
  rewrite (archiveTask_lines now (hostEditor doc (mkPos tA colA) logA mvA) bA tkA Ht Htk).
  simpl lines. simpl cursor. simpl line. unfold allChanges.
  set (doc1 := Host.applyTransaction doc _) in *.
  rewrite parents_marked in *.
  intros HtB HtkB Hsame HsameH Hno.
  rewrite <-HsameH in Hh.
  destruct (marked_ok doc1 tB bB tkB Hok1 HtkB) as [HpsB HtaskB].
  (* the walk of the second run *)
  assert (locate doc1 T0 (marked bB tkB)
          = (endOfList doc1 (task (marked bB tkB)) (length (parents tkA)) n,
             length (parents tkA))) as Hloc.
  { unfold locate. by rewrite parents_marked, Hsame, Hm. }
  set (L := endOfList _ _ _ _) in *.
  pose proof (Hno h T0 L _ Hh HT Hloc) as Hnot.
  destruct (endOfList_firstFalse doc1 (task (marked bB tkB)) (length (parents tkA)) n)
    as (HnL & Hgo & Hstop). fold L in HnL, Hgo, Hstop.
  assert (posA < L) as HposL.
  { destruct (decide (posA < L)) as [|Hge]; [done |].
    destruct (Hlist L) as [Ha Hle]; [lia |].
    unfold listGoesOn in Hstop. apply Nat.leb_le in Hle.
    by rewrite Ha, Hle, Hnot in Hstop. }
  destruct (matchParents_run doc1 _ _ _ _ _ Hm) as (s & Hs & Hcase & Hrun & _).
  exists h, T0, s, posA, L.
  split; [done |]. split; [done |]. split; [lia |]. split; [lia |]. split; [done |].
  split.
  { destruct Hcase as [[Hd ->]|(Hlt & Hss & Ha & Hi & p & Hp & Hsp)]; [left; lia | right].
    split; [done |]. split; [done |]. split; [done |]. exists p.
    by rewrite Nat.sub_0_r in Hp. }
  split; [done |]. split.
  { intros i Hi. destruct (decide (i < n)) as [Hin|Hin]; [apply Hrun; lia |].
    assert (listGoesOn doc1 (task (marked bB tkB)) (length (parents tkA)) i = true) as Hc
      by (apply Hgo; lia).
    unfold listGoesOn in Hc. apply andb_true_iff in Hc as [[Ha Hle]%andb_true_iff _].
    split; [done |]. by apply Nat.leb_le. }
  rewrite (archiveTask_lines now (mkEditor doc1 (mkPos tB colB) logB) bB tkB HtB HtkB).
  simpl lines. simpl cursor. simpl line. unfold allChanges.
  rewrite (edits_insert now doc1 tB bB (marked bB tkB) h T0 L (length (parents tkA))) by done.
  rewrite parents_marked, Hsame, drop_all. done.
Qed.

End SharedBlock.

(** ** Two siblings, completed one after the other *)

Section Siblings.

Variable now : Date.

Let today := getLocalDateString now.

Implicit Types (doc pre post : list string) (a b : string) (tk : Task).

Lemma findParents_top doc level cur acc : findParents doc level 0 cur acc = acc.
Proof. by destruct level. Qed.

Lemma removeLine_first pre a (rest : list string) :
  removeLine (length pre) (pre ++ a :: rest) = kept pre ++ rest /\
  (if length pre =? 0 then 1 else length pre) = length (kept pre).
Proof.
  destruct pre as [|x pre]; [by split |].
  split; [| done]. unfold removeLine, kept.
  change (length (x :: pre) =? 0) with false. cbv iota.
  rewrite take_app_length.
  by rewrite (cons_middle a), app_assoc, drop_app_length' by (rewrite length_app; simpl; lia).
Qed.

Lemma removeLine_kept pre b (rest : list string) :
  removeLine (length (kept pre)) (kept pre ++ b :: rest) = kept pre ++ rest.
Proof.
  assert ((length (kept pre) =? 0) = false) as E by (by destruct pre).
  unfold removeLine. rewrite E, take_app_length.
  by rewrite (cons_middle b), app_assoc, drop_app_length' by (rewrite length_app; simpl; lia).
Qed.

(** The second sibling has the parents of the first. *)
Lemma sibling_getTask pre a b post (arch : list string) tk :
  getTask (pre ++ a :: b :: post) (length pre) = Some tk ->
  length (parents tk) = Js.leadingTabs a ->
  Js.leadingTabs a = Js.leadingTabs b ->
  Js.contains b "- [ ] " || Js.contains b "- [x] " = true ->
  getTask (kept pre ++ b :: post ++ arch) (length (kept pre))
  = Some (mkTask (parents tk) b []) /\
  isBulletTask (kept pre ++ b :: post ++ arch) (length (kept pre)) = true.
Proof.
  intros Htk Hfull Hab Hb.
  set (doc := pre ++ a :: b :: post) in *.
  set (doc1 := kept pre ++ b :: post ++ arch).
  assert (doc !! length pre = Some a) as Ha by (unfold doc; by apply list_lookup_middle).
  assert (doc1 !! length (kept pre) = Some b) as Hb1
    by (unfold doc1; by apply list_lookup_middle).
  assert (isBulletTask doc1 (length (kept pre)) = true) as Ht1.
  { unfold isBulletTask. rewrite (getLine_lookup _ _ _ Hb1), Hb.
    apply lookup_lt_Some in Hb1. unfold Host.lastLine.
    replace (_ <=? _) with true by (symmetry; apply Nat.leb_le; lia). done. }
  split; [| done].
  rewrite (getTask_Some _ _ Ht1).
  unfold getTask in Htk. destruct (negb _); [done |]. injection Htk as <-.
  unfold indentLevel in *. rewrite (getLine_lookup _ _ _ Ha) in *.
  rewrite (getLine_lookup _ _ _ Hb1), <-Hab. unfold newTask. simpl in *. f_equal. f_equal.
  destruct pre as [|x pre].
  - rewrite findParents_top in Hfull. simpl in Hfull. rewrite <-Hfull. done.
  - f_equal. apply findParents_ext. intros i Hi. unfold doc, doc1, kept.
    by rewrite !lookup_app_l by done.
Qed.

(** Two sibling tasks, one right above the other, with the ancestor chain
    resolved up to depth 0 and no History section yet: Complete Task on the
    first and then on the second leaves one block of parents, the first
    sibling's entry, and the second sibling's entry after it. *)
Lemma siblings_in_order pre a b post (col : nat) (log : list (list EditorChange)) tk :
  linesOK (pre ++ a :: b :: post) = true ->
  isBulletTask (pre ++ a :: b :: post) (length pre) = true ->
  Js.contains b "- [ ] " || Js.contains b "- [x] " = true ->
  Js.leadingTabs a = Js.leadingTabs b ->
  getTask (pre ++ a :: b :: post) (length pre) = Some tk ->
  length (parents tk) = Js.leadingTabs a ->
  findLine (pre ++ a :: b :: post) (length pre + 1) "# History" = None ->
  isSameTask (replaceBulletTask "- [x]" a) (replaceBulletTask "- [x]" b) = false ->
  lines (archiveTask now (mkEditor (pre ++ a :: b :: post) (mkPos (length pre) col) log) true)
  = kept pre ++ b :: post
    ++ ["# History"; "## " +:+ today] ++ parents tk ++ [replaceBulletTask "- [x]" a] /\
  lines (archiveTask now
           (mkEditor
              (lines (archiveTask now
                        (mkEditor (pre ++ a :: b :: post) (mkPos (length pre) col) log) true))
              (mkPos (length (kept pre)) col)
              (applied (archiveTask now
                          (mkEditor (pre ++ a :: b :: post) (mkPos (length pre) col) log) true)))
           true)
  = kept pre ++ post
    ++ ["# History"; "## " +:+ today] ++ parents tk
    ++ [replaceBulletTask "- [x]" a; replaceBulletTask "- [x]" b].
Proof.
  intros Hok Ht Hb Hab Htk Hfull Hnone Hdiff. unfold today in *.
  set (doc := pre ++ a :: b :: post) in *.
  set (a' := replaceBulletTask "- [x]" a) in *.
  set (b' := replaceBulletTask "- [x]" b) in *.
  set (ps := parents tk) in *.
  assert (doc !! length pre = Some a) as Ha by (unfold doc; by apply list_lookup_middle).
  assert (task tk = a) as Etask
    by (by rewrite (task_getTask _ _ _ Htk), (getLine_lookup _ _ _ Ha)).
  set (arch := ["# History"; "## " +:+ getLocalDateString now] ++ ps ++ [a']).
  set (base := kept pre ++ b :: post).
  (* the first run *)
  assert (lines (archiveTask now (mkEditor doc (mkPos (length pre) col) log) true)
          = base ++ arch) as E1.
  { rewrite (archiveTask_lines now (mkEditor doc (mkPos (length pre) col) log) true tk Ht Htk).
    simpl. rewrite (run_new_section now doc (length pre) true tk Hok Ht Htk Hnone).
    unfold freshArchive, doc. rewrite (proj1 (removeLine_first pre a (b :: post))).
    simpl marked. simpl task. by rewrite Etask. }
  split; [rewrite E1; unfold base; by rewrite <-app_assoc |].
  rewrite E1. set (log1 := applied _). clearbody log1.
  set (N := length (kept pre)).
  assert (base ++ arch = kept pre ++ b :: post ++ arch) as Eshape
    by (unfold base; by rewrite <-app_assoc).
  (* what the second run reads *)
  destruct (sibling_getTask pre a b post arch tk Htk Hfull Hab Hb) as [Htk1 Ht1].
  rewrite <-Eshape in Htk1, Ht1. fold N in Htk1, Ht1.
  set (doc1 := base ++ arch) in *.
  set (tkB := mkTask ps b []) in *.
  assert (length base = N + 1 + length post) as Hbase
    by (unfold base, N; rewrite length_app; simpl; lia).
  assert (forall k p, arch !! k = Some p -> doc1 !! (length base + k) = Some p) as Harch.
  { intros k p Hp. unfold doc1. rewrite lookup_app_r by lia.
    by replace (length base + k - length base) with k by lia. }
  assert (linesOK ps = true) as Hps by (by eapply linesOK_parents).
  assert (singleLine a = true) as Hsa
    by (eapply linesOK_lookup; [exact Hok | exact Ha]).
  assert (singleLine b = true) as Hsb.
  { eapply (linesOK_lookup doc (S (length pre))); [exact Hok |].
    unfold doc. by rewrite (cons_middle a), app_assoc, list_lookup_middle
      by (rewrite length_app; simpl; lia). }
  assert (singleLine a' = true) as Hsa' by (by apply singleLine_replaceBulletTask).
  assert (singleLine b' = true) as Hsb' by (by apply singleLine_replaceBulletTask).
  assert (linesOK doc1 = true) as Hok1.
  { unfold doc1, base, arch. rewrite !linesOK_app, Hps.
    unfold linesOK at 2 3 4. cbn [forallb].
    rewrite Hsb, Hsa', singleLine_heading. simpl.
    assert (linesOK (kept pre) = true) as ->.
    { destruct pre as [|x pre]; [done |]. unfold doc in Hok.
      rewrite linesOK_app in Hok. apply andb_true_iff in Hok as [Hpre _]. exact Hpre. }
    assert (forallb singleLine post = true) as ->; [| done].
    unfold doc in Hok. rewrite linesOK_app in Hok.
    apply andb_true_iff in Hok as [_ Hok]. unfold linesOK in Hok. cbn [forallb] in Hok.
    by apply andb_true_iff in Hok as [_ [_ Hok]%andb_true_iff]. }
  assert (Js.contains a' "- " = true) as Hba'.
  { apply contains_bullet_replaced; [done |]. rewrite <-(getLine_lookup _ _ _ Ha).
    by apply task_line_shows_bullet. }
  assert (Js.contains b' "- " = true) as Hbb'.
  { apply contains_bullet_replaced; [done |].
    apply orb_true_iff in Hb as [Hb|Hb].
    - by apply (contains_shorter _ "- " "[ ] ").
    - by apply (contains_shorter _ "- " "[x] "). }
  assert (wellIndented ps 0) as Hwi.
  { apply (fullChain_wellIndented doc (length pre) tk Htk).
    unfold indentLevel. by rewrite (getLine_lookup _ _ _ Ha). }
  set (d := length ps) in *.
  (* the headings *)
  assert (findLine doc1 (N + 1) "# History" = Some (length base)) as Hh.
  { apply findLine_Some. split; [lia |]. split.
    - replace (length base) with (length base + 0) at 1 by lia. by apply Harch.
    - intros j Hj Hx. unfold doc1 in Hx. rewrite lookup_app_l in Hx by lia.
      unfold base in Hx. rewrite lookup_app_r in Hx by (fold N; lia). fold N in Hx.
      destruct (j - N) as [|k] eqn:Ek; [lia |]. simpl in Hx.
      apply (proj1 (findLine_None _ _ _) Hnone (length pre + 2 + k)); [lia |].
      unfold doc. rewrite lookup_app_r by lia.
      by replace (length pre + 2 + k - length pre) with (S (S k)) by lia. }
  assert (findLine doc1 (length base + 1) ("## " +:+ getLocalDateString now) = Some (length base + 1)) as HT.
  { apply findLine_Some. split; [lia |]. split; [by apply Harch | lia]. }
  (* the walk *)
  assert (doc1 !! (length base + 1 + 1 + d) = Some a') as Hentry.
  { replace (length base + 1 + 1 + d) with (length base + (2 + d)) by lia.
    apply Harch. unfold arch. simpl. rewrite lookup_app_r by done.
    by replace (d - length ps) with 0 by (unfold d; lia). }
  assert (length doc1 = length base + 1 + 1 + d + 1) as Hlen.
  { unfold doc1, arch. rewrite !length_app. simpl. unfold d. lia. }
  assert (locate doc1 (length base + 1) (markAsCompleted tkB) = (length doc1, d)) as Hloc.
  { unfold locate. simpl parents. fold ps.
    rewrite (matchParents_block doc1 ps (length base + 1 + 1) 0); [| | done].
    - fold d. simpl. f_equal.
      eapply firstFalse_unique; [apply endOfList_firstFalse |].
      split; [lia |]. split.
      + intros i Hi. assert (i = length base + 1 + 1 + d) as -> by lia.
        unfold listGoesOn, isTheTask, indentLevel.
        rewrite (isArchiveTask_bullet doc1 _ a') by done.
        rewrite (getLine_lookup _ _ _ Hentry).
        unfold a' at 1 2. rewrite leadingTabs_replaceBulletTask. fold a'.
        rewrite <-Hfull. fold ps d. rewrite Nat.leb_refl, Nat.eqb_refl. fold b'.
        by rewrite Hdiff.
      + unfold listGoesOn.
        destruct (isArchiveTask doc1 (length doc1)) eqn:Hx; [| done].
        apply isArchiveTask_lt in Hx. lia.
    - intros k p Hp. replace (length base + 1 + 1 + k) with (length base + (2 + k)) by lia.
      apply Harch. unfold arch. simpl. rewrite lookup_app_l; [done |]. by eapply lookup_lt_Some. }
  assert (isTheTask doc1 (task (markAsCompleted tkB)) d (length doc1) = false) as Hnot.
  { unfold isTheTask. rewrite getLine_ge by done. simpl task. fold b'.
    rewrite not_same_as_empty by done. apply andb_false_r. }
  rewrite (archiveTask_lines now (mkEditor doc1 (mkPos N col) log1) true tkB Ht1 Htk1).
  simpl lines. simpl cursor. simpl line. unfold allChanges. simpl marked.
  rewrite (edits_insert now doc1 N true (markAsCompleted tkB) (length base) (length base + 1)
             (length doc1) d); try done.
  simpl parents. simpl task. fold ps b'.
  replace (drop d ps) with (@nil string) by (unfold d; by rewrite drop_all).
  simpl app at 1.
  assert (doc1 <> []) as Hne by (intros E; rewrite E in Hlen; simpl in Hlen; lia).
  pose proof (insertAfter_last doc1 [b'] Hne) as Eins. unfold Host.lastLine in Eins.
  rewrite Eins, Eshape.
  replace ((kept pre ++ b :: post ++ arch) ++ [b'])
    with (kept pre ++ b :: (post ++ arch ++ [b']))
    by (by rewrite <-(app_assoc (kept pre)), <-app_comm_cons, <-(app_assoc post)).
  unfold N. rewrite removeLine_kept. unfold arch. by rewrite <-!app_assoc.
Qed.

End Siblings.

(** * The claims *)

(** C9. When the cursor line carries neither the unchecked nor the checked
    task marker, either command returns the editor as it received it: the
    document is unchanged, no transaction is logged, and nothing fails. *)
Theorem not_a_task_is_noop (now : Date) (e : Editor) (completeTask : bool) :
  Js.contains (Host.getLine (lines e) (line (cursor e))) "- [ ] " = false ->
  Js.contains (Host.getLine (lines e) (line (cursor e))) "- [x] " = false ->
  archiveTask now e completeTask = e.
Proof.
  intros H1 H2. unfold archiveTask, isBulletTask. rewrite H1, H2.
  by rewrite andb_false_r.
Qed.

Lemma not_a_task_is_noop_witness :
  archiveTask day (editorOf ["# Notes"; "plain text"] 1 3) true
  = editorOf ["# Notes"; "plain text"] 1 3.
Proof. apply not_a_task_is_noop; reflexivity. Defined.

(** The transaction alone does not keep the cursor: in a buffer that throws
    the cursor to the start of the document it is there after the
    transaction of a run, and it is the [setCursor] that ends the run that
    brings it back. *)
Lemma transaction_moves_cursor :
  cursor (Host.transaction (jumpyEditorOf ["- [ ] A"; "- [ ] B"] 1 2)
            (allChanges day ["- [ ] A"; "- [ ] B"] 1 true (mkTask [] "- [ ] B" [])))
  = mkPos 0 0 /\
  cursor (archiveTask day (jumpyEditorOf ["- [ ] A"; "- [ ] B"] 1 2) true) = mkPos 1 2.
Proof. by vm_compute. Qed.

(** C8. On a recognized task line either command applies exactly one
    transaction, holding every change of the run, and leaves the cursor where
    it was, wherever the buffer puts the cursor when it applies the
    transaction: the run ends by setting the cursor to the position it read
    at the start. *)
Theorem one_transaction_cursor_kept (now : Date) (e : Editor) (completeTask : bool) :
  isBulletTask (lines e) (line (cursor e)) = true ->
  exists tk,
    getTask (lines e) (line (cursor e)) = Some tk /\
    let changes := allChanges now (lines e) (line (cursor e)) completeTask tk in
    applied (archiveTask now e completeTask) = applied e ++ [changes] /\
    lines (archiveTask now e completeTask) = Host.applyTransaction (lines e) changes /\
    cursor (archiveTask now e completeTask) = cursor e.
Proof.
  intros H. destruct (archiveTask_run now e completeTask H) as (tk & Htk & ->).
  by exists tk.
Qed.

Lemma one_transaction_cursor_kept_witness :
  exists tk,
    getTask ["- [ ] A"; "- [ ] B"] 1 = Some tk /\
    let changes := allChanges day ["- [ ] A"; "- [ ] B"] 1 true tk in
    applied (archiveTask day (jumpyEditorOf ["- [ ] A"; "- [ ] B"] 1 2) true) = [] ++ [changes] /\
    lines (archiveTask day (jumpyEditorOf ["- [ ] A"; "- [ ] B"] 1 2) true)
      = Host.applyTransaction ["- [ ] A"; "- [ ] B"] changes /\
    cursor (archiveTask day (jumpyEditorOf ["- [ ] A"; "- [ ] B"] 1 2) true) = mkPos 1 2.
Proof.
  apply (one_transaction_cursor_kept day (jumpyEditorOf ["- [ ] A"; "- [ ] B"] 1 2) true).
  reflexivity.
Defined.

(** C2. Completing task B of the two-line document ["- [ ] A"; tab "- [ ] B"]
    with no History section gives the document made of line A followed by
    the History heading, today's heading, the bare bullet of A and the
    checked, still indented B: the source line 1 is gone. *)
Theorem complete_nested_example (now : Date) (c : nat) :
  lines (completeTaskCommand now (editorOf ["- [ ] A"; T +:+ "- [ ] B"] 1 c))
  = ["- [ ] A"; "# History"; "## " +:+ getLocalDateString now; "- A"; T +:+ "- [x] B"].
Proof.
  unfold completeTaskCommand.
  erewrite archiveTask_lines; [| reflexivity | reflexivity].
  by rewrite run_new_section.
Qed.

(** C3. [isSameTask] compares what [stripTask] leaves of each line, and
    [stripTask] removes the surrounding white space and then one marker at
    most: the trimmed line is one of the three markers, or nothing, followed
    by the result; a checkbox marker is removed whole, and a bullet is
    removed whenever the trimmed line starts with one.  The live line of
    "Buy milk" matches its archived, checked and indented form, and does not
    match "Buy bread". *)
Theorem isSameTask_normalizes :
  (forall a b, isSameTask a b = true <-> stripTask a = stripTask b) /\
  (forall s, exists m, m ∈ ["- [ ] "; "- [x] "; "- "; ""] /\ Js.trim s = m +:+ stripTask s) /\
  (forall s, Js.startsWith (Js.trim s) "- [ ] " = true -> Js.trim s = "- [ ] " +:+ stripTask s) /\
  (forall s, Js.startsWith (Js.trim s) "- [x] " = true -> Js.trim s = "- [x] " +:+ stripTask s) /\
  (forall s, Js.startsWith (Js.trim s) "- " = true ->
             exists m, m ∈ patterns /\ Js.trim s = m +:+ stripTask s) /\
  (forall s, Js.startsWith (Js.trim s) "- " = false -> stripTask s = Js.trim s) /\
  isSameTask "- [ ] Buy milk" "  - [x] Buy milk" = true /\
  isSameTask "- [ ] Buy milk" "- [ ] Buy bread" = false.
Proof.
  assert (forall s, Js.startsWith (Js.trim s) "- [ ] " = true ->
                    Js.trim s = "- [ ] " +:+ stripTask s) as H1.
  { intros s H. unfold stripTask, patterns, stripFirst. rewrite H.
    by apply startsWith_split. }
  assert (forall s, Js.startsWith (Js.trim s) "- [x] " = true ->
                    Js.trim s = "- [x] " +:+ stripTask s) as H2.
  { intros s H. unfold stripTask, patterns, stripFirst.
    destruct (Js.startsWith (Js.trim s) "- [ ] ") eqn:E.
    - apply startsWith_split in E, H. rewrite E in H at 1. done.
    - rewrite H. by apply startsWith_split. }
  assert (forall s, Js.startsWith (Js.trim s) "- " = true ->
                    exists m, m ∈ patterns /\ Js.trim s = m +:+ stripTask s) as H3.
  { intros s H. unfold patterns.
    destruct (Js.startsWith (Js.trim s) "- [ ] ") eqn:E1.
    { exists "- [ ] ". split; [apply list_elem_of_In; simpl; tauto | by apply H1]. }
    destruct (Js.startsWith (Js.trim s) "- [x] ") eqn:E2.
    { exists "- [x] ". split; [apply list_elem_of_In; simpl; tauto | by apply H2]. }
    exists "- ". split; [apply list_elem_of_In; simpl; tauto |].
    unfold stripTask, patterns, stripFirst. rewrite E1, E2, H.
    by apply startsWith_split. }
  assert (forall s, Js.startsWith (Js.trim s) "- " = false -> stripTask s = Js.trim s) as H4.
  { intros s H. unfold stripTask, patterns, stripFirst.
    destruct (Js.startsWith (Js.trim s) "- [ ] ") eqn:E1.
    { apply (startsWith_shorter _ "- " "[ ] ") in E1. congruence. }
    destruct (Js.startsWith (Js.trim s) "- [x] ") eqn:E2.
    { apply (startsWith_shorter _ "- " "[x] ") in E2. congruence. }
    by rewrite H. }
  split; [intros a b; apply String.eqb_eq |].
  split; [| by repeat split].
  intros s. destruct (Js.startsWith (Js.trim s) "- ") eqn:E.
  - destruct (H3 s E) as (m & Hm & Hs). exists m. split; [| done].
    unfold patterns in Hm. apply list_elem_of_In in Hm. apply list_elem_of_In.
    simpl in *. tauto.
  - exists "". split; [apply list_elem_of_In; simpl; tauto |]. by rewrite H4.
Qed.

(** C1, at the input where it fails.  Progress Task and then Complete Task
    on the one-task document leave two entries for the task in today's
    subsection, the in-progress one and the checked one, because the line
    marked in progress does not normalize to the task's text. *)
Theorem progress_then_complete_duplicates :
  lines (completeTaskCommand day (progressTaskCommand day (editorOf ["- [ ] X"] 0 0)))
  = [""; "# History"; "## 2024-05-07"; "- [/] X"; "- [x] X"] /\
  stripTask "- [/] X" = "[/] X" /\
  isSameTask "- [/] X" "- [x] X" = false.
Proof. by vm_compute. Qed.

(** C7, as the claim states it, fails for a checked ancestor: the line is
    kept with its marker. *)
Lemma checked_ancestor_not_rewritten :
  parents (newTask ["- [x] A"] (T +:+ "- [ ] B") []) <> ["- A"].
Proof. by vm_compute. Qed.

(** C7, amended.  The constructor keeps the number and order of the
    ancestors.  An ancestor made of leading white space [ws] and a rest that
    starts with the unchecked marker is rewritten to [ws], a dash, and what
    followed the marker; any other ancestor, a checked one included, is kept
    as it is. *)
Theorem newTask_rewrites_unchecked (ps : list string) (t : string) (cs : list string)
    (i : nat) (ws rest : string) :
  Js.leadingSpace ws = ws ->
  Js.leadingSpace rest = "" ->
  ps !! i = Some (ws +:+ rest) ->
  length (parents (newTask ps t cs)) = length ps /\
  parents (newTask ps t cs) !! i =
    Some (if Js.startsWith rest "- [ ]" then ws +:+ "-" +:+ Js.slice 5 rest else ws +:+ rest) /\
  (Js.startsWith rest "- [x]" = true -> parents (newTask ps t cs) !! i = Some (ws +:+ rest)).
Proof.
  intros Hws Hrest Hi. unfold newTask. simpl parents.
  split; [by rewrite length_map |].
  rewrite list_lookup_fmap, Hi. simpl.
  rewrite (replaceBulletTask_indent "-" ws rest Hws Hrest).
  split; [done |]. intros Hx.
  destruct (Js.startsWith rest "- [ ]") eqn:E; [| done].
  apply startsWith_split in E, Hx. rewrite E in Hx at 1. done.
Qed.

Lemma newTask_rewrites_unchecked_witness :
  length (parents (newTask ["- [x] P"; T +:+ "- [ ] Q"] "t" [])) = 2 /\
  parents (newTask ["- [x] P"; T +:+ "- [ ] Q"] "t" []) !! 1 = Some (T +:+ "-" +:+ " Q") /\
  (Js.startsWith "- [ ] Q" "- [x]" = true ->
   parents (newTask ["- [x] P"; T +:+ "- [ ] Q"] "t" []) !! 1 = Some (T +:+ "- [ ] Q")).
Proof.
  apply (newTask_rewrites_unchecked ["- [x] P"; T +:+ "- [ ] Q"] "t" [] 1 T "- [ ] Q");
    reflexivity.
Defined.

(** C10. The History heading is searched below the task line only.  When the
    one line equal to the heading stands at or above the task line, a run
    does not use it: it appends a History heading, today's heading and the
    rendered task at the end of the document (from which Complete Task takes
    the source line out), the old heading stays where it was, and the
    document now has two History headings. *)
Theorem history_above_not_reused (now : Date) (e : Editor) (completeTask : bool) (h : nat) :
  linesOK (lines e) = true ->
  isBulletTask (lines e) (line (cursor e)) = true ->
  h <= line (cursor e) ->
  lines e !! h = Some "# History" ->
  (forall j, lines e !! j = Some "# History" -> j = h) ->
  exists tk,
    getTask (lines e) (line (cursor e)) = Some tk /\
    findLine (lines e) (line (cursor e) + 1) "# History" = None /\
    lines (archiveTask now e completeTask)
    = (if completeTask then removeLine (line (cursor e)) (lines e) else lines e)
      ++ ["# History"; "## " +:+ getLocalDateString now]
      ++ parents tk ++ [task (marked completeTask tk)] /\
    lines (archiveTask now e completeTask) !! h = Some "# History" /\
    countLines "# History" (lines (archiveTask now e completeTask)) = 2.
Proof.
  destruct e as [doc [t c] log mv]. simpl. intros Hok Ht Hh Hdoc Huniq.
  pose proof (isBulletTask_lt _ _ Ht) as Hlt.
  assert (h < t) as Hht.
  { destruct (decide (h = t)) as [->|]; [| lia].
    pose proof (task_line_shows_bullet _ _ Ht) as Hb.
    by rewrite (getLine_lookup _ _ _ Hdoc) in Hb. }
  assert (findLine doc (t + 1) "# History" = None) as Hnone.
  { apply findLine_None. intros j Hj Hx. apply Huniq in Hx. lia. }
  exists (newTask (findParents doc (indentLevel doc t) t (indentLevel doc t) [])
            (Host.getLine doc t) []).
  pose proof (getTask_Some _ _ Ht) as Htk.
  split; [done |]. split; [done |].
  rewrite (archiveTask_lines now (hostEditor doc (mkPos t c) log mv) completeTask _ Ht Htk).
  simpl lines. simpl cursor. simpl line.
  rewrite (run_new_section now doc t completeTask _ Hok Ht Htk Hnone).
  unfold freshArchive. rewrite parents_marked.
  set (tk := newTask _ _ _) in *.
  set (base := if completeTask then removeLine t doc else doc).
  assert (base !! h = Some "# History" /\ forall j, base !! j = Some "# History" -> j = h)
    as [Hbase Hbu].
  { unfold base. destruct completeTask; [| done].
    unfold removeLine. replace (t =? 0) with false by (symmetry; apply Nat.eqb_neq; lia).
    split.
    - rewrite lookup_app_l by (rewrite length_take; lia). by rewrite lookup_take_lt.
    - intros j. destruct (decide (j < t)).
      + rewrite lookup_app_l by (rewrite length_take; lia).
        rewrite lookup_take_lt by done. apply Huniq.
      + rewrite lookup_app_r by (rewrite length_take; lia).
        rewrite length_take, lookup_drop. intros Hx%Huniq. lia. }
  split; [done |]. split.
  - rewrite lookup_app_l; [done |]. by eapply lookup_lt_Some.
  - rewrite !countLines_app, (countLines_unique _ _ h Hbase Hbu).
    rewrite !countLines_cons, decide_True, decide_False by done.
    rewrite (countLines_absent _ (parents tk)).
    + rewrite decide_False; [done |]. intros E.
      pose proof (marked_shows_bullet _ _ _ completeTask Ht Htk) as Hb.
      fold tk in Hb. by rewrite E in Hb.
    + eapply Forall_impl; [by eapply parents_show_bullet |].
      intros p Hp ->. done.
Qed.

Lemma history_above_not_reused_witness :
  exists tk,
    getTask ["# History"; "- [ ] P"; T +:+ "- [ ] X"] 2 = Some tk /\
    findLine ["# History"; "- [ ] P"; T +:+ "- [ ] X"] (2 + 1) "# History" = None /\
    lines (archiveTask day (editorOf ["# History"; "- [ ] P"; T +:+ "- [ ] X"] 2 0) true)
    = removeLine 2 ["# History"; "- [ ] P"; T +:+ "- [ ] X"]
      ++ ["# History"; "## " +:+ getLocalDateString day]
      ++ parents tk ++ [task (marked true tk)] /\
    lines (archiveTask day (editorOf ["# History"; "- [ ] P"; T +:+ "- [ ] X"] 2 0) true) !! 0
    = Some "# History" /\
    countLines "# History"
      (lines (archiveTask day (editorOf ["# History"; "- [ ] P"; T +:+ "- [ ] X"] 2 0) true)) = 2.
Proof.
  apply (history_above_not_reused day
           (editorOf ["# History"; "- [ ] P"; T +:+ "- [ ] X"] 2 0) true 0).
  - reflexivity.
  - reflexivity.
  - simpl. lia.
  - reflexivity.
  - intros [|[|[|j]]]; simpl; intros H; try done.
Defined.

(** C6. [getTask] on a task line always returns a task.  Its parents are the
    lines of a chain resolved by scanning upward: listed from the outermost
    to the innermost, at increasing line numbers above the task, each a task
    line, each the first line above its child that is indented less, with
    indentation growing by exactly one per step up to one less than the
    task's; the returned texts keep that indentation.  The chain ends at
    depth 0 or where the scan stops (start of the document reached, or the
    line found is not a task line, or it is not exactly one level up), and
    what was resolved until then is returned. *)
Theorem getTask_ancestors (doc : list string) (t : nat) :
  isBulletTask doc t = true ->
  exists js tk,
    getTask doc t = Some tk /\
    task tk = Host.getLine doc t /\
    parents tk = map (fun j => replaceBulletTask "-" (Host.getLine doc j)) js /\
    ancestors doc t js /\
    length js <= indentLevel doc t /\
    (forall i j, js !! i = Some j ->
       j < t /\ isBulletTask doc j = true /\
       indentLevel doc j + (length js - i) = indentLevel doc t /\
       nearestShallower doc (default t (js !! S i)) j) /\
    (forall i i' j j', i < i' -> js !! i = Some j -> js !! i' = Some j' ->
       j < j' /\ indentLevel doc j < indentLevel doc j') /\
    (forall i p, parents tk !! i = Some p ->
       Js.leadingTabs p + (length js - i) = indentLevel doc t) /\
    (length js < indentLevel doc t ->
       resolutionStops doc (default t (head js)) /\ 0 < indentLevel doc (default t (head js))).
Proof.
  intros Ht.
  destruct (findParents_ancestors doc (indentLevel doc t) t [] eq_refl) as (js & Hjs & Hanc).
  rewrite app_nil_r in Hjs.
  destruct (ancestors_shape doc t js Hanc) as [Hshape Horder].
  exists js, (newTask (map (Host.getLine doc) js) (Host.getLine doc t) []).
  split; [by rewrite (getTask_Some _ _ Ht), Hjs |].
  split; [done |].
  split; [by unfold newTask; simpl; rewrite map_map |].
  split; [done |].
  assert (length js <= indentLevel doc t) as Hlen.
  { destruct js as [|j js']; [simpl; lia |].
    destruct (Hshape 0 j eq_refl) as (_ & _ & H & _). simpl in *. lia. }
  split; [done |]. split; [done |]. split.
  { intros i i' j j' Hii Hi Hi'. split; [by eapply Horder |].
    destruct (Hshape i j Hi) as (_ & _ & H & _).
    destruct (Hshape i' j' Hi') as (_ & _ & H' & _).
    apply lookup_lt_Some in Hi'. lia. }
  split.
  { intros i p Hp. simpl in Hp. rewrite list_lookup_fmap in Hp.
    destruct (map (Host.getLine doc) js !! i) as [l|] eqn:Hl; [| done].
    injection Hp as <-. rewrite leadingTabs_replaceBulletTask.
    rewrite list_lookup_fmap in Hl.
    destruct (js !! i) as [j|] eqn:Hj; [| done]. injection Hl as <-.
    by destruct (Hshape i j Hj) as (_ & _ & H & _). }
  by apply ancestors_truncated.
Qed.

Lemma getTask_ancestors_witness :
  exists js tk,
    getTask outline 3 = Some tk /\
    task tk = Host.getLine outline 3 /\
    parents tk = map (fun j => replaceBulletTask "-" (Host.getLine outline j)) js /\
    ancestors outline 3 js /\
    length js <= indentLevel outline 3 /\
    (forall i j, js !! i = Some j ->
       j < 3 /\ isBulletTask outline j = true /\
       indentLevel outline j + (length js - i) = indentLevel outline 3 /\
       nearestShallower outline (default 3 (js !! S i)) j) /\
    (forall i i' j j', i < i' -> js !! i = Some j -> js !! i' = Some j' ->
       j < j' /\ indentLevel outline j < indentLevel outline j') /\
    (forall i p, parents tk !! i = Some p ->
       Js.leadingTabs p + (length js - i) = indentLevel outline 3) /\
    (length js < indentLevel outline 3 ->
       resolutionStops outline (default 3 (head js)) /\
       0 < indentLevel outline (default 3 (head js))).
Proof. apply (getTask_ancestors outline 3). reflexivity. Defined.

(** C4, as the claim states it, fails when the ancestor chain of the task is
    cut short (here the parent is a plain bullet, not a task): Complete Task
    on two identical task lines, one after the other, leaves two entries,
    while completing the task once leaves one. *)
Lemma second_completion_duplicates :
  lines (completeTaskCommand day (completeTaskCommand day
           (editorOf ["- P"; T +:+ "- [ ] X"; T +:+ "- [ ] X"] 1 0)))
  = ["- P"; "# History"; "## 2024-05-07"; T +:+ "- [x] X"; T +:+ "- [x] X"] /\
  lines (completeTaskCommand day (editorOf ["- P"; T +:+ "- [ ] X"] 1 0))
  = ["- P"; "# History"; "## 2024-05-07"; T +:+ "- [x] X"] /\
  lines (completeTaskCommand day (completeTaskCommand day
           (editorOf ["- P"; T +:+ "- [ ] X"; T +:+ "- [ ] X"] 1 0)))
  <> lines (completeTaskCommand day (editorOf ["- P"; T +:+ "- [ ] X"] 1 0)).
Proof. by vm_compute. Qed.

(** C4, amended.  Take a task whose ancestor chain is resolved up to depth 0
    (as many parents as the task is deep), and a first Complete Task that
    puts the entry at the task's own depth (it appends it, or overwrites a
    line found under all the parents).  In the document that holds the
    archive edits of that run and the identical task line at the same
    place, Complete Task finds the entry, overwrites it in place with the
    same text and deletes the source line: nothing is added, and the
    document is the one the first run alone produces. *)
Theorem complete_twice_same_archive (now : Date) (e : Editor) (tk : Task) :
  linesOK (lines e) = true ->
  isBulletTask (lines e) (line (cursor e)) = true ->
  getTask (lines e) (line (cursor e)) = Some tk ->
  length (parents tk) = indentLevel (lines e) (line (cursor e)) ->
  placedAtOwnDepth now (lines e) (line (cursor e)) (markAsCompleted tk) ->
  getTask (archivedOnly now (lines e) (line (cursor e)) tk) (line (cursor e)) = Some tk /\
  (exists L,
     line (cursor e) < L /\
     archivedOnly now (lines e) (line (cursor e)) tk !! L = Some (task (markAsCompleted tk)) /\
     allChanges now (archivedOnly now (lines e) (line (cursor e)) tk) (line (cursor e)) true tk
     = [replaceLine (archivedOnly now (lines e) (line (cursor e)) tk) L (task (markAsCompleted tk));
        deleteLine (archivedOnly now (lines e) (line (cursor e)) tk) (line (cursor e)) None]) /\
  lines (archiveTask now
           (mkEditor (archivedOnly now (lines e) (line (cursor e)) tk) (cursor e) (applied e)) true)
  = removeLine (line (cursor e)) (archivedOnly now (lines e) (line (cursor e)) tk) /\
  lines (archiveTask now
           (mkEditor (archivedOnly now (lines e) (line (cursor e)) tk) (cursor e) (applied e)) true)
  = lines (archiveTask now e true).
Proof.
  destruct e as [doc [t col] log mv]. simpl. intros Hok Ht Htk Hfull Hplaced.
  destruct (marked_ok doc t true tk Hok Htk) as [Hps Htask].
  pose proof (marked_shows_bullet doc t tk true Ht Htk) as Hb.
  pose proof (fullChain_wellIndented doc t tk Htk Hfull) as Hwi.
  assert (Js.leadingTabs (task (markAsCompleted tk)) = length (parents tk)) as Hind.
  { change (markAsCompleted tk) with (marked true tk).
    rewrite (indent_marked true tk), (task_getTask _ _ _ Htk). by rewrite Hfull. }
  destruct (archived_state now doc t (markAsCompleted tk) Hok Ht Hps Htask Hb Hwi Hind Hplaced)
    as (E1 & Hagree & Hok' & h & T0 & L & Hh & HT & Hloc & Hentry).
  rewrite withDeletion_false in *. fold (archivedOnly now doc t tk) in *.
  set (doc' := archivedOnly now doc t tk) in *.
  assert (getTask doc' t = Some tk) as Htk'
    by (rewrite <-Htk; apply getTask_ext; intros i Hi; by apply Hagree).
  assert (isBulletTask doc' t = true) as Ht'
    by (rewrite <-Ht; apply isBulletTask_ext; by apply Hagree).
  destruct (second_run now doc' t (markAsCompleted tk) h T0 L Hok' Ht' Htask Hb Hh HT Hloc Hentry Hind)
    as (HtL & Hchanges & Hrun).
  split; [done |]. split; [by exists L |].
  rewrite (archiveTask_lines now (mkEditor doc' (mkPos t col) log) true tk Ht' Htk').
  rewrite (archiveTask_lines now (hostEditor doc (mkPos t col) log mv) true tk Ht Htk).
  simpl. unfold allChanges. simpl marked. by rewrite Hrun, E1.
Qed.

Lemma complete_twice_same_archive_witness :
  lines (archiveTask day
           (mkEditor (archivedOnly day ["- [ ] P"; T +:+ "- [ ] X"] 1
                        (mkTask ["- P"] (T +:+ "- [ ] X") []))
                     (mkPos 1 0) []) true)
  = lines (archiveTask day (editorOf ["- [ ] P"; T +:+ "- [ ] X"] 1 0) true).
Proof.
  apply (complete_twice_same_archive day (editorOf ["- [ ] P"; T +:+ "- [ ] X"] 1 0)
           (mkTask ["- P"] (T +:+ "- [ ] X") [])).
  - reflexivity.
  - reflexivity.
  - reflexivity.
  - reflexivity.
  - intros h T0 L c H. vm_compute in H. discriminate H.
Defined.

(** C5, as the claim states it, fails for siblings whose ancestor chain is
    cut short (the grandparent is a plain bullet): the second sibling does
    not find the parent block of the first and gets a parent line of its
    own. *)
Lemma cut_chain_repeats_parent :
  lines (completeTaskCommand day (completeTaskCommand day
           (editorOf ["- Proj"; T +:+ "- [ ] P"; T +:+ T +:+ "- [ ] A"; T +:+ T +:+ "- [ ] B"] 2 0)))
  = ["- Proj"; T +:+ "- [ ] P"; "# History"; "## 2024-05-07";
     T +:+ "- P"; T +:+ T +:+ "- [x] A"; T +:+ "- P"; T +:+ T +:+ "- [x] B"] /\
  countLines (T +:+ "- P")
    (lines (completeTaskCommand day (completeTaskCommand day
       (editorOf ["- Proj"; T +:+ "- [ ] P"; T +:+ T +:+ "- [ ] A"; T +:+ T +:+ "- [ ] B"] 2 0))))
  <> 1.
Proof. by vm_compute. Qed.

(** C5, amended.
    First part, for every run that finds today's subsection and no line to
    overwrite: the rendered task (the parents not matched, then the task) is
    put in right above the line [L] the walk ends at; from below the last
    matched parent (or today's heading) up to [L] every line is an archived
    line at least as deep as the depth reached, and line [L] is not.  A run
    that creates today's subsection has no list to walk: the task with all
    its parents goes right below the new heading.
    Second part, for two sibling tasks: let the first have its ancestor
    chain resolved up to depth 0 and be archived, by either command, at its
    own depth; let the second, in the document the first run leaves, have
    the same parents, stand above the same History heading, and find no line
    to overwrite.  Then the second run matches every parent (the parent
    block is shared), and appends the task line alone, below the entry of
    the first sibling, with nothing but archived lines at least as deep as
    the siblings between the innermost parent and the new entry. *)
Theorem new_entries_go_last :
  (forall (now : Date) (e : Editor) (b : bool) (tk : Task) (h T0 L c : nat),
     linesOK (lines e) = true ->
     isBulletTask (lines e) (line (cursor e)) = true ->
     getTask (lines e) (line (cursor e)) = Some tk ->
     findLine (lines e) (line (cursor e) + 1) "# History" = Some h ->
     findLine (lines e) (h + 1) ("## " +:+ getLocalDateString now) = Some T0 ->
     locate (lines e) T0 (marked b tk) = (L, c) ->
     isTheTask (lines e) (task (marked b tk)) c L = false ->
     (exists s,
        T0 < s <= L /\
        ((c = 0 /\ s = T0 + 1) \/
         (0 < c /\ isArchiveTask (lines e) (s - 1) = true /\
          indentLevel (lines e) (s - 1) = c - 1 /\
          exists p, parents tk !! (c - 1) = Some p /\
                    isSameTask (Host.getLine (lines e) (s - 1)) p = true)) /\
        (forall i, s <= i < L ->
           isArchiveTask (lines e) i = true /\ c <= indentLevel (lines e) i) /\
        ~ (isArchiveTask (lines e) L = true /\ c <= indentLevel (lines e) L)) /\
     lines (archiveTask now e b)
     = (if b then removeLine (line (cursor e)) else id)
         (insertAfter (L - 1) (drop c (parents tk) ++ [task (marked b tk)]) (lines e)))
  /\
  (forall (now : Date) (e : Editor) (b : bool) (tk : Task),
     linesOK (lines e) = true ->
     isBulletTask (lines e) (line (cursor e)) = true ->
     getTask (lines e) (line (cursor e)) = Some tk ->
     (findLine (lines e) (line (cursor e) + 1) "# History" = None ->
      lines (archiveTask now e b)
      = (if b then removeLine (line (cursor e)) (lines e) else lines e)
          ++ ["# History"; "## " +:+ getLocalDateString now]
          ++ parents tk ++ [task (marked b tk)]) /\
     (forall h,
        findLine (lines e) (line (cursor e) + 1) "# History" = Some h ->
        findLine (lines e) (h + 1) ("## " +:+ getLocalDateString now) = None ->
        lines (archiveTask now e b)
        = (if b then removeLine (line (cursor e)) else id)
            (insertAfter h (["## " +:+ getLocalDateString now]
                              ++ parents tk ++ [task (marked b tk)]) (lines e))))
  /\
  (forall (now : Date) (e : Editor) (bA : bool) (tkA : Task)
          (tB colB : nat) (logB : list (list EditorChange)) (bB : bool) (tkB : Task),
     linesOK (lines e) = true ->
     isBulletTask (lines e) (line (cursor e)) = true ->
     getTask (lines e) (line (cursor e)) = Some tkA ->
     length (parents tkA) = indentLevel (lines e) (line (cursor e)) ->
     placedAtOwnDepth now (lines e) (line (cursor e)) (marked bA tkA) ->
     isBulletTask (lines (archiveTask now e bA)) tB = true ->
     getTask (lines (archiveTask now e bA)) tB = Some tkB ->
     parents tkB = parents tkA ->
     findLine (lines (archiveTask now e bA)) (tB + 1) "# History"
     = findLine (lines (archiveTask now e bA))
         (line (cursor e) + 1 - moved bA (line (cursor e))) "# History" ->
     noOverwrite now (lines (archiveTask now e bA)) tB (marked bB tkB) ->
     exists h T0 s posA L,
       findLine (lines (archiveTask now e bA)) (tB + 1) "# History" = Some h /\
       findLine (lines (archiveTask now e bA)) (h + 1) ("## " +:+ getLocalDateString now)
       = Some T0 /\
       T0 < s /\ s <= posA /\ posA < L /\
       ((length (parents tkA) = 0 /\ s = T0 + 1) \/
        (0 < length (parents tkA) /\
         isArchiveTask (lines (archiveTask now e bA)) (s - 1) = true /\
         indentLevel (lines (archiveTask now e bA)) (s - 1) = length (parents tkA) - 1 /\
         exists p, parents tkA !! (length (parents tkA) - 1) = Some p /\
                   isSameTask (Host.getLine (lines (archiveTask now e bA)) (s - 1)) p = true)) /\
       lines (archiveTask now e bA) !! posA = Some (task (marked bA tkA)) /\
       (forall i, s <= i < L ->
          isArchiveTask (lines (archiveTask now e bA)) i = true /\
          length (parents tkA) <= indentLevel (lines (archiveTask now e bA)) i) /\
       lines (archiveTask now (mkEditor (lines (archiveTask now e bA)) (mkPos tB colB) logB) bB)
       = (if bB then removeLine tB else id)
           (insertAfter (L - 1) [task (marked bB tkB)] (lines (archiveTask now e bA)))).
Proof.
  split; [| split].
  - intros now e b tk h T0 L c. apply insertion_point.
  - intros now e b tk. apply created_section_placement.
  - intros now e bA tkA tB colB logB bB tkB. apply siblings_share_block.
Qed.

Lemma new_entries_go_last_witness :
  exists L,
    lines (archiveTask day
             (mkEditor
                (lines (archiveTask day
                          (editorOf ["- [ ] P"; T +:+ "- [ ] A"; T +:+ "- [ ] B"] 1 0) true))
                (mkPos 1 0) []) true)
    = removeLine 1
        (insertAfter (L - 1) [T +:+ "- [x] B"]
           (lines (archiveTask day
                     (editorOf ["- [ ] P"; T +:+ "- [ ] A"; T +:+ "- [ ] B"] 1 0) true))).
Proof.
  destruct (proj2 (proj2 new_entries_go_last) day
              (editorOf ["- [ ] P"; T +:+ "- [ ] A"; T +:+ "- [ ] B"] 1 0) true
              (mkTask ["- P"] (T +:+ "- [ ] A") [])
              1 0 [] true
              (mkTask ["- P"] (T +:+ "- [ ] B") []))
    as (h & T0 & s & posA & L & _ & _ & _ & _ & _ & _ & _ & _ & Hlines).
  - reflexivity.
  - reflexivity.
  - reflexivity.
  - reflexivity.
  - intros h T0 L c H. vm_compute in H. discriminate H.
  - reflexivity.
  - reflexivity.
  - reflexivity.
  - reflexivity.
  - intros h T0 L c Hh HT Hloc.
    vm_compute in Hh. injection Hh as <-.
    vm_compute in HT. injection HT as <-.
    vm_compute in Hloc. injection Hloc as <- <-.
    reflexivity.
  - exists L. exact Hlines.
Defined.

(** * Further properties of the code *)

(** ** Marking a task *)

Section Marks.

Lemma replaceBulletTask_again (r' r s : string) :
  r = "- [x]" \/ r = "- [/]" ->
  replaceBulletTask r' (replaceBulletTask r s) = replaceBulletTask r s.
Proof.
  intros Hr. induction s as [|c s IH]; [done |].
  destruct (Js.isWhiteSpace c) eqn:Hc.
  - rewrite (replaceBulletTask_space r) by done.
    rewrite replaceBulletTask_space by done. by rewrite IH.
  - rewrite (replaceBulletTask_text r) by done.
    destruct (Js.startsWith (String c s) "- [ ]") eqn:E.
    + destruct Hr as [-> | ->]; cbn [String.append]; by rewrite replaceBulletTask_text.
    + rewrite replaceBulletTask_text by done. by rewrite E.
Qed.

End Marks.

(** ** White space and markers in [stripTask] *)

Section Blanks.

Implicit Types (s w p x : string).

Lemma allSpace_leadingSpace w : allSpace w = true -> Js.leadingSpace w = w.
Proof.
  induction w as [|c w IH]; [done |]. simpl.
  intros [Hc Hw]%andb_true_iff. by rewrite Hc, IH.
Qed.

Lemma trimStart_blank_app w s : allSpace w = true -> Js.trimStart (w +:+ s) = Js.trimStart s.
Proof.
  induction w as [|c w IH]; [done |]. simpl.
  intros [Hc Hw]%andb_true_iff. by rewrite Hc, IH.
Qed.

Lemma trimEnd_blank w : allSpace w = true -> Js.trimEnd w = "".
Proof.
  induction w as [|c w IH]; [done |]. simpl.
  intros [Hc Hw]%andb_true_iff. by rewrite IH, Hc.
Qed.

Lemma trimEnd_app_blank s w : allSpace w = true -> Js.trimEnd (s +:+ w) = Js.trimEnd s.
Proof.
  intros Hw. induction s as [|c s IH]; simpl.
  - by apply trimEnd_blank.
  - by rewrite IH.
Qed.

Lemma trimEnd_app_text p x : Js.trimEnd x <> "" -> Js.trimEnd (p +:+ x) = p +:+ Js.trimEnd x.
Proof.
  intros Hx. induction p as [|c p IH]; [done |]. simpl. rewrite IH.
  destruct (p +:+ Js.trimEnd x) eqn:E; [| done].
  destruct p; [done | discriminate E].
Qed.

Lemma trim_blanks w s w' :
  allSpace w = true -> allSpace w' = true -> Js.trim (w +:+ s +:+ w') = Js.trim s.
Proof.
  intros Hw Hw'. unfold Js.trim. rewrite trimStart_blank_app by done.
  induction s as [|c s IH]; simpl.
  - clear -Hw'. induction w' as [|c w' IH]; [done |]. simpl in *.
    apply andb_true_iff in Hw' as [Hc Hw']. rewrite Hc. by apply IH.
  - destruct (Js.isWhiteSpace c); [done |].
    change (String c (s +:+ w')) with (String c s +:+ w'). by apply trimEnd_app_blank.
Qed.

Lemma append_longer a x : a <> "" -> a +:+ x <> x.
Proof.
  intros Ha E. apply (f_equal String.length) in E. rewrite length_app_str in E.
  destruct a; [done |]. simpl in E. lia.
Qed.

(** What [stripTask] leaves of an indented line that starts with a marker
    and has a description. *)
Lemma stripTask_marker w x :
  allSpace w = true -> allSpace x = false ->
  stripTask (w +:+ "- [ ] " +:+ x) = Js.trimEnd x /\
  stripTask (w +:+ "- [x] " +:+ x) = Js.trimEnd x /\
  stripTask (w +:+ "- [/] " +:+ x) = "[/] " +:+ Js.trimEnd x.
Proof.
  intros Hw Hx.
  assert (Js.trimEnd x <> "") as Hne
    by (intros E; apply trimEnd_allSpace in E; congruence).
  assert (forall p, Js.trimStart (p +:+ x) = p +:+ x ->
                    Js.trim (w +:+ p +:+ x) = p +:+ Js.trimEnd x) as H.
  { intros p Hp. unfold Js.trim. rewrite trimStart_blank_app by done.
    rewrite Hp. by apply trimEnd_app_text. }
  unfold stripTask. rewrite (H "- [ ] "), (H "- [x] "), (H "- [/] ") by done.
  cbn. by rewrite startsWith_empty.
Qed.

End Blanks.

(** ** Single edits *)

Section SingleEdits.

Implicit Types (doc : list string) (n : nat) (txt : string).

Lemma applyTransaction_one doc (c : EditorChange) :
  Host.applyTransaction doc [c] = Host.replaceRange doc (Host.resolve doc c).
Proof. done. Qed.

Lemma take_S_getLine doc n :
  n < length doc -> take n doc ++ [Host.getLine doc n] = take (S n) doc.
Proof.
  intros Hn. destruct (lookup_lt_is_Some_2 doc n Hn) as [l Hl].
  rewrite (getLine_lookup _ _ _ Hl). by rewrite (take_S_r _ _ _ Hl).
Qed.

End SingleEdits.

(** ** The date string *)

Section Dates.

Lemma ofNat_inj (a b : nat) : Js.ofNat a = Js.ofNat b -> a = b.
Proof.
  unfold Js.ofNat. intros E.
  apply (f_equal NilEmpty.uint_of_string) in E. rewrite !NilEmpty.usu in E.
  injection E as E. apply (f_equal Nat.of_uint) in E.
  by rewrite !Unsigned.of_to in E.
Qed.

Lemma append_cancel_tail (a b s t : string) :
  String.length s = String.length t -> a +:+ s = b +:+ t -> a = b /\ s = t.
Proof.
  intros Hlen. revert b. induction a as [|x a IH]; intros [|y b] E; simpl in E.
  - done.
  - apply (f_equal String.length) in E. simpl in E. rewrite length_app_str in E. lia.
  - apply (f_equal String.length) in E. simpl in E. rewrite length_app_str in E. lia.
  - injection E as -> E. destruct (IH b E) as [-> ->]. done.
Qed.

Lemma forallb_below (P : nat -> bool) (lo n k : nat) :
  forallb P (seq lo n) = true -> lo <= k < lo + n -> P k = true.
Proof.
  intros H Hk. rewrite forallb_forall in H. apply H, in_seq. lia.
Qed.

Lemma padStart2_length (k : nat) :
  k < 100 -> String.length (Js.padStart2 (Js.ofNat k)) = 2.
Proof.
  intros Hk. apply Nat.eqb_eq.
  apply (forallb_below (fun k => String.length (Js.padStart2 (Js.ofNat k)) =? 2) 0 100);
    [by vm_compute | lia].
Qed.

Lemma padStart2_inj (a b : nat) :
  a < 100 -> b < 100 ->
  Js.padStart2 (Js.ofNat a) = Js.padStart2 (Js.ofNat b) -> a = b.
Proof.
  intros Ha Hb E.
  pose proof (forallb_below
    (fun a => forallb (fun b =>
       implb (String.eqb (Js.padStart2 (Js.ofNat a)) (Js.padStart2 (Js.ofNat b))) (a =? b))
       (seq 0 100)) 0 100 a) as H.
  cbv beta in H. specialize (H ltac:(by vm_compute) ltac:(lia)).
  pose proof (forallb_below _ 0 100 b H ltac:(lia)) as H'. cbv beta in H'.
  apply String.eqb_eq in E. rewrite E in H'. simpl in H'. by apply Nat.eqb_eq.
Qed.

Lemma year_length (y : nat) : 1000 <= y < 10 * 1000 -> String.length (Js.ofNat y) = 4.
Proof.
  intros Hy. apply Nat.eqb_eq.
  apply (forallb_below (fun y => String.length (Js.ofNat y) =? 4) 1000 (9 * 1000));
    [by vm_compute | lia].
Qed.

Lemma getLocalDateString_eq (d d' : Date) :
  getMonth d < 12 -> getMonth d' < 12 ->
  getDate d <= 31 -> getDate d' <= 31 ->
  getLocalDateString d = getLocalDateString d' -> d = d'.
Proof.
  intros Hm Hm' Hd Hd' E. unfold getLocalDateString in E.
  destruct d as [y m dd], d' as [y' m' dd']. simpl in *.
  apply append_cancel_tail in E as [Ey E].
  2:{ cbn [String.append String.length]. rewrite !length_app_str. cbn [String.append String.length].
      rewrite !padStart2_length by lia. done. }
  cbn [String.append] in E. injection E as E.
  apply append_cancel_tail in E as [Em E].
  2:{ cbn [String.append String.length]. rewrite !padStart2_length by lia. done. }
  cbn [String.append] in E. injection E as E.
  apply ofNat_inj in Ey. apply padStart2_inj in Em; [| lia | lia].
  apply padStart2_inj in E; [| lia | lia].
  f_equal; lia.
Qed.

End Dates.

(** ** The shape of a run *)

Section Shape.

Variable now : Date.

Implicit Types (doc : list string) (t : nat) (tk : Task).

Lemma block_last (pre ps : list string) (x : string) :
  (pre ++ ps ++ [x]) !! (length pre + length ps) = Some x.
Proof.
  rewrite app_assoc, <-length_app. apply list_lookup_middle. done.
Qed.

(** What the archive edits of a run do to the document: a block of lines
    goes in below the task line, or one line below it is overwritten.
    Either way the document then has both headings below the task line and
    the archived task line below them. *)
Lemma archive_edits_shape doc t (b : bool) tk :
  linesOK doc = true ->
  isBulletTask doc t = true ->
  getTask doc t = Some tk ->
  exists doc1 h T0 pos,
    Host.applyTransaction doc (allChanges now doc t b tk)
    = (if b then removeLine t doc1 else doc1) /\
    findLine doc1 (t + 1) "# History" = Some h /\
    findLine doc1 (h + 1) ("## " +:+ getLocalDateString now) = Some T0 /\
    T0 < pos /\ doc1 !! pos = Some (task (marked b tk)) /\
    ((exists n heads c,
        t <= n < length doc /\
        (heads = [] \/ heads = ["## " +:+ getLocalDateString now] \/
         heads = ["# History"; "## " +:+ getLocalDateString now]) /\
        c <= length (parents tk) /\
        doc1 = insertAfter n (heads ++ drop c (parents tk) ++ [task (marked b tk)]) doc) \/
     (exists L,
        t < L < length doc /\
        isSameTask (Host.getLine doc L) (task (marked b tk)) = true /\
        doc1 = <[L:=task (marked b tk)]> doc)).
Proof.
  intros Hok Ht Htk. pose proof (isBulletTask_lt _ _ Ht) as Hlt.
  destruct (marked_ok doc t b tk Hok Htk) as [Hps Htask].
  pose proof (marked_shows_bullet doc t tk b Ht Htk) as Hb.
  set (today := getLocalDateString now).
  destruct (findLine doc (t + 1) "# History") as [h|] eqn:Hh.
  2:{ set (X := ["# History"; "## " +:+ today] ++ drop 0 (parents tk) ++ [task (marked b tk)]).
      set (n := Host.lastLine doc).
      assert (doc <> []) as Hne by (intros ->; simpl in Hlt; lia).
      assert (n < length doc /\ S n = length doc) as [Hn HSn] by (unfold n, Host.lastLine; lia).
      exists (insertAfter n X doc), (S n), (S n + 1), (S n + (2 + length (parents tk))).
      split; [| split; [| split; [| split; [lia | split]]]].
      - rewrite (run_new_section now doc t b tk Hok Ht Htk Hh).
        unfold n. rewrite insertAfter_last by done. unfold freshArchive. rewrite parents_marked.
        destruct b; [| done]. by rewrite removeLine_app.
      - apply findLine_Some. split; [lia |]. split.
        + rewrite <-(Nat.add_0_r (S n)). by apply insertAfter_block.
        + intros j Hj. rewrite insertAfter_lookup by lia.
          apply (proj1 (findLine_None _ _ _) Hh). lia.
      - apply findLine_Some. split; [lia |]. split; [by apply insertAfter_block | lia].
      - apply insertAfter_block; [done |]. unfold X.
        apply (block_last ["# History"; "## " +:+ today] (parents tk)).
      - left. exists n, ["# History"; "## " +:+ today], 0.
        repeat split; try lia; tauto. }
  destruct (findLine doc (h + 1) ("## " +:+ today)) as [T0|] eqn:HT.
  2:{ set (X := ["## " +:+ today] ++ drop 0 (parents tk) ++ [task (marked b tk)]).
      pose proof Hh as (H1 & H2 & _)%findLine_Some. apply lookup_lt_Some in H2.
      exists (insertAfter h X doc), h, (S h + 0), (S h + (1 + length (parents tk))).
      split; [| split; [| split; [| split; [lia | split]]]].
      - unfold allChanges.
        rewrite (edits_new_today now doc t b (marked b tk) h Hok Ht Hps Htask Hh HT).
        rewrite parents_marked. by destruct b.
      - apply (findLine_agree doc _ _ _ h); [| done].
        intros j Hj. by apply insertAfter_lookup.
      - apply findLine_Some. split; [lia |]. split; [by apply insertAfter_block | lia].
      - apply insertAfter_block; [done |].
        apply (block_last ["## " +:+ today] (parents tk)).
      - left. exists h, ["## " +:+ today], 0.
        repeat split; try lia; tauto. }
  destruct (found_order now doc t h T0 Hh HT) as (Hth & HhT & HTlen).
  destruct (locate doc T0 (marked b tk)) as [L c] eqn:Hloc.
  destruct (locate_bounds doc T0 (marked b tk) L c HTlen Hloc) as [HL Hc].
  rewrite parents_marked in Hc.
  destruct (isTheTask doc (task (marked b tk)) c L) eqn:Hthe.
  - destruct (edits_replace now doc t b (marked b tk) h T0 L c Hok Ht Htask Hb Hh HT Hloc Hthe)
      as (H1 & H2 & _ & H4).
    assert (forall j, j <= T0 -> <[L:=task (marked b tk)]> doc !! j = doc !! j) as Hag
      by (intros j Hj; apply list_lookup_insert_ne; lia).
    exists (<[L:=task (marked b tk)]> doc), h, T0, L.
    split; [unfold allChanges; rewrite H4; by destruct b |].
    split; [apply (findLine_agree doc _ _ _ h); [intros j Hj; apply Hag; lia | done] |].
    split; [by apply (findLine_agree doc _ _ _ T0) |].
    split; [lia |]. split; [by apply list_lookup_insert_eq |].
    right. exists L. split; [lia |]. split; [| done].
    unfold isTheTask in Hthe. by apply andb_true_iff in Hthe as [_ ?].
  - set (X := [] ++ drop c (parents tk) ++ [task (marked b tk)]).
    assert (forall j, j <= T0 -> insertAfter (L - 1) X doc !! j = doc !! j) as Hag
      by (intros j Hj; apply insertAfter_lookup; lia).
    exists (insertAfter (L - 1) X doc), h, T0, (S (L - 1) + length (drop c (parents tk))).
    split; [| split; [| split; [| split; [lia | split]]]].
    + unfold allChanges.
      rewrite (edits_insert now doc t b (marked b tk) h T0 L c Hok Ht Hps Htask Hh HT Hloc Hthe).
      rewrite parents_marked. by destruct b.
    + apply (findLine_agree doc _ _ _ h); [intros j Hj; apply Hag; lia | done].
    + by apply (findLine_agree doc _ _ _ T0).
    + apply insertAfter_block; [lia |]. apply (block_last [] (drop c (parents tk))).
    + left. exists (L - 1), [], c. repeat split; try lia; tauto.
Qed.

End Shape.

(** ** Properties of the task, the predicates and the edits *)

(** X1. A task that has been marked, as completed or as in progress, is not
    changed by marking it again, either way; marking keeps the leading tabs
    of the task line. *)
Theorem marking_is_final (tk : Task) :
  markAsCompleted (markAsCompleted tk) = markAsCompleted tk /\
  markAsInProgress (markAsCompleted tk) = markAsCompleted tk /\
  markAsCompleted (markAsInProgress tk) = markAsInProgress tk /\
  markAsInProgress (markAsInProgress tk) = markAsInProgress tk /\
  Js.leadingTabs (task (markAsCompleted tk)) = Js.leadingTabs (task tk) /\
  Js.leadingTabs (task (markAsInProgress tk)) = Js.leadingTabs (task tk).
Proof.
  unfold markAsCompleted, markAsInProgress. simpl.
  rewrite !replaceBulletTask_again by tauto.
  rewrite !leadingTabs_replaceBulletTask. done.
Qed.

(** X2. For a task line made of white space, the unchecked marker followed
    by a space, and a description that is not blank: the completed form is
    the same task as the line, while the in-progress form is the same task
    neither as the line nor as the completed form (only as itself), since
    [stripTask] has no pattern for the in-progress marker. *)
Theorem marked_entry_sameness (tk : Task) (w x : string) :
  allSpace w = true -> allSpace x = false ->
  task tk = w +:+ "- [ ] " +:+ x ->
  task (markAsCompleted tk) = w +:+ "- [x] " +:+ x /\
  task (markAsInProgress tk) = w +:+ "- [/] " +:+ x /\
  isSameTask (task (markAsCompleted tk)) (task tk) = true /\
  isSameTask (task (markAsInProgress tk)) (task tk) = false /\
  isSameTask (task (markAsInProgress tk)) (task (markAsCompleted tk)) = false /\
  isSameTask (task (markAsInProgress tk)) (task (markAsInProgress tk)) = true.
Proof.
  intros Hw Hx Ht.
  assert (forall r, replaceBulletTask r (task tk) = w +:+ r +:+ " " +:+ x) as Hr.
  { intros r. rewrite Ht, replaceBulletTask_indent;
      [done | by apply allSpace_leadingSpace | done]. }
  destruct (stripTask_marker w x Hw Hx) as (H0 & H1 & H2).
  unfold markAsCompleted, markAsInProgress. cbn [task]. rewrite !Hr.
  split; [done |]. split; [done |].
  unfold isSameTask. rewrite Ht.
  change (w +:+ "- [x]" +:+ " " +:+ x) with (w +:+ "- [x] " +:+ x).
  change (w +:+ "- [/]" +:+ " " +:+ x) with (w +:+ "- [/] " +:+ x).
  rewrite H0, H1, H2. rewrite String.eqb_refl.
  split; [done |]. split; [| split; [| by rewrite String.eqb_refl]];
    apply String.eqb_neq, append_longer; done.
Qed.

Lemma marked_entry_sameness_witness :
  task (markAsCompleted (mkTask [] (T +:+ "- [ ] Buy milk") [])) = T +:+ "- [x] Buy milk" /\
  task (markAsInProgress (mkTask [] (T +:+ "- [ ] Buy milk") [])) = T +:+ "- [/] Buy milk" /\
  isSameTask (T +:+ "- [x] Buy milk") (T +:+ "- [ ] Buy milk") = true /\
  isSameTask (T +:+ "- [/] Buy milk") (T +:+ "- [ ] Buy milk") = false /\
  isSameTask (T +:+ "- [/] Buy milk") (T +:+ "- [x] Buy milk") = false /\
  isSameTask (T +:+ "- [/] Buy milk") (T +:+ "- [/] Buy milk") = true.
Proof.
  apply (marked_entry_sameness (mkTask [] (T +:+ "- [ ] Buy milk") []) T "Buy milk");
    reflexivity.
Defined.

(** X3. [stripTask], and with it [isSameTask] in either argument, ignores
    white space of any kind before and after a line. *)
Theorem sameness_ignores_blanks (w s w' s' : string) :
  allSpace w = true -> allSpace w' = true ->
  stripTask (w +:+ s +:+ w') = stripTask s /\
  isSameTask (w +:+ s +:+ w') s' = isSameTask s s' /\
  isSameTask s' (w +:+ s +:+ w') = isSameTask s' s.
Proof.
  intros Hw Hw'. unfold isSameTask, stripTask. by rewrite trim_blanks.
Qed.

Lemma sameness_ignores_blanks_witness :
  stripTask ("  " +:+ "- [ ] a" +:+ T) = stripTask "- [ ] a" /\
  isSameTask ("  " +:+ "- [ ] a" +:+ T) "- a" = isSameTask "- [ ] a" "- a" /\
  isSameTask "- a" ("  " +:+ "- [ ] a" +:+ T) = isSameTask "- a" "- [ ] a".
Proof. apply (sameness_ignores_blanks "  " "- [ ] a" T "- a"); reflexivity. Defined.

(** X4. Every task line is a bullet line, so [isArchiveTask] is [isBullet];
    past the last line no line is an archived line and [getTask] returns
    nothing. *)
Theorem isArchiveTask_is_isBullet (doc : list string) (n : nat) :
  (isBulletTask doc n = true -> isBullet doc n = true) /\
  isArchiveTask doc n = isBullet doc n /\
  (Host.lastLine doc < n -> isArchiveTask doc n = false /\ getTask doc n = None).
Proof.
  assert (isBulletTask doc n = true -> isBullet doc n = true) as H.
  { unfold isBulletTask, isBullet. intros [Hn Hc]%andb_true_iff. rewrite Hn. simpl.
    apply orb_true_iff in Hc as [Hc | Hc].
    - by apply (contains_shorter _ "- " "[ ] ").
    - by apply (contains_shorter _ "- " "[x] "). }
  split; [done |]. split.
  - unfold isArchiveTask. destruct (isBullet doc n) eqn:E; [done |].
    destruct (isBulletTask doc n) eqn:E'; [| done]. specialize (H eq_refl). congruence.
  - intros Hn. unfold isArchiveTask, getTask, isBullet, isBulletTask.
    apply Nat.leb_gt in Hn. by rewrite Hn.
Qed.

(** X5. [deleteLine] applied alone, with a range of lines inside the
    document: from line 1 on the lines of the range go away with the line
    break before them; a range that starts at line 0 leaves an empty first
    line behind. *)
Theorem deleteLine_range (doc : list string) (fromLine : nat) (toLine : option nat) :
  linesOK doc = true ->
  fromLine <= default fromLine toLine < length doc ->
  Host.applyTransaction doc [deleteLine doc fromLine toLine]
  = if fromLine =? 0 then "" :: drop (S (default fromLine toLine)) doc
    else take fromLine doc ++ drop (S (default fromLine toLine)) doc.
Proof.
  intros Hok [Hle Hlt]. rewrite applyTransaction_one.
  set (last := default fromLine toLine) in *.
  assert (Host.resolve doc (deleteLine doc fromLine toLine)
          = Host.mkResolved
              (if fromLine =? 0 then lineStartPosition 0 else lineEndPosition doc (fromLine - 1))
              (lineEndPosition doc last) "") as ->.
  { unfold Host.resolve, deleteLine. cbn [from to text]. f_equal.
    - destruct (fromLine =? 0) eqn:E.
      + apply clip_lineStart. lia.
      + apply Nat.eqb_neq in E. apply clip_lineEnd. lia.
    - unfold last. destruct toLine as [k|]; simpl in *; by apply clip_lineEnd. }
  unfold Host.replaceRange. cbn [Host.rfrom Host.rto Host.rtext].
  destruct (fromLine =? 0) eqn:E.
  - cbn [line ch lineStartPosition lineEndPosition]. rewrite slice_length. done.
  - apply Nat.eqb_neq in E.
    cbn [line ch lineStartPosition lineEndPosition].
    rewrite sliceTo_length, slice_length. cbn [String.append]. rewrite app_empty_r.
    rewrite splitLines_single by (by apply linesOK_getLine).
    rewrite app_assoc, take_S_getLine by lia.
    by replace (S (fromLine - 1)) with fromLine by lia.
Qed.

Lemma deleteLine_range_witness :
  Host.applyTransaction ["a"; "b"; "c"; "d"] [deleteLine ["a"; "b"; "c"; "d"] 1 (Some 2)]
  = ["a"; "d"].
Proof.
  apply (deleteLine_range ["a"; "b"; "c"; "d"] 1 (Some 2)); [reflexivity | simpl; lia].
Defined.

(** X6. [replaceLine] applied alone to a line of the document puts the
    lines of the text in its place; with a text of one line it changes that
    line only and keeps the number of lines. *)
Theorem replaceLine_alone (doc : list string) (n : nat) (txt : string) :
  n < length doc ->
  Host.applyTransaction doc [replaceLine doc n txt]
  = take n doc ++ Host.splitLines txt ++ drop (S n) doc /\
  (singleLine txt = true ->
   Host.applyTransaction doc [replaceLine doc n txt] = <[n:=txt]> doc /\
   length (Host.applyTransaction doc [replaceLine doc n txt]) = length doc).
Proof.
  intros Hn.
  assert (Host.applyTransaction doc [replaceLine doc n txt]
          = take n doc ++ Host.splitLines txt ++ drop (S n) doc) as E.
  { rewrite applyTransaction_one, resolve_replaceLine by done.
    unfold Host.replaceRange.
    cbn [Host.rfrom Host.rto Host.rtext line ch lineStartPosition lineEndPosition].
    rewrite slice_length, ?sliceTo_0. cbn [Js.sliceTo String.append].
    by rewrite app_empty_r. }
  split; [done |]. intros Htxt. rewrite E, splitLines_single by done.
  split.
  - symmetry. apply insert_take_drop. done.
  - rewrite !length_app, length_take, length_drop. simpl. lia.
Qed.

Lemma replaceLine_alone_witness :
  Host.applyTransaction ["a"; "b"; "c"] [replaceLine ["a"; "b"; "c"] 1 "- [x] b"]
  = <[1:="- [x] b"]> ["a"; "b"; "c"].
Proof.
  destruct (replaceLine_alone ["a"; "b"; "c"] 1 "- [x] b") as [_ H]; [simpl; lia |].
  apply H. reflexivity.
Defined.

(** X7. [appendAfterLine] applied alone puts the lines of the text below
    the given line; with a line number past the end, which is how the run
    places the date below a History heading it is about to create, it does
    what [appendToEnd] does: the lines go to the end of the document. *)
Theorem appendAfterLine_alone (doc : list string) (n : nat) (txt : string) :
  linesOK doc = true -> doc <> [] ->
  (n < length doc ->
   Host.applyTransaction doc [appendAfterLine doc n txt]
   = take (S n) doc ++ Host.splitLines txt ++ drop (S n) doc) /\
  (length doc <= n ->
   Host.applyTransaction doc [appendAfterLine doc n txt] = doc ++ Host.splitLines txt) /\
  Host.applyTransaction doc [appendToEnd doc txt] = doc ++ Host.splitLines txt.
Proof.
  intros Hok Hne.
  assert (Host.lastLine doc < length doc) as Hlast
    by (unfold Host.lastLine; destruct doc; [done | simpl; lia]).
  assert (forall k, k < length doc ->
            Host.applyTransaction doc [appendAfterLine doc k txt]
            = insertAfter k (Host.splitLines txt) doc) as Hin.
  { intros k Hk. rewrite (apply_inserts doc _ k [txt]); [| done | done |].
    - simpl. by rewrite app_nil_r.
    - simpl. by rewrite resolve_appendAfterLine. }
  assert (Host.applyTransaction doc [appendToEnd doc txt] = doc ++ Host.splitLines txt) as Hend.
  { unfold appendToEnd. rewrite Hin by done. by apply insertAfter_last. }
  split; [| split; [| done]].
  - intros Hn. by rewrite Hin.
  - intros Hn. rewrite <-Hend. rewrite !applyTransaction_one. f_equal.
    rewrite resolve_appendAfterLine_ge by done.
    unfold appendToEnd. by rewrite resolve_appendAfterLine.
Qed.

Lemma appendAfterLine_alone_witness :
  Host.applyTransaction ["a"; "b"] [appendAfterLine ["a"; "b"] 2 "# History"]
  = ["a"; "b"] ++ Host.splitLines "# History".
Proof.
  destruct (appendAfterLine_alone ["a"; "b"] 2 "# History") as (_ & H & _);
    [reflexivity | done |].
  apply H. simpl. lia.
Defined.

(** X8. [toString] with index [k] is the parents from index [k] on and then
    the task, joined by line feeds, hence one line each in the document; an
    index at or past the number of parents gives the task alone. *)
Theorem toString_lines (t : Task) (k : nat) :
  toString t k = Js.join (String Js.lf "") (drop k (parents t) ++ [task t]) /\
  (length (parents t) <= k -> toString t k = task t) /\
  (linesOK (parents t) = true -> singleLine (task t) = true ->
   Host.splitLines (toString t k) = drop k (parents t) ++ [task t]).
Proof.
  split; [| split].
  - unfold toString. destruct (drop k (parents t)) as [|p ps]; [done |].
    apply join_snoc.
  - intros Hk. unfold toString. by rewrite drop_ge.
  - apply splitLines_toString.
Qed.

(** X9. Two different days never get the same date string (months counted
    from 0 to 11, days up to 31, any year), so they never share a
    subsection of the archive. *)
Theorem getLocalDateString_distinct (d d' : Date) :
  getMonth d < 12 -> getMonth d' < 12 ->
  getDate d <= 31 -> getDate d' <= 31 ->
  d <> d' -> getLocalDateString d <> getLocalDateString d'.
Proof.
  intros Hm Hm' Hd Hd' Hne E. by apply Hne, getLocalDateString_eq.
Qed.

Lemma getLocalDateString_distinct_witness :
  getLocalDateString (mkDate 2024 0 11) <> getLocalDateString (mkDate 2024 10 1).
Proof.
  apply (getLocalDateString_distinct (mkDate 2024 0 11) (mkDate 2024 10 1));
    [simpl; lia | simpl; lia | simpl; lia | simpl; lia | discriminate].
Defined.

(** X10. For a year of four digits the date string has ten characters, the
    year first, a dash at positions 4 and 7, and no line feed: month and
    day are padded to two digits. *)
Theorem getLocalDateString_format (now : Date) :
  1000 <= getFullYear now < 10 * 1000 -> getMonth now < 12 -> getDate now <= 31 ->
  String.length (getLocalDateString now) = 10 /\
  String.get 4 (getLocalDateString now) = Some "-"%char /\
  String.get 7 (getLocalDateString now) = Some "-"%char /\
  Js.sliceTo 4 (getLocalDateString now) = Js.ofNat (getFullYear now) /\
  singleLine (getLocalDateString now) = true.
Proof.
  intros Hy Hm Hd. unfold getLocalDateString.
  pose proof (year_length _ Hy) as Ly.
  pose proof (padStart2_length (getMonth now + 1) ltac:(lia)) as Lm.
  pose proof (padStart2_length (getDate now) ltac:(lia)) as Ld.
  pose proof (singleLine_today now) as Hs. unfold getLocalDateString in Hs.
  destruct (Js.ofNat (getFullYear now)) as [|y1 [|y2 [|y3 [|y4 [|? ?]]]]]; try discriminate Ly.
  destruct (Js.padStart2 (Js.ofNat (getMonth now + 1))) as [|m1 [|m2 [|? ?]]]; try discriminate Lm.
  destruct (Js.padStart2 (Js.ofNat (getDate now))) as [|d1 [|d2 [|? ?]]]; try discriminate Ld.
  done.
Qed.

Lemma getLocalDateString_format_witness :
  String.length (getLocalDateString day) = 10 /\
  String.get 4 (getLocalDateString day) = Some "-"%char /\
  String.get 7 (getLocalDateString day) = Some "-"%char /\
  Js.sliceTo 4 (getLocalDateString day) = Js.ofNat (getFullYear day) /\
  singleLine (getLocalDateString day) = true.
Proof. apply (getLocalDateString_format day); simpl; lia. Defined.

(** ** Properties of a run *)

(** X11. The loops that walk the archive test no bound, and still stop
    inside the document or right after its last line: from the line of
    today's heading the walk ends at a line below it, at a depth that is at
    most the number of parents, and it ends there because the line is not
    an archived line, or is indented less than the depth reached, or is the
    task looked for. *)
Theorem walk_stops_in_document (doc : list string) (T0 : nat) (tk : Task) (L c : nat) :
  T0 < length doc ->
  locate doc T0 tk = (L, c) ->
  T0 < L <= length doc /\ c <= length (parents tk) /\
  (isArchiveTask doc L = false \/ indentLevel doc L < c \/
   isTheTask doc (task tk) c L = true).
Proof.
  intros HT Hloc. destruct (locate_bounds doc T0 tk L c HT Hloc) as [H1 H2].
  split; [done |]. split; [done |].
  unfold locate in Hloc. destruct (matchParents doc (parents tk) (T0 + 1) 0) as [n c'].
  injection Hloc as <- <-.
  destruct (endOfList_firstFalse doc (task tk) c' n) as (_ & _ & Hstop).
  unfold listGoesOn in Hstop.
  destruct (isArchiveTask doc _); [| by left].
  destruct (isTheTask doc _ _ _); [by right; right |].
  right; left. simpl in Hstop. rewrite andb_true_r in Hstop. by apply Nat.leb_gt.
Qed.

Lemma walk_stops_in_document_witness :
  1 < 4 <= length ["# History"; "## 2024-05-07"; "- P"; T +:+ "- [x] A"] /\
  1 <= length (parents (mkTask ["- P"] (T +:+ "- [x] B") [])) /\
  (isArchiveTask ["# History"; "## 2024-05-07"; "- P"; T +:+ "- [x] A"] 4 = false \/
   indentLevel ["# History"; "## 2024-05-07"; "- P"; T +:+ "- [x] A"] 4 < 1 \/
   isTheTask ["# History"; "## 2024-05-07"; "- P"; T +:+ "- [x] A"]
     (task (mkTask ["- P"] (T +:+ "- [x] B") [])) 1 4 = true).
Proof.
  apply (walk_stops_in_document ["# History"; "## 2024-05-07"; "- P"; T +:+ "- [x] A"] 1
           (mkTask ["- P"] (T +:+ "- [x] B") []) 4 1); [simpl; lia | reflexivity].
Defined.

(** X12. On a task line a run changes the document in one of two ways,
    apart from deleting the source line when the task is completed: it puts
    in, at or below the task line, one block of lines, made of the headings
    it creates, the parents it did not match and the marked task line; or
    it overwrites one line below the task line, a line that is the same
    task, with the marked task line. *)
Theorem run_inserts_or_overwrites (now : Date) (e : Editor) (b : bool) (tk : Task) :
  linesOK (lines e) = true ->
  isBulletTask (lines e) (line (cursor e)) = true ->
  getTask (lines e) (line (cursor e)) = Some tk ->
  exists doc1,
    lines (archiveTask now e b) = (if b then removeLine (line (cursor e)) doc1 else doc1) /\
    ((exists n heads c,
        line (cursor e) <= n < length (lines e) /\
        (heads = [] \/ heads = ["## " +:+ getLocalDateString now] \/
         heads = ["# History"; "## " +:+ getLocalDateString now]) /\
        c <= length (parents tk) /\
        doc1 = insertAfter n
                 (heads ++ drop c (parents tk)
                    ++ [task (if b then markAsCompleted tk else markAsInProgress tk)])
                 (lines e)) \/
     (exists L,
        line (cursor e) < L < length (lines e) /\
        isSameTask (Host.getLine (lines e) L)
          (task (if b then markAsCompleted tk else markAsInProgress tk)) = true /\
        doc1 = <[L:=task (if b then markAsCompleted tk else markAsInProgress tk)]> (lines e))).
Proof.
  intros Hok Ht Htk. rewrite (archiveTask_lines now e b tk Ht Htk).
  destruct (archive_edits_shape now (lines e) (line (cursor e)) b tk Hok Ht Htk)
    as (doc1 & _ & _ & _ & E & _ & _ & _ & _ & Hshape).
  exists doc1. split; [done |]. by destruct b.
Qed.

Lemma run_inserts_or_overwrites_witness :
  exists doc1,
    lines (archiveTask day
             (editorOf ["- [ ] A"; "- [ ] B"; "# History"; "## 2024-05-07"; "- [/] B"] 1 0) false)
    = doc1.
Proof.
  destruct (run_inserts_or_overwrites day
              (editorOf ["- [ ] A"; "- [ ] B"; "# History"; "## 2024-05-07"; "- [/] B"] 1 0)
              false (mkTask [] "- [ ] B" []))
    as (doc1 & E & _); [reflexivity | reflexivity | reflexivity |].
  exists doc1. exact E.
Defined.

(** X13. A run never changes a line above the cursor line, and Progress
    Task leaves the cursor line as it is too. *)
Theorem lines_above_untouched (now : Date) (e : Editor) (b : bool) (i : nat) :
  linesOK (lines e) = true ->
  i < line (cursor e) \/ (b = false /\ i = line (cursor e)) ->
  lines (archiveTask now e b) !! i = lines e !! i.
Proof.
  intros Hok Hi.
  destruct (isBulletTask (lines e) (line (cursor e))) eqn:Ht.
  2:{ unfold archiveTask. by rewrite Ht. }
  destruct (archiveTask_run now e b Ht) as (tk & Htk & _).
  rewrite (archiveTask_lines now e b tk Ht Htk).
  pose proof (isBulletTask_lt _ _ Ht) as Hlt.
  destruct (archive_edits_shape now (lines e) (line (cursor e)) b tk Hok Ht Htk)
    as (doc1 & _ & _ & _ & -> & _ & _ & _ & _ & Hshape).
  assert (forall j, j <= line (cursor e) -> doc1 !! j = lines e !! j) as Hd.
  { intros j Hj. destruct Hshape as [(n & heads & c & Hn & _ & _ & ->) | (L & HL & _ & ->)].
    - apply insertAfter_lookup; lia.
    - apply list_lookup_insert_ne. lia. }
  destruct b.
  - destruct Hi as [Hi | [? _]]; [| done]. rewrite <-Hd by lia.
    unfold removeLine. destruct (line (cursor e) =? 0) eqn:E.
    + apply Nat.eqb_eq in E. lia.
    + assert (i < length doc1) as Hlen.
      { apply lookup_lt_is_Some_1. rewrite Hd by lia. apply lookup_lt_is_Some_2. lia. }
      rewrite lookup_app_l by (rewrite length_take; lia).
      by rewrite lookup_take_lt by lia.
  - apply Hd. lia.
Qed.

Lemma lines_above_untouched_witness :
  lines (archiveTask day
           (editorOf ["# History"; "- [ ] P"; T +:+ "- [ ] X"] 2 0) true) !! 1
  = Some "- [ ] P".
Proof.
  apply (lines_above_untouched day
           (editorOf ["# History"; "- [ ] P"; T +:+ "- [ ] X"] 2 0) true 1);
    [reflexivity | left; simpl; lia].
Defined.

(** X14. After a run on a task line the document has a History heading
    below the place of the task line (the line itself when Complete Task
    has taken the source line out), today's heading below that, and the
    marked task line below today's heading. *)
Theorem archive_holds_entry (now : Date) (e : Editor) (b : bool) (tk : Task) :
  linesOK (lines e) = true ->
  isBulletTask (lines e) (line (cursor e)) = true ->
  getTask (lines e) (line (cursor e)) = Some tk ->
  exists h T0 pos,
    findLine (lines (archiveTask now e b))
      (if b && negb (line (cursor e) =? 0) then line (cursor e) else line (cursor e) + 1)
      "# History" = Some h /\
    findLine (lines (archiveTask now e b)) (h + 1) ("## " +:+ getLocalDateString now) = Some T0 /\
    T0 < pos /\
    lines (archiveTask now e b) !! pos
    = Some (task (if b then markAsCompleted tk else markAsInProgress tk)).
Proof.
  intros Hok Ht Htk. rewrite (archiveTask_lines now e b tk Ht Htk).
  destruct (archive_edits_shape now (lines e) (line (cursor e)) b tk Hok Ht Htk)
    as (doc1 & h & T0 & pos & -> & Hh & HT & Hpos & Hentry & _).
  set (t := line (cursor e)) in *.
  destruct b; [| exists h, T0, pos; by rewrite andb_false_l].
  change (marked true tk) with (markAsCompleted tk) in *.
  destruct (found_order now doc1 t h T0 Hh HT) as (Hth & HhT & HTlen).
  set (k := moved true t). set (m := if t =? 0 then 1 else t).
  assert (forall i, m <= i -> removeLine t doc1 !! i = doc1 !! (i + k)) as Hshift
    by (intros i Hi; apply removeLine_shift; [lia | done]).
  assert (k <= 1 /\ m <= t + 1 - k /\ t + 1 - k + k = t + 1 /\
          (if true && negb (t =? 0) then t else t + 1) = t + 1 - k) as (Hk1 & Hm1 & Hm2 & ->).
  { unfold k, m, moved. destruct (t =? 0) eqn:E; simpl; [| lia].
    apply Nat.eqb_eq in E. lia. }
  destruct (findLine_shift doc1 (removeLine t doc1) k m Hshift (t + 1 - k) "# History" h)
    as [Hkh Hh1]; [done | by rewrite Hm2 |].
  destruct (findLine_shift doc1 (removeLine t doc1) k m Hshift (h - k + 1)
              ("## " +:+ getLocalDateString now) T0)
    as [HkT HT1]; [lia | by replace (h - k + 1 + k) with (h + 1) by lia |].
  exists (h - k), (T0 - k), (pos - k).
  split; [done |]. split; [done |]. split; [lia |].
  rewrite Hshift by lia. by replace (pos - k + k) with pos by lia.
Qed.

Lemma archive_holds_entry_witness :
  exists pos,
    lines (archiveTask day (editorOf ["- [ ] P"; T +:+ "- [ ] X"; "notes"] 1 0) true) !! pos
    = Some (T +:+ "- [x] X").
Proof.
  destruct (archive_holds_entry day (editorOf ["- [ ] P"; T +:+ "- [ ] X"; "notes"] 1 0) true
              (mkTask ["- P"] (T +:+ "- [ ] X") []))
    as (h & T0 & pos & _ & _ & _ & E); [reflexivity | reflexivity | reflexivity |].
  exists pos. exact E.
Defined.

(** X15. Progress Task run twice with the cursor left where it is gives the
    document that one run gives, for a task whose ancestor chain is resolved
    up to depth 0 and whose first run placed the entry at the task's own
    depth: the source line stays, the second run finds the in-progress
    entry and overwrites it with the same text. *)
Theorem progress_twice_is_progress_once (now : Date) (e : Editor) (tk : Task) :
  linesOK (lines e) = true ->
  isBulletTask (lines e) (line (cursor e)) = true ->
  getTask (lines e) (line (cursor e)) = Some tk ->
  length (parents tk) = indentLevel (lines e) (line (cursor e)) ->
  placedAtOwnDepth now (lines e) (line (cursor e)) (markAsInProgress tk) ->
  lines (progressTaskCommand now (progressTaskCommand now e))
  = lines (progressTaskCommand now e) /\
  cursor (progressTaskCommand now (progressTaskCommand now e)) = cursor e /\
  Host.getLine (lines (progressTaskCommand now e)) (line (cursor e))
  = Host.getLine (lines e) (line (cursor e)).
Proof.
  unfold progressTaskCommand.
  destruct e as [doc [t col] log mv]. simpl. intros Hok Ht Htk Hfull Hplaced.
  destruct (marked_ok doc t false tk Hok Htk) as [Hps Htask].
  pose proof (marked_shows_bullet doc t tk false Ht Htk) as Hb.
  pose proof (fullChain_wellIndented doc t tk Htk Hfull) as Hwi.
  assert (Js.leadingTabs (task (markAsInProgress tk)) = length (parents tk)) as Hind.
  { change (markAsInProgress tk) with (marked false tk).
    rewrite (indent_marked false tk), (task_getTask _ _ _ Htk). by rewrite Hfull. }
  destruct (archived_state now doc t (markAsInProgress tk) Hok Ht Hps Htask Hb Hwi Hind Hplaced)
    as (_ & Hagree & Hok' & h & T0 & L & Hh & HT & Hloc & Hentry).
  destruct (archiveTask_run now (hostEditor doc (mkPos t col) log mv) false Ht) as (tk0 & Htk0 & Erun).
  simpl in Htk0. rewrite Htk in Htk0. injection Htk0 as <-.
  rewrite Erun. cbn [Host.setCursor Host.transaction lines cursor applied line].
  unfold allChanges in *. simpl marked in *.
  set (doc' := Host.applyTransaction doc
                 (withDeletion doc t false
                    (archiveChanges doc (getLocalDateString now) t (markAsInProgress tk)))) in *.
  assert (getTask doc' t = Some tk) as Htk'
    by (rewrite <-Htk; apply getTask_ext; intros i Hi; by apply Hagree).
  assert (isBulletTask doc' t = true) as Ht'
    by (rewrite <-Ht; apply isBulletTask_ext; by apply Hagree).
  assert (isTheTask doc' (task (markAsInProgress tk)) (length (parents tk)) L = true) as Hthe.
  { unfold isTheTask, indentLevel, isSameTask.
    by rewrite (getLine_lookup _ _ _ Hentry), Hind, Nat.eqb_refl, String.eqb_refl. }
  destruct (edits_replace now doc' t false (markAsInProgress tk) h T0 L _
              Hok' Ht' Htask Hb Hh HT Hloc Hthe) as (_ & _ & _ & H4).
  split; [| split].
  - match goal with |- lines (archiveTask now ?e1 false) = _ =>
      rewrite (archiveTask_lines now e1 false tk Ht' Htk') end.
    cbn [Host.setCursor Host.transaction lines cursor applied line]. unfold allChanges.
    change (marked false tk) with (markAsInProgress tk). fold doc'. rewrite H4.
    cbn [id]. by rewrite list_insert_id.
  - match goal with |- cursor (archiveTask now ?e1 false) = _ =>
      destruct (archiveTask_run now e1 false Ht') as (tk1 & _ & ->) end.
    done.
  - unfold Host.getLine. by rewrite Hagree.
Qed.

Lemma progress_twice_is_progress_once_witness :
  lines (progressTaskCommand day (progressTaskCommand day
           (editorOf ["- [ ] P"; T +:+ "- [ ] X"; "# History"] 1 0)))
  = lines (progressTaskCommand day (editorOf ["- [ ] P"; T +:+ "- [ ] X"; "# History"] 1 0)).
Proof.
  apply (progress_twice_is_progress_once day
           (editorOf ["- [ ] P"; T +:+ "- [ ] X"; "# History"] 1 0)
           (mkTask ["- P"] (T +:+ "- [ ] X") [])).
  - reflexivity.
  - reflexivity.
  - reflexivity.
  - reflexivity.
  - intros h T0 L c Hh HT. vm_compute in Hh. injection Hh as <-.
    vm_compute in HT. discriminate HT.
Defined.

(** X16. Complete Task on a task in the first line does not take the line
    out: the first line stays as an empty line, and the document does not
    get shorter. *)
Theorem complete_first_line_leaves_blank (now : Date) (e : Editor) :
  linesOK (lines e) = true ->
  line (cursor e) = 0 ->
  isBulletTask (lines e) 0 = true ->
  lines (completeTaskCommand now e) !! 0 = Some "" /\
  length (lines e) <= length (lines (completeTaskCommand now e)).
Proof.
  intros Hok H0 Ht. unfold completeTaskCommand.
  assert (isBulletTask (lines e) (line (cursor e)) = true) as Ht' by (by rewrite H0).
  destruct (archiveTask_run now e true Ht') as (tk & Htk & _).
  rewrite (archiveTask_lines now e true tk Ht' Htk).
  destruct (archive_edits_shape now (lines e) (line (cursor e)) true tk Hok Ht' Htk)
    as (doc1 & _ & _ & _ & -> & _ & _ & _ & _ & Hshape).
  rewrite H0. unfold removeLine. simpl. split; [done |].
  rewrite length_drop.
  destruct Hshape as [(n & heads & c & Hn & _ & _ & ->) | (L & HL & _ & ->)].
  - rewrite length_insertAfter, length_app, length_app. simpl. lia.
  - rewrite length_insert. lia.
Qed.

Lemma complete_first_line_leaves_blank_witness :
  lines (completeTaskCommand day (editorOf ["- [ ] A"; "b"] 0 0)) !! 0 = Some "" /\
  length ["- [ ] A"; "b"] <= length (lines (completeTaskCommand day (editorOf ["- [ ] A"; "b"] 0 0))).
Proof.
  apply (complete_first_line_leaves_blank day (editorOf ["- [ ] A"; "b"] 0 0)); reflexivity.
Defined.

(** X17. [getTask] reads the task line and lines above it only: two
    documents that agree up to the task line give the same task. *)
Theorem getTask_reads_upward (doc doc' : list string) (t : nat) :
  (forall i, i <= t -> doc !! i = doc' !! i) -> getTask doc t = getTask doc' t.
Proof. apply getTask_ext. Qed.

Lemma getTask_reads_upward_witness :
  getTask ["- [ ] A"; T +:+ "- [ ] B"; "x"] 1 = getTask ["- [ ] A"; T +:+ "- [ ] B"; "y"; "z"] 1.
Proof.
  apply (getTask_reads_upward ["- [ ] A"; T +:+ "- [ ] B"; "x"]
           ["- [ ] A"; T +:+ "- [ ] B"; "y"; "z"] 1).
  intros [|[|i]] Hi; [reflexivity | reflexivity | lia].
Defined.
